(** * Options analytics: Black-Scholes engine, per-contract pipeline and
      batch search.

    A shallow embedding of [utils/blackScholes.ts], [types/options.ts] and of
    the two versions of [services/optionsService.ts] (the one that reads the
    built-in table [MOCK_OPTIONS_DATA] and the one that calls [fetch]),
    followed by the symbol parser, the page ([components/OptionsAnalytics.tsx]
    with its search bar and its table) and the route [api/options/route.ts].

    Numbers.  A JavaScript [number] is modelled by a real number: [Math.exp],
    [Math.log], [Math.sqrt], [Math.abs], [Math.max] and [Math.PI] are [exp],
    [ln], [sqrt], [Rabs], [Rmax] and [PI].  IEEE-754 rounding, [NaN] and
    overflow are outside the model, and a quotient is only meaningful where
    its divisor is not zero; the statements below carry the hypotheses that
    make it so.  The one infinite value the source writes down, the literal
    [Infinity], has a constructor of its own ([xnumber]).

    Effects.  Reading the clock ([new Date()]), drawing from [Math.random()],
    calling [fetch] and invoking the [onProgress] callback are effects.  The
    answers of the outside world are collected in a [Host]; the program
    threads a [State] that counts how many answers it has consumed and logs
    the calls it has made to [onProgress].  A call that can end in an
    exception has a [Completion] as its result. *)

From Stdlib Require Import Reals Lra Lia Psatz.
From Stdlib Require Import List String Bool Arith.
From Stdlib Require Import Permutation Sorted.
From Stdlib Require Import Ascii.
Import ListNotations.

Open Scope string_scope.
Open Scope R_scope.

(** ** Numbers *)

Inductive xnumber : Type :=
| Finite (x : R)
| Infinity.

(** [a >= b] as the boolean a JavaScript comparison yields. *)
Definition geb (a b : R) : bool := if Rge_dec a b then true else false.

(** [a > b] *)
Definition gtb (a b : R) : bool := if Rgt_dec a b then true else false.

(** [a < b] *)
Definition ltb (a b : R) : bool := if Rlt_dec a b then true else false.

(** ** types/options.ts *)

Inductive OptionType : Type := call | put.

Definition OptionType_eqb (a b : OptionType) : bool :=
  match a, b with
  | call, call | put, put => true
  | _, _ => false
  end.

(** The declared type of [strategyType] has two members; the table-backed
    service stores the result of [getStrategyType] under a cast, so a third
    value can be found there at run time. *)
Inductive StrategyType : Type := covered_call | cash_secured_put | speculative.

Inductive PriceSource : Type := src_last | src_mid | src_bid | src_ask.

Module RawOptionData.
Record t : Type := mk {
  contractSymbol : string;
  strike : R;
  expiration : string;
  optionType : OptionType;
  lastPrice : R;
  bid : R;
  ask : R;
  volume : R;
  openInterest : R;
  impliedVolatility : R
}.
End RawOptionData.

Module MarketData.
Record t : Type := mk {
  symbol : string;
  price : R;
  options : list RawOptionData.t
}.
End MarketData.

Module OptionData.
Record t : Type := mk {
  symbol : string;
  ticker : string;
  strike : R;
  expiration : string;
  optionType : OptionType;
  lastPrice : R;
  bid : R;
  ask : R;
  volume : R;
  openInterest : R;
  stockPrice : R;
  timeToExpiration : R;
  riskFreeRate : R;
  impliedVolatility : R;
  theoreticalPrice : R;
  edge : R;
  delta : R;
  gamma : R;
  theta : R;
  vega : R;
  rho : R;
  moneyness : R;
  bidAskSpread : R;
  bidAskSpreadPercent : R;
  strategyType : StrategyType;
  breakevenPrice : R;
  maxProfit : xnumber;
  collateralRequired : R;
  annualizedReturn : R;
  assignmentProbability : R;
  d1 : R;
  d2 : R;
  nd1 : R;
  nd2 : R;
  priceSource : PriceSource;
  dataAge : R;
  hasLiquidityWarning : bool;
  hasSpreadWarning : bool;
  hasStaleDataWarning : bool
}.
End OptionData.

(** [SearchOptions]: [onProgress] is optional, and all the services do with
    it is to test it and to call it, so the model keeps whether it was
    supplied; its calls are logged in the [State]. *)
Module SearchOptions.
Record t : Type := mk {
  onProgress : bool;
  minEdge : R;
  minVolume : R;
  minPrice : R
}.
End SearchOptions.

(** ** The host and the state of a run *)

(** What one call of [fetch] followed by [response.json()] can come to: an
    exception (transport error, a status that is not ok, a body that is not
    the expected JSON), which the service catches, or the parsed array. *)
Inductive FetchOutcome : Type :=
| FetchFailed
| FetchResults (results : list MarketData.t).

Record Host : Type := mkHost {
  (** [new Date(s).getTime()], in milliseconds *)
  Date_parse : string -> R;
  (** the time shown by the k-th [new Date()] of the run, in milliseconds *)
  Date_now : nat -> R;
  (** the k-th [Math.random()] of the run *)
  Math_random : nat -> R;
  (** the outcome of the k-th request of the run, for the symbol asked *)
  fetchOptions : nat -> string -> FetchOutcome
}.

(** One call [onProgress(current, total, symbol)]. *)
Record ProgressCall : Type := mkProgress {
  current : nat;
  total : nat;
  label : string
}.

Record State : Type := mkState {
  dateReads : nat;
  randomDraws : nat;
  requests : nat;
  progressLog : list ProgressCall
}.

Definition M (A : Type) : Type := State -> A * State.

Definition ret {A : Type} (a : A) : M A := fun st => (a, st).

Definition bind {A B : Type} (m : M A) (k : A -> M B) : M B :=
  fun st => let (a, st') := m st in k a st'.

Notation "x <- m ;; k" := (bind m (fun x => k))
  (at level 61, m at next level, right associativity).
Notation "m ;;; k" := (bind m (fun _ => k))
  (at level 61, right associativity).

(** [new Date().getTime()] *)
Definition readClock (h : Host) : M R :=
  fun st => (Date_now h (dateReads st),
             mkState (S (dateReads st)) (randomDraws st) (requests st) (progressLog st)).

(** [Math.random()] *)
Definition random (h : Host) : M R :=
  fun st => (Math_random h (randomDraws st),
             mkState (dateReads st) (S (randomDraws st)) (requests st) (progressLog st)).

(** [await fetch(...)] with the checks and the [await response.json()] that
    follow it *)
Definition request (h : Host) (symbol : string) : M FetchOutcome :=
  fun st => (fetchOptions h (requests st) symbol,
             mkState (dateReads st) (randomDraws st) (S (requests st)) (progressLog st)).

(** [onProgress(current, total, symbol)] *)
Definition callProgress (c : ProgressCall) : M unit :=
  fun st => (tt, mkState (dateReads st) (randomDraws st) (requests st) (progressLog st ++ [c])).

(** [await new Promise(resolve => setTimeout(resolve, base + Math.random() * span))]:
    the wait itself is not observable here, the draw is. *)
Definition delay (h : Host) : M unit :=
  _ <- random h ;; ret tt.

(** How a call that can throw ends: it returns a value, or it throws (an
    [async] function then rejects its promise).  The one exception the
    modelled code raises is the [TypeError] of reading a property of
    [undefined]. *)
Inductive Completion (A : Type) : Type :=
| Returned (a : A)
| Threw.

Arguments Returned {A} a.
Arguments Threw {A}.

(** The names an object literal inherits from [Object.prototype]
    (ECMAScript, with its annex B). *)
Definition Object_prototype : list string :=
  [ "constructor"; "hasOwnProperty"; "isPrototypeOf"; "propertyIsEnumerable";
    "toLocaleString"; "toString"; "valueOf"; "__proto__";
    "__defineGetter__"; "__defineSetter__"; "__lookupGetter__"; "__lookupSetter__" ].

(** What [table[key]] finds: an entry of the literal; or, under a name of
    [Object.prototype] that no entry shadows, the inherited member, a
    function or (for [__proto__]) the prototype itself, which is truthy and
    has no property [options]; or [undefined]. *)
Inductive Property : Type :=
| Own (entry : MarketData.t)
| Inherited
| Undefined.

(** [array.map(f)] for an [f] with effects: elements are visited in index order. *)
Fixpoint mapM {A B : Type} (f : A -> M B) (l : list A) : M (list B) :=
  match l with
  | [] => ret []
  | a :: l' => b <- f a ;; bs <- mapM f l' ;; ret (b :: bs)
  end.

(** [array.sort(compareFn)]: the sort is stable, and an element goes behind
    another one only if [compareFn] is positive on them. *)
Fixpoint insertSorted {A : Type} (compareFn : A -> A -> R) (x : A) (l : list A) : list A :=
  match l with
  | [] => [x]
  | y :: l' => if Rgt_dec (compareFn x y) 0 then y :: insertSorted compareFn x l' else x :: l
  end.

Definition Array_sort {A : Type} (compareFn : A -> A -> R) (l : list A) : list A :=
  fold_right (insertSorted compareFn) [] l.

(** ** utils/blackScholes.ts *)

Module BlackScholes.

Definition normalCDF (x : R) : R :=
  let a1 := 0.254829592 in
  let a2 := -0.284496736 in
  let a3 := 1.421413741 in
  let a4 := -1.453152027 in
  let a5 := 1.061405429 in
  let p := 0.3275911 in
  let sign := if Rlt_dec x 0 then -1 else 1 in
  let x := Rabs x / sqrt 2 in
  let t := 1 / (1 + p * x) in
  let y := 1 - (((((a5 * t + a4) * t) + a3) * t + a2) * t + a1) * t * exp (- x * x) in
  0.5 * (1 + sign * y).

Record BlackScholesResult : Type := mkResult {
  callPrice : R;
  putPrice : R;
  d1 : R;
  d2 : R;
  nd1 : R;
  nd2 : R;
  nMinusD1 : R;
  nMinusD2 : R
}.

Definition blackScholes (S K T r sigma : R) : BlackScholesResult :=
  if Rle_dec T 0 then
    let callPrice := Rmax (S - K) 0 in
    let putPrice := Rmax (K - S) 0 in
    {| callPrice := callPrice;
       putPrice := putPrice;
       d1 := 0;
       d2 := 0;
       nd1 := if Rgt_dec S K then 1 else 0;
       nd2 := if Rgt_dec S K then 1 else 0;
       nMinusD1 := if Rgt_dec S K then 0 else 1;
       nMinusD2 := if Rgt_dec S K then 0 else 1 |}
  else
    let sqrtT := sqrt T in
    let d1 := (ln (S / K) + (r + 0.5 * sigma * sigma) * T) / (sigma * sqrtT) in
    let d2 := d1 - sigma * sqrtT in
    let nd1 := normalCDF d1 in
    let nd2 := normalCDF d2 in
    let nMinusD1 := normalCDF (- d1) in
    let nMinusD2 := normalCDF (- d2) in
    let callPrice := S * nd1 - K * exp (- r * T) * nd2 in
    let putPrice := K * exp (- r * T) * nMinusD2 - S * nMinusD1 in
    {| callPrice := callPrice;
       putPrice := putPrice;
       d1 := d1;
       d2 := d2;
       nd1 := nd1;
       nd2 := nd2;
       nMinusD1 := nMinusD1;
       nMinusD2 := nMinusD2 |}.

Record Greeks : Type := mkGreeks {
  delta : R;
  gamma : R;
  theta : R;
  vega : R;
  rho : R
}.

Definition calculateGreeks (S K T r sigma : R) (optionType : OptionType) : Greeks :=
  if Rle_dec T 0 then
    {| delta := 0; gamma := 0; theta := 0; vega := 0; rho := 0 |}
  else
    let sqrtT := sqrt T in
    let d1 := (ln (S / K) + (r + 0.5 * sigma * sigma) * T) / (sigma * sqrtT) in
    let d2 := d1 - sigma * sqrtT in
    let nd1 := normalCDF d1 in
    let nd2 := normalCDF d2 in
    let nMinusD1 := normalCDF (- d1) in
    let nMinusD2 := normalCDF (- d2) in
    let phi := fun x : R => exp (- 0.5 * x * x) / sqrt (2 * PI) in
    let phiD1 := phi d1 in
    let delta := match optionType with call => nd1 | put => - nMinusD1 end in
    let rho :=
      match optionType with
      | call => K * T * exp (- r * T) * nd2 / 100
      | put => - K * T * exp (- r * T) * nMinusD2 / 100
      end in
    let gamma := phiD1 / (S * sigma * sqrtT) in
    let theta :=
      (- S * phiD1 * sigma / (2 * sqrtT) -
       r * K * exp (- r * T) * (match optionType with call => nd2 | put => nMinusD2 end))
      / 365 in
    let vega := S * phiD1 * sqrtT / 100 in
    {| delta := delta; gamma := gamma; theta := theta; vega := vega; rho := rho |}.

Definition calculateEdge (marketPrice theoreticalPrice : R) : R :=
  if Req_dec_T theoreticalPrice 0 then 0
  else ((marketPrice - theoreticalPrice) / theoreticalPrice) * 100.

Definition calculateTimeToExpiration (h : Host) (expirationDate : string) : M R :=
  let expiry := Date_parse h (expirationDate ++ "T16:00:00-05:00") in
  now <- readClock h ;;
  let diffMs := expiry - now in
  let diffDays := diffMs / (1000 * 60 * 60 * 24) in
  ret (Rmax 0 (diffDays / 365.25)).

Definition calculateMoneyness (stockPrice strike : R) : R :=
  ((strike - stockPrice) / stockPrice) * 100.

Definition calculateSpreadPercent (bid ask : R) : R :=
  if Req_dec_T bid 0 then 0
  else if Req_dec_T ask 0 then 0
  else
    let mid := (bid + ask) / 2 in
    ((ask - bid) / mid) * 100.

Definition hasLiquidityWarning (volume openInterest : R) : bool :=
  ltb volume 1 || ltb openInterest 10.

Definition hasSpreadWarning (spreadPercent : R) : bool :=
  gtb spreadPercent 10.

Definition calculateAssignmentProbability (delta : R) (optionType : OptionType) : R :=
  match optionType with
  | call => Rabs delta * 100
  | put => Rabs delta * 100
  end.

End BlackScholes.

(** ** services/optionsService.ts, the version backed by the built-in table *)

Module MockService.
Import BlackScholes.

Definition RISK_FREE_RATE : R := 0.045.

Definition getStrategyType (optionType : OptionType) (moneyness : R) : StrategyType :=
  if OptionType_eqb optionType call && ltb moneyness 0 then covered_call
  else if OptionType_eqb optionType put && gtb moneyness 0 then cash_secured_put
  else speculative.

Definition calculateAnnualReturn (edge timeToExpiration : R) : R :=
  if Rle_dec timeToExpiration 0 then 0
  else (edge / 100) * (365 / (timeToExpiration * 365)).

Definition MOCK_OPTIONS_DATA : list (string * MarketData.t) :=
  [ ("AAPL",
     {| MarketData.symbol := "AAPL";
        MarketData.price := 185.50;
        MarketData.options :=
          [ {| RawOptionData.contractSymbol := "AAPL240816C00180000";
               RawOptionData.strike := 180;
               RawOptionData.expiration := "2025-08-16";
               RawOptionData.optionType := call;
               RawOptionData.lastPrice := 8.45;
               RawOptionData.bid := 8.20;
               RawOptionData.ask := 8.70;
               RawOptionData.volume := 1250;
               RawOptionData.openInterest := 5420;
               RawOptionData.impliedVolatility := 0.28 |};
            {| RawOptionData.contractSymbol := "AAPL240816P00190000";
               RawOptionData.strike := 190;
               RawOptionData.expiration := "2025-08-16";
               RawOptionData.optionType := put;
               RawOptionData.lastPrice := 6.25;
               RawOptionData.bid := 6.00;
               RawOptionData.ask := 6.50;
               RawOptionData.volume := 890;
               RawOptionData.openInterest := 3210;
               RawOptionData.impliedVolatility := 0.30 |} ] |});
    ("MSFT",
     {| MarketData.symbol := "MSFT";
        MarketData.price := 415.20;
        MarketData.options :=
          [ {| RawOptionData.contractSymbol := "MSFT240816C00410000";
               RawOptionData.strike := 410;
               RawOptionData.expiration := "2025-08-16";
               RawOptionData.optionType := call;
               RawOptionData.lastPrice := 12.35;
               RawOptionData.bid := 12.00;
               RawOptionData.ask := 12.70;
               RawOptionData.volume := 750;
               RawOptionData.openInterest := 2890;
               RawOptionData.impliedVolatility := 0.25 |} ] |});
    ("NVDA",
     {| MarketData.symbol := "NVDA";
        MarketData.price := 118.75;
        MarketData.options :=
          [ {| RawOptionData.contractSymbol := "NVDA240816C00115000";
               RawOptionData.strike := 115;
               RawOptionData.expiration := "2025-08-16";
               RawOptionData.optionType := call;
               RawOptionData.lastPrice := 6.80;
               RawOptionData.bid := 6.60;
               RawOptionData.ask := 7.00;
               RawOptionData.volume := 2100;
               RawOptionData.openInterest := 8750;
               RawOptionData.impliedVolatility := 0.35 |} ] |}) ].

(** The entry the literal lists under [key], if it lists one. *)
Fixpoint ownEntry (table : list (string * MarketData.t)) (key : string)
    : option MarketData.t :=
  match table with
  | [] => None
  | (k, v) :: table' => if String.eqb k key then Some v else ownEntry table' key
  end.

(** [table[key]] *)
Definition lookup (table : list (string * MarketData.t)) (key : string) : Property :=
  match ownEntry table key with
  | Some entry => Own entry
  | None => if existsb (String.eqb key) Object_prototype then Inherited else Undefined
  end.

Definition processOptionData (h : Host) (rawOption : RawOptionData.t)
    (stockPrice : R) (symbol : string) : M OptionData.t :=
  timeToExpiration <- calculateTimeToExpiration h (RawOptionData.expiration rawOption) ;;
  let moneyness := calculateMoneyness stockPrice (RawOptionData.strike rawOption) in
  let bsResult :=
    blackScholes stockPrice (RawOptionData.strike rawOption) timeToExpiration
      RISK_FREE_RATE (RawOptionData.impliedVolatility rawOption) in
  let theoreticalPrice :=
    match RawOptionData.optionType rawOption with
    | call => callPrice bsResult
    | put => putPrice bsResult
    end in
  let greeks :=
    calculateGreeks stockPrice (RawOptionData.strike rawOption) timeToExpiration
      RISK_FREE_RATE (RawOptionData.impliedVolatility rawOption)
      (RawOptionData.optionType rawOption) in
  let edge := calculateEdge (RawOptionData.lastPrice rawOption) theoreticalPrice in
  let spreadPercent :=
    calculateSpreadPercent (RawOptionData.bid rawOption) (RawOptionData.ask rawOption) in
  let assignmentProbability :=
    calculateAssignmentProbability (delta greeks) (RawOptionData.optionType rawOption) in
  let strategyType := getStrategyType (RawOptionData.optionType rawOption) moneyness in
  let annualReturn := calculateAnnualReturn edge timeToExpiration in
  ret {| OptionData.symbol := symbol;
         OptionData.ticker := RawOptionData.contractSymbol rawOption;
         OptionData.optionType := RawOptionData.optionType rawOption;
         OptionData.strike := RawOptionData.strike rawOption;
         OptionData.expiration := RawOptionData.expiration rawOption;
         OptionData.stockPrice := stockPrice;
         OptionData.lastPrice := RawOptionData.lastPrice rawOption;
         OptionData.bid := RawOptionData.bid rawOption;
         OptionData.ask := RawOptionData.ask rawOption;
         OptionData.volume := RawOptionData.volume rawOption;
         OptionData.openInterest := RawOptionData.openInterest rawOption;
         OptionData.timeToExpiration := timeToExpiration;
         OptionData.riskFreeRate := RISK_FREE_RATE;
         OptionData.impliedVolatility := RawOptionData.impliedVolatility rawOption;
         OptionData.theoreticalPrice := theoreticalPrice;
         OptionData.edge := edge;
         OptionData.delta := delta greeks;
         OptionData.gamma := gamma greeks;
         OptionData.theta := theta greeks;
         OptionData.vega := vega greeks;
         OptionData.rho := rho greeks;
         OptionData.moneyness := moneyness;
         OptionData.bidAskSpread := RawOptionData.ask rawOption - RawOptionData.bid rawOption;
         OptionData.bidAskSpreadPercent := spreadPercent;
         OptionData.strategyType := strategyType;
         OptionData.breakevenPrice :=
           match RawOptionData.optionType rawOption with
           | call => RawOptionData.strike rawOption + RawOptionData.lastPrice rawOption
           | put => RawOptionData.strike rawOption - RawOptionData.lastPrice rawOption
           end;
         OptionData.maxProfit :=
           match RawOptionData.optionType rawOption with
           | call => Infinity
           | put => Finite (RawOptionData.strike rawOption - RawOptionData.lastPrice rawOption)
           end;
         OptionData.collateralRequired :=
           match RawOptionData.optionType rawOption with
           | call => stockPrice * 100
           | put => RawOptionData.strike rawOption * 100
           end;
         OptionData.annualizedReturn := annualReturn;
         OptionData.assignmentProbability := assignmentProbability;
         OptionData.d1 := d1 bsResult;
         OptionData.d2 := d2 bsResult;
         OptionData.nd1 := nd1 bsResult;
         OptionData.nd2 := nd2 bsResult;
         OptionData.priceSource := src_last;
         OptionData.dataAge := 0;
         OptionData.hasLiquidityWarning :=
           hasLiquidityWarning (RawOptionData.volume rawOption)
             (RawOptionData.openInterest rawOption);
         OptionData.hasSpreadWarning := hasSpreadWarning spreadPercent;
         OptionData.hasStaleDataWarning := false |}.

(** The body of [for (let i = 0; i < symbols.length; i++)], run on the
    symbols from index [i] on; [length] is [symbols.length].  Under an
    inherited name [symbolData] is truthy, [symbolData.options] is
    [undefined] and [symbolData.options.map] throws; nothing catches it. *)
Fixpoint searchLoop (h : Host) (options : SearchOptions.t) (length i : nat)
    (symbols : list string) (allOpportunities : list OptionData.t)
    : M (Completion (list OptionData.t)) :=
  match symbols with
  | [] => ret (Returned allOpportunities)
  | symbol :: symbols' =>
      (if SearchOptions.onProgress options
       then callProgress (mkProgress i length symbol) else ret tt) ;;;
      delay h ;;;
      match lookup MOCK_OPTIONS_DATA symbol with
      | Undefined => searchLoop h options length (S i) symbols' allOpportunities
      | Inherited => ret Threw
      | Own symbolData =>
          symbolOptions <-
            mapM (fun option =>
                    processOptionData h option (MarketData.price symbolData)
                      (MarketData.symbol symbolData))
                 (MarketData.options symbolData) ;;
          let filteredOptions :=
            filter (fun option =>
                      geb (OptionData.edge option) (SearchOptions.minEdge options) &&
                      geb (OptionData.volume option) (SearchOptions.minVolume options) &&
                      geb (OptionData.lastPrice option) (SearchOptions.minPrice options))
                   symbolOptions in
          searchLoop h options length (S i) symbols' (allOpportunities ++ filteredOptions)
      end
  end.

(** The destructuring at the head of the function gives [minEdge], [minVolume]
    and [minPrice] the defaults 5, 1 and 0.10 where the caller left them
    undefined; [SearchOptions] declares the three as numbers, so they are
    always there. *)
Definition searchOptionsData (h : Host) (symbols : list string)
    (options : SearchOptions.t) : M (Completion (list OptionData.t)) :=
  loop <- searchLoop h options (List.length symbols) 0 symbols [] ;;
  match loop with
  | Threw => ret Threw
  | Returned allOpportunities =>
      (if SearchOptions.onProgress options
       then callProgress (mkProgress (List.length symbols) (List.length symbols) "")
       else ret tt) ;;;
      ret (Returned
             (Array_sort (fun a b => OptionData.edge b - OptionData.edge a) allOpportunities))
  end.

End MockService.

(** ** services/optionsService.ts, the version that calls [fetch] *)

Module FetchService.
Import BlackScholes.

Definition RISK_FREE_RATE : R := 0.045.

Definition processOptionData (h : Host) (rawOption : RawOptionData.t)
    (stockPrice : R) (ticker : string) : M OptionData.t :=
  timeToExpiration <- calculateTimeToExpiration h (RawOptionData.expiration rawOption) ;;
  let bsResult :=
    blackScholes stockPrice (RawOptionData.strike rawOption) timeToExpiration
      RISK_FREE_RATE (RawOptionData.impliedVolatility rawOption) in
  let theoreticalPrice :=
    match RawOptionData.optionType rawOption with
    | call => callPrice bsResult
    | put => putPrice bsResult
    end in
  let greeks :=
    calculateGreeks stockPrice (RawOptionData.strike rawOption) timeToExpiration
      RISK_FREE_RATE (RawOptionData.impliedVolatility rawOption)
      (RawOptionData.optionType rawOption) in
  let edge := calculateEdge (RawOptionData.lastPrice rawOption) theoreticalPrice in
  let moneyness := calculateMoneyness stockPrice (RawOptionData.strike rawOption) in
  let bidAskSpread := RawOptionData.ask rawOption - RawOptionData.bid rawOption in
  let bidAskSpreadPercent :=
    calculateSpreadPercent (RawOptionData.bid rawOption) (RawOptionData.ask rawOption) in
  let strategyType :=
    match RawOptionData.optionType rawOption with
    | call => covered_call
    | put => cash_secured_put
    end in
  let breakevenPrice :=
    match RawOptionData.optionType rawOption with
    | call => RawOptionData.strike rawOption + RawOptionData.lastPrice rawOption
    | put => RawOptionData.strike rawOption - RawOptionData.lastPrice rawOption
    end in
  let maxProfit := RawOptionData.lastPrice rawOption * 100 in
  let collateralRequired :=
    match RawOptionData.optionType rawOption with
    | call => stockPrice * 100
    | put => RawOptionData.strike rawOption * 100
    end in
  let daysToExpiration := timeToExpiration * 365 in
  let annualizedReturn :=
    if Rgt_dec daysToExpiration 0
    then (maxProfit / collateralRequired) * (365 / daysToExpiration) * 100
    else 0 in
  let assignmentProbability :=
    calculateAssignmentProbability (delta greeks) (RawOptionData.optionType rawOption) in
  let hasLiquidityWarn :=
    hasLiquidityWarning (RawOptionData.volume rawOption)
      (RawOptionData.openInterest rawOption) in
  let hasSpreadWarn := hasSpreadWarning bidAskSpreadPercent in
  u <- random h ;;
  let dataAge := u * 5 in
  let hasStaleDataWarn := gtb dataAge 15 in
  ret {| OptionData.symbol := RawOptionData.contractSymbol rawOption;
         OptionData.ticker := ticker;
         OptionData.strike := RawOptionData.strike rawOption;
         OptionData.expiration := RawOptionData.expiration rawOption;
         OptionData.optionType := RawOptionData.optionType rawOption;
         OptionData.lastPrice := RawOptionData.lastPrice rawOption;
         OptionData.bid := RawOptionData.bid rawOption;
         OptionData.ask := RawOptionData.ask rawOption;
         OptionData.volume := RawOptionData.volume rawOption;
         OptionData.openInterest := RawOptionData.openInterest rawOption;
         OptionData.stockPrice := stockPrice;
         OptionData.timeToExpiration := timeToExpiration;
         OptionData.riskFreeRate := RISK_FREE_RATE;
         OptionData.impliedVolatility := RawOptionData.impliedVolatility rawOption;
         OptionData.theoreticalPrice := theoreticalPrice;
         OptionData.edge := edge;
         OptionData.delta := delta greeks;
         OptionData.gamma := gamma greeks;
         OptionData.theta := theta greeks;
         OptionData.vega := vega greeks;
         OptionData.rho := rho greeks;
         OptionData.moneyness := moneyness;
         OptionData.bidAskSpread := bidAskSpread;
         OptionData.bidAskSpreadPercent := bidAskSpreadPercent;
         OptionData.strategyType := strategyType;
         OptionData.breakevenPrice := breakevenPrice;
         OptionData.maxProfit := Finite maxProfit;
         OptionData.collateralRequired := collateralRequired;
         OptionData.annualizedReturn := annualizedReturn;
         OptionData.assignmentProbability := assignmentProbability;
         OptionData.d1 := d1 bsResult;
         OptionData.d2 := d2 bsResult;
         OptionData.nd1 := nd1 bsResult;
         OptionData.nd2 := nd2 bsResult;
         OptionData.priceSource := src_last;
         OptionData.dataAge := dataAge;
         OptionData.hasLiquidityWarning := hasLiquidityWarn;
         OptionData.hasSpreadWarning := hasSpreadWarn;
         OptionData.hasStaleDataWarning := hasStaleDataWarn |}.

(** The body of [for (let i = 0; i < symbols.length; i++)], run on the
    symbols from index [i] on.  A failed request leaves the [try] block at
    once, so neither the accumulator nor the random source is touched. *)
Fixpoint searchLoop (h : Host) (options : SearchOptions.t) (length i : nat)
    (symbols : list string) (allOpportunities : list OptionData.t) : M (list OptionData.t) :=
  match symbols with
  | [] => ret allOpportunities
  | symbol :: symbols' =>
      (if SearchOptions.onProgress options
       then callProgress (mkProgress i length symbol) else ret tt) ;;;
      outcome <- request h symbol ;;
      match outcome with
      | FetchFailed => searchLoop h options length (S i) symbols' allOpportunities
      | FetchResults [] =>
          delay h ;;;
          searchLoop h options length (S i) symbols' allOpportunities
      | FetchResults (symbolData :: _) =>
          symbolOptions <-
            mapM (fun option =>
                    processOptionData h option (MarketData.price symbolData)
                      (MarketData.symbol symbolData))
                 (MarketData.options symbolData) ;;
          let filteredOptions :=
            filter (fun option =>
                      geb (OptionData.edge option) (SearchOptions.minEdge options) &&
                      geb (OptionData.volume option) (SearchOptions.minVolume options) &&
                      geb (OptionData.lastPrice option) (SearchOptions.minPrice options))
                   symbolOptions in
          delay h ;;;
          searchLoop h options length (S i) symbols' (allOpportunities ++ filteredOptions)
      end
  end.

Definition searchOptionsData (h : Host) (symbols : list string)
    (options : SearchOptions.t) : M (list OptionData.t) :=
  allOpportunities <- searchLoop h options (List.length symbols) 0 symbols [] ;;
  (if SearchOptions.onProgress options
   then callProgress (mkProgress (List.length symbols) (List.length symbols) "Complete")
   else ret tt) ;;;
  ret (Array_sort (fun a b => OptionData.edge b - OptionData.edge a) allOpportunities).

End FetchService.

(** ** Vocabulary of the statements *)

Import BlackScholes.

(** The polynomial in [t] that [normalCDF] multiplies with [exp (- x * x)]. *)
Definition tail_poly (t : R) : R :=
  (((((1.061405429 * t + -1.453152027) * t) + 1.421413741) * t + -0.284496736) * t
   + 0.254829592) * t.

(** By how much a result of [blackScholes] misses put-call parity. *)
Definition parityResidual (S K T r sigma : R) : R :=
  let b := blackScholes S K T r sigma in
  putPrice b - (callPrice b - S + K * exp (- r * T)).

(** The test both services apply to an analyzed contract. *)
Definition passes (options : SearchOptions.t) (option : OptionData.t) : bool :=
  geb (OptionData.edge option) (SearchOptions.minEdge options) &&
  geb (OptionData.volume option) (SearchOptions.minVolume options) &&
  geb (OptionData.lastPrice option) (SearchOptions.minPrice options).

(** The arguments [processOptionData] receives for the contracts of a symbol. *)
Definition contractsOf (symbolData : MarketData.t) : list (RawOptionData.t * R * string) :=
  map (fun option => (option, MarketData.price symbolData, MarketData.symbol symbolData))
      (MarketData.options symbolData).

(** The symbol is a name inherited from [Object.prototype]: the table-backed
    service throws when it comes to it. *)
Definition inheritedName (symbol : string) : bool :=
  match MockService.lookup MockService.MOCK_OPTIONS_DATA symbol with
  | Inherited => true
  | _ => false
  end.

Definition throwsOn (symbols : list string) : bool := existsb inheritedName symbols.

(** The symbols the loop of the table-backed service comes to: all of them,
    or those up to the first inherited name, that one included. *)
Fixpoint visited (symbols : list string) : list string :=
  match symbols with
  | [] => []
  | symbol :: symbols' =>
      if inheritedName symbol then [symbol] else symbol :: visited symbols'
  end.

(** The call throws exactly when [throws] says so, and what it returns
    otherwise satisfies [P]. *)
Definition returnsWith {A : Type} (throws : bool) (P : A -> Prop) (c : Completion A)
    : Prop :=
  match c with
  | Returned a => throws = false /\ P a
  | Threw => throws = true
  end.

(** The contracts of the symbols that the built-in table resolves, in input order. *)
Definition resolvedContracts (symbols : list string) : list (RawOptionData.t * R * string) :=
  flat_map (fun symbol =>
              match MockService.ownEntry MockService.MOCK_OPTIONS_DATA symbol with
              | Some symbolData => contractsOf symbolData
              | None => []
              end) symbols.

(** The record the table-backed service builds at the [n]-th reading of the clock. *)
Definition mockRecordAt (h : Host) (n : nat) (c : RawOptionData.t * R * string) : OptionData.t :=
  let '(rawOption, stockPrice, symbol) := c in
  fst (MockService.processOptionData h rawOption stockPrice symbol (mkState n 0 0 [])).

Fixpoint mockAnalyzeFrom (h : Host) (n : nat) (cs : list (RawOptionData.t * R * string))
    : list OptionData.t :=
  match cs with
  | [] => []
  | c :: cs' => mockRecordAt h n c :: mockAnalyzeFrom h (S n) cs'
  end.

(** The record the fetch-backed service builds at the [d]-th reading of the
    clock and the [u]-th random draw. *)
Definition fetchRecordAt (h : Host) (d u : nat) (c : RawOptionData.t * R * string)
    : OptionData.t :=
  let '(rawOption, stockPrice, ticker) := c in
  fst (FetchService.processOptionData h rawOption stockPrice ticker (mkState d u 0 [])).

Fixpoint fetchAnalyzeFrom (h : Host) (d u : nat) (cs : list (RawOptionData.t * R * string))
    : list OptionData.t :=
  match cs with
  | [] => []
  | c :: cs' => fetchRecordAt h d u c :: fetchAnalyzeFrom h (S d) (S u) cs'
  end.

(** The records of all contracts of the symbols whose request succeeds, for a
    run that starts with [d] clock readings, [u] draws and [q] requests behind it. *)
Fixpoint fetchAnalyzed (h : Host) (d u q : nat) (symbols : list string) : list OptionData.t :=
  match symbols with
  | [] => []
  | symbol :: symbols' =>
      match fetchOptions h q symbol with
      | FetchFailed => fetchAnalyzed h d u (S q) symbols'
      | FetchResults [] => fetchAnalyzed h d (S u) (S q) symbols'
      | FetchResults (symbolData :: _) =>
          let n := List.length (MarketData.options symbolData) in
          (fetchAnalyzeFrom h d u (contractsOf symbolData) ++
           fetchAnalyzed h (d + n) (S (u + n)) (S q) symbols')%list
      end
  end.

(** What is asked of a result [out], given the records [analyzed] of the run
    and the filter [options]: the same records with the same multiplicities
    as the analyzed ones that pass, no record that fails one of the three
    inclusive bounds, and edges that never increase. *)
Definition filteredAndRanked (options : SearchOptions.t)
    (analyzed out : list OptionData.t) : Prop :=
  Permutation out (filter (passes options) analyzed) /\
  (forall o : OptionData.t,
      In o out <->
      In o analyzed /\
      OptionData.edge o >= SearchOptions.minEdge options /\
      OptionData.volume o >= SearchOptions.minVolume options /\
      OptionData.lastPrice o >= SearchOptions.minPrice options) /\
  StronglySorted (fun a b => OptionData.edge a >= OptionData.edge b) out.

(** The calls of [onProgress] inside the loop, from index [i] on. *)
Fixpoint progressFrom (N i : nat) (symbols : list string) : list ProgressCall :=
  match symbols with
  | [] => []
  | symbol :: symbols' => mkProgress i N symbol :: progressFrom N (S i) symbols'
  end.

(** All calls of a run whose closing call carries the label [final]. *)
Definition progressCalls (final : string) (symbols : list string) : list ProgressCall :=
  (progressFrom (List.length symbols) 0 symbols ++
   [mkProgress (List.length symbols) (List.length symbols) final])%list.

Definition noCall : ProgressCall := mkProgress 0 0 "".

(** The classification by option kind alone. *)
Definition kindStrategy (optionType : OptionType) : StrategyType :=
  match optionType with
  | call => covered_call
  | put => cash_secured_put
  end.

Definition kindBased (o : OptionData.t) : Prop :=
  OptionData.strategyType o = kindStrategy (OptionData.optionType o).

Definition notStale (o : OptionData.t) : Prop :=
  OptionData.hasStaleDataWarning o = false.

(** [{ ...o, dataAge: a }] *)
Definition withDataAge (a : R) (o : OptionData.t) : OptionData.t :=
  {| OptionData.symbol := OptionData.symbol o;
     OptionData.ticker := OptionData.ticker o;
     OptionData.strike := OptionData.strike o;
     OptionData.expiration := OptionData.expiration o;
     OptionData.optionType := OptionData.optionType o;
     OptionData.lastPrice := OptionData.lastPrice o;
     OptionData.bid := OptionData.bid o;
     OptionData.ask := OptionData.ask o;
     OptionData.volume := OptionData.volume o;
     OptionData.openInterest := OptionData.openInterest o;
     OptionData.stockPrice := OptionData.stockPrice o;
     OptionData.timeToExpiration := OptionData.timeToExpiration o;
     OptionData.riskFreeRate := OptionData.riskFreeRate o;
     OptionData.impliedVolatility := OptionData.impliedVolatility o;
     OptionData.theoreticalPrice := OptionData.theoreticalPrice o;
     OptionData.edge := OptionData.edge o;
     OptionData.delta := OptionData.delta o;
     OptionData.gamma := OptionData.gamma o;
     OptionData.theta := OptionData.theta o;
     OptionData.vega := OptionData.vega o;
     OptionData.rho := OptionData.rho o;
     OptionData.moneyness := OptionData.moneyness o;
     OptionData.bidAskSpread := OptionData.bidAskSpread o;
     OptionData.bidAskSpreadPercent := OptionData.bidAskSpreadPercent o;
     OptionData.strategyType := OptionData.strategyType o;
     OptionData.breakevenPrice := OptionData.breakevenPrice o;
     OptionData.maxProfit := OptionData.maxProfit o;
     OptionData.collateralRequired := OptionData.collateralRequired o;
     OptionData.annualizedReturn := OptionData.annualizedReturn o;
     OptionData.assignmentProbability := OptionData.assignmentProbability o;
     OptionData.d1 := OptionData.d1 o;
     OptionData.d2 := OptionData.d2 o;
     OptionData.nd1 := OptionData.nd1 o;
     OptionData.nd2 := OptionData.nd2 o;
     OptionData.priceSource := OptionData.priceSource o;
     OptionData.dataAge := a;
     OptionData.hasLiquidityWarning := OptionData.hasLiquidityWarning o;
     OptionData.hasSpreadWarning := OptionData.hasSpreadWarning o;
     OptionData.hasStaleDataWarning := OptionData.hasStaleDataWarning o |}.

(** ** Sample hosts and contracts *)

Definition initialState : State := mkState 0 0 0 [].

(** Every expiration string denotes 2025-08-16T16:00:00-05:00 and the clock
    stands 788940 ms (0.000025 years of 365.25 days) before it;
    [Math.random()] gives 0, then 0.5; the server answers from the built-in
    table. *)
Definition closingHost : Host :=
  {| Date_parse := fun _ => 1755378000000;
     Date_now := fun _ => 1755378000000 - 788940;
     Math_random := fun k => match k with O => 0 | S _ => 0.5 end;
     fetchOptions := fun _ symbol =>
       match MockService.ownEntry MockService.MOCK_OPTIONS_DATA symbol with
       | Some symbolData => FetchResults [symbolData]
       | None => FetchFailed
       end |}.

(** The clock stands one day after that expiration; no request succeeds. *)
Definition dayAfterHost : Host :=
  {| Date_parse := fun _ => 1755378000000;
     Date_now := fun _ => 1755378000000 + 86400000;
     Math_random := fun _ => 0;
     fetchOptions := fun _ _ => FetchFailed |}.

(** The filter the page passes, with the default [minEdge] of 5. *)
Definition defaultOptions : SearchOptions.t :=
  {| SearchOptions.onProgress := true;
     SearchOptions.minEdge := 5;
     SearchOptions.minVolume := 1;
     SearchOptions.minPrice := 0.10 |}.

(** The same filter with [minEdge] set to the edge of the expired AAPL put. *)
Definition boundaryOptions : SearchOptions.t :=
  {| SearchOptions.onProgress := true;
     SearchOptions.minEdge := (6.25 - 4.5) / 4.5 * 100;
     SearchOptions.minVolume := 1;
     SearchOptions.minPrice := 0.10 |}.

(** The first contract of the built-in table. *)
Definition aaplCall : RawOptionData.t :=
  {| RawOptionData.contractSymbol := "AAPL240816C00180000";
     RawOptionData.strike := 180;
     RawOptionData.expiration := "2025-08-16";
     RawOptionData.optionType := call;
     RawOptionData.lastPrice := 8.45;
     RawOptionData.bid := 8.20;
     RawOptionData.ask := 8.70;
     RawOptionData.volume := 1250;
     RawOptionData.openInterest := 5420;
     RawOptionData.impliedVolatility := 0.28 |}.

(** The second contract of the built-in table. *)
Definition aaplPut : RawOptionData.t :=
  {| RawOptionData.contractSymbol := "AAPL240816P00190000";
     RawOptionData.strike := 190;
     RawOptionData.expiration := "2025-08-16";
     RawOptionData.optionType := put;
     RawOptionData.lastPrice := 6.25;
     RawOptionData.bid := 6.00;
     RawOptionData.ask := 6.50;
     RawOptionData.volume := 890;
     RawOptionData.openInterest := 3210;
     RawOptionData.impliedVolatility := 0.30 |}.

(** ** JavaScript strings

    A string is a sequence of ASCII characters; code units above 127, for
    which [trim], [\s] and [toUpperCase] follow the Unicode tables, are
    outside the model and are treated as ordinary characters. *)

(** The characters [\s] matches and [trim] removes: tab, line feed, vertical
    tab, form feed, carriage return and space. *)
Definition isWhiteSpace (c : ascii) : bool :=
  let n := nat_of_ascii c in
  ((9 <=? n)%nat && (n <=? 13)%nat) || (n =? 32)%nat.

Fixpoint trimStart (s : string) : string :=
  match s with
  | EmptyString => EmptyString
  | String c s' => if isWhiteSpace c then trimStart s' else s
  end.

Fixpoint trimEnd (s : string) : string :=
  match s with
  | EmptyString => EmptyString
  | String c s' =>
      match trimEnd s' with
      | EmptyString => if isWhiteSpace c then EmptyString else String c EmptyString
      | t => String c t
      end
  end.

(** [s.trim()] *)
Definition trim (s : string) : string := trimEnd (trimStart s).

Definition toUpperCaseChar (c : ascii) : ascii :=
  let n := nat_of_ascii c in
  if (97 <=? n)%nat && (n <=? 122)%nat then ascii_of_nat (n - 32) else c.

(** [s.toUpperCase()] *)
Fixpoint toUpperCase (s : string) : string :=
  match s with
  | EmptyString => EmptyString
  | String c s' => String (toUpperCaseChar c) (toUpperCase s')
  end.

(** [s.length === 0] *)
Definition isEmpty (s : string) : bool :=
  match s with
  | EmptyString => true
  | String _ _ => false
  end.

(** [new Set(values)] spread into an array: the values in the order of their
    first occurrence. *)
Definition setAdd (set : list string) (value : string) : list string :=
  if existsb (String.eqb value) set then set else (set ++ [value])%list.

Definition setOf (values : list string) : list string := fold_left setAdd values [].

(** [s.split(separator)] for a separator of one character. *)
Fixpoint splitOn (separator : ascii) (s : string) : list string :=
  match s with
  | EmptyString => [EmptyString]
  | String c s' =>
      if Ascii.eqb c separator then EmptyString :: splitOn separator s'
      else
        match splitOn separator s' with
        | piece :: pieces => String c piece :: pieces
        | [] => [String c EmptyString]
        end
  end.

(** ** utils/symbolParser.ts

    In this tree the parser is the second part of the file
    [utils/blackScholes.ts]. *)

Module SymbolParser.

(** The class [[,\s]] *)
Definition isSeparator (c : ascii) : bool := Ascii.eqb c "," || isWhiteSpace c.

(** [input.split(/[,\s]+/)], read from left to right; [inRun] tells that the
    character before was a separator.  A run of separators ends the piece in
    progress once; a run at the start or at the end of the input leaves an
    empty piece there. *)
Fixpoint splitFrom (inRun : bool) (input : string) : list string :=
  match input with
  | EmptyString => [EmptyString]
  | String c input' =>
      if isSeparator c then
        if inRun then splitFrom true input' else EmptyString :: splitFrom true input'
      else
        match splitFrom false input' with
        | piece :: pieces => String c piece :: pieces
        | [] => [String c EmptyString]
        end
  end.

Definition split (input : string) : list string := splitFrom false input.

Definition isUpperLetter (c : ascii) : bool :=
  let n := nat_of_ascii c in (65 <=? n)%nat && (n <=? 90)%nat.

Fixpoint allUpperLetters (s : string) : bool :=
  match s with
  | EmptyString => true
  | String c s' => isUpperLetter c && allUpperLetters s'
  end.

(** [/^[A-Z]{1,5}$/.test(s)] *)
Definition matchesTicker (s : string) : bool :=
  (1 <=? String.length s)%nat && (String.length s <=? 5)%nat && allUpperLetters s.

Definition parseSymbols (input : string) : list string :=
  if isEmpty (trim input) then []
  else
    let symbols :=
      filter (fun symbol => (0 <? String.length symbol)%nat && matchesTicker symbol)
        (map (fun symbol => toUpperCase (trim symbol)) (split input)) in
    setOf symbols.

Definition isValidSymbol (symbol : string) : bool := matchesTicker (toUpperCase symbol).

Definition formatSymbolsForDisplay (symbols : list string) : string :=
  String.concat ", " symbols.

End SymbolParser.

Import SymbolParser.

(** ** More vocabulary of the statements *)

(** The part of [normalCDF] that depends on the size of its argument only:
    [y] as a function of [Math.abs(x) / Math.sqrt(2.0)]. *)
Definition tailValue (u : R) : R :=
  1 - tail_poly (1 / (1 + 0.3275911 * u)) * exp (- u * u).

(** No character of [s] is a separator. *)
Fixpoint noSeparator (s : string) : bool :=
  match s with
  | EmptyString => true
  | String c s' => negb (isSeparator c) && noSeparator s'
  end.

(** [t] put in front of the first piece of [pieces]. *)
Definition prependPiece (t : string) (pieces : list string) : list string :=
  match pieces with
  | piece :: pieces' => (t ++ piece) :: pieces'
  | [] => [t]
  end.

(** Every character of [s] is white space. *)
Fixpoint allWhiteSpace (s : string) : bool :=
  match s with
  | EmptyString => true
  | String c s' => isWhiteSpace c && allWhiteSpace s'
  end.

(** The pieces of a split that [parseSymbols] keeps. *)
Definition tickersAmong (pieces : list string) : list string :=
  filter (fun symbol => (0 <? String.length symbol)%nat && matchesTicker symbol)
    (map (fun symbol => toUpperCase (trim symbol)) pieces).

(** ** The rest of types/options.ts *)

Module SearchResults.
Record t : Type := mk {
  opportunities : list OptionData.t;
  isLoading : bool;
  currentSymbol : string;
  progress : R;
  error : option string
}.
End SearchResults.

(** ['all' | 'calls' | 'puts'] *)
Inductive OptionTypeFilter : Type := all_types | calls | puts.

(** ['all' | 'covered-calls' | 'cash-secured-puts'] *)
Inductive StrategyFilter : Type := all_strategies | covered_calls | cash_secured_puts.

Definition StrategyType_eqb (a b : StrategyType) : bool :=
  match a, b with
  | covered_call, covered_call
  | cash_secured_put, cash_secured_put
  | speculative, speculative => true
  | _, _ => false
  end.

(** ** components/OptionsTable.tsx *)

Module OptionsTable.

Record Props : Type := mkProps {
  opportunities : list OptionData.t;
  sortBy : string;
  minEdge : R;
  optionTypeFilter : OptionTypeFilter;
  strategyFilter : StrategyFilter;
  isLoading : bool
}.

(** The comparison function handed to [sort].  [localeCompare] stands for
    [String.prototype.localeCompare], which depends on the locale of the
    browser. *)
Definition compareRows (h : Host) (localeCompare : string -> string -> R)
    (sortBy : string) (a b : OptionData.t) : R :=
  if String.eqb sortBy "edge" then OptionData.edge b - OptionData.edge a
  else if String.eqb sortBy "volume" then OptionData.volume b - OptionData.volume a
  else if String.eqb sortBy "premium" then OptionData.lastPrice b - OptionData.lastPrice a
  else if String.eqb sortBy "expiration" then
    Date_parse h (OptionData.expiration a) - Date_parse h (OptionData.expiration b)
  else if String.eqb sortBy "ticker" then
    localeCompare (OptionData.ticker a) (OptionData.ticker b)
  else if String.eqb sortBy "calls" then
    if negb (OptionType_eqb (OptionData.optionType a) (OptionData.optionType b)) then
      if OptionType_eqb (OptionData.optionType a) call then -1 else 1
    else OptionData.edge b - OptionData.edge a
  else if String.eqb sortBy "puts" then
    if negb (OptionType_eqb (OptionData.optionType a) (OptionData.optionType b)) then
      if OptionType_eqb (OptionData.optionType a) put then -1 else 1
    else OptionData.edge b - OptionData.edge a
  else if String.eqb sortBy "covered-calls" then
    if negb (StrategyType_eqb (OptionData.strategyType a) (OptionData.strategyType b)) then
      if StrategyType_eqb (OptionData.strategyType a) covered_call then -1 else 1
    else OptionData.edge b - OptionData.edge a
  else if String.eqb sortBy "cash-secured-puts" then
    if negb (StrategyType_eqb (OptionData.strategyType a) (OptionData.strategyType b)) then
      if StrategyType_eqb (OptionData.strategyType a) cash_secured_put then -1 else 1
    else OptionData.edge b - OptionData.edge a
  else if String.eqb sortBy "annual-return" then
    OptionData.annualizedReturn b - OptionData.annualizedReturn a
  else if String.eqb sortBy "delta" then
    Rabs (OptionData.delta b) - Rabs (OptionData.delta a)
  else OptionData.edge b - OptionData.edge a.

Definition sortedOpportunities (h : Host) (localeCompare : string -> string -> R)
    (props : Props) : list OptionData.t :=
  let filtered :=
    filter (fun opt => geb (OptionData.edge opt) (minEdge props)) (opportunities props) in
  let filtered :=
    match optionTypeFilter props with
    | calls => filter (fun opt => OptionType_eqb (OptionData.optionType opt) call) filtered
    | puts => filter (fun opt => OptionType_eqb (OptionData.optionType opt) put) filtered
    | all_types => filtered
    end in
  let filtered :=
    match strategyFilter props with
    | covered_calls =>
        filter (fun opt => StrategyType_eqb (OptionData.strategyType opt) covered_call)
          filtered
    | cash_secured_puts =>
        filter (fun opt => StrategyType_eqb (OptionData.strategyType opt) cash_secured_put)
          filtered
    | all_strategies => filtered
    end in
  Array_sort (compareRows h localeCompare (sortBy props)) filtered.

End OptionsTable.

(** ** components/OptionsAnalytics.tsx

    In this tree: the second part of [unnamed/part_002]. *)

Module OptionsAnalytics.

Inductive ConnectionStatus : Type := connected | disconnected | error.

(** The state variables of the component. *)
Record PageState : Type := mkPage {
  searchResults : SearchResults.t;
  searchHistory : list string;
  sortBy : string;
  minEdge : R;
  optionTypeFilter : OptionTypeFilter;
  strategyFilter : StrategyFilter;
  connectionStatus : ConnectionStatus
}.

(** The initial values given to [useState]. *)
Definition initialPage : PageState :=
  mkPage (SearchResults.mk [] false "" 0 None) [] "edge" 5 all_types all_strategies connected.

(** The setters [useState] gives. *)
Definition setSearchResults (value : SearchResults.t) (page : PageState) : PageState :=
  mkPage value (searchHistory page) (sortBy page) (minEdge page)
    (optionTypeFilter page) (strategyFilter page) (connectionStatus page).

Definition setSearchHistory (value : list string) (page : PageState) : PageState :=
  mkPage (searchResults page) value (sortBy page) (minEdge page)
    (optionTypeFilter page) (strategyFilter page) (connectionStatus page).

Definition setSortBy (value : string) (page : PageState) : PageState :=
  mkPage (searchResults page) (searchHistory page) value (minEdge page)
    (optionTypeFilter page) (strategyFilter page) (connectionStatus page).

Definition setMinEdge (value : R) (page : PageState) : PageState :=
  mkPage (searchResults page) (searchHistory page) (sortBy page) value
    (optionTypeFilter page) (strategyFilter page) (connectionStatus page).

Definition setOptionTypeFilter (value : OptionTypeFilter) (page : PageState) : PageState :=
  mkPage (searchResults page) (searchHistory page) (sortBy page) (minEdge page)
    value (strategyFilter page) (connectionStatus page).

Definition setStrategyFilter (value : StrategyFilter) (page : PageState) : PageState :=
  mkPage (searchResults page) (searchHistory page) (sortBy page) (minEdge page)
    (optionTypeFilter page) value (connectionStatus page).

Definition setConnectionStatus (value : ConnectionStatus) (page : PageState) : PageState :=
  mkPage (searchResults page) (searchHistory page) (sortBy page) (minEdge page)
    (optionTypeFilter page) (strategyFilter page) value.

(** The module imported as ['../services/optionsService']: a call of its
    [searchOptionsData] settles with a list or rejects. *)
Definition Service : Type :=
  Host -> list string -> SearchOptions.t -> M (Completion (list OptionData.t)).

(** The [message] of the [TypeError] that reading [map] of [undefined]
    raises, in the words of V8; other engines word it differently. *)
Definition TypeError_message : string :=
  "Cannot read properties of undefined (reading 'map')".

(** What the [onProgress] callback of [handleSearch] computes from a call:
    [progress] and [currentSymbol].  For [total = 0] the quotient is not a
    number in JavaScript; the statements about it take [total > 0]. *)
Definition progressShown (c : ProgressCall) : R * string :=
  (INR (current c) / INR (total c) * 100, label c).

(** The [onProgress] callback of [handleSearch]:
    [setSearchResults(prev => ({...prev, progress, currentSymbol}))]. *)
Definition onProgress (c : ProgressCall) (page : PageState) : PageState :=
  let prev := searchResults page in
  setSearchResults
    (SearchResults.mk (SearchResults.opportunities prev) (SearchResults.isLoading prev)
       (snd (progressShown c)) (fst (progressShown c)) (SearchResults.error prev))
    page.

(** A call of [handleSearch] that waits at its [await]: the calls of
    [onProgress] the service has still to make, and how its promise settles.
    The options of the call, with the [minEdge] of the moment of the call,
    went into the run of the service. *)
Record Pending : Type := mkPending {
  remaining : list ProgressCall;
  settles : Completion (list OptionData.t)
}.

(** [handleSearch] up to its [await].  The answers the host gives the
    service do not depend on what happens on the page meanwhile, so the run
    of the service is computed here; what the page sees of it, call by call,
    is kept in the [Pending]. *)
Definition handleSearch (searchOptionsData : Service) (h : Host) (query : string)
    (page : PageState) : M (PageState * option Pending) :=
  if isEmpty (trim query) then ret (page, None)
  else
    let symbols := parseSymbols query in
    let started :=
      setSearchResults (SearchResults.mk [] true "" 0 None)
        (setSearchHistory
           (firstn 5 (query :: filter (fun item => negb (String.eqb item query))
                                 (searchHistory page)))
           page) in
    fun st =>
      let (completion, st') :=
        searchOptionsData h symbols (SearchOptions.mk true (minEdge page) 1 0.10) st in
      ((started,
        Some (mkPending (skipn (List.length (progressLog st)) (progressLog st')) completion)),
       st').

(** [handleSearch] from its [await] on, run on the state of the page at that
    moment: the lines after the [await] when the promise is fulfilled, the
    [catch] block when it is rejected. *)
Definition settle (completion : Completion (list OptionData.t)) (page : PageState)
    : PageState :=
  match completion with
  | Returned results =>
      setConnectionStatus connected
        (setSearchResults (SearchResults.mk results false "" 100 None) page)
  | Threw =>
      let prev := searchResults page in
      setConnectionStatus error
        (setSearchResults
           (SearchResults.mk (SearchResults.opportunities prev) false
              (SearchResults.currentSymbol prev) (SearchResults.progress prev)
              (Some TypeError_message))
           page)
  end.

Definition getFilteredOpportunities (page : PageState) : list OptionData.t :=
  let filtered :=
    filter (fun opt => geb (OptionData.edge opt) (minEdge page))
      (SearchResults.opportunities (searchResults page)) in
  let filtered :=
    match optionTypeFilter page with
    | calls => filter (fun opt => OptionType_eqb (OptionData.optionType opt) call) filtered
    | puts => filter (fun opt => OptionType_eqb (OptionData.optionType opt) put) filtered
    | all_types => filtered
    end in
  let filtered :=
    match strategyFilter page with
    | covered_calls =>
        filter (fun opt => StrategyType_eqb (OptionData.strategyType opt) covered_call)
          filtered
    | cash_secured_puts =>
        filter (fun opt => StrategyType_eqb (OptionData.strategyType opt) cash_secured_put)
          filtered
    | all_strategies => filtered
    end in
  filtered.

(** [Math.max(...values)] for a list that is not empty. *)
Definition Math_max (first : R) (others : list R) : R := fold_left Rmax others first.

(** The number under "Best Edge", before [toFixed(1)] formats it. *)
Definition bestEdge (page : PageState) : R :=
  match map OptionData.edge (getFilteredOpportunities page) with
  | [] => 0
  | first :: others => Math_max first others
  end.

(** The props the component hands to [OptionsTable]. *)
Definition tableProps (page : PageState) : OptionsTable.Props :=
  OptionsTable.mkProps (SearchResults.opportunities (searchResults page)) (sortBy page)
    (minEdge page) (optionTypeFilter page) (strategyFilter page)
    (SearchResults.isLoading (searchResults page)).

(** The page and the search it waits for, if it waits for one. *)
Record Config : Type := mkConfig {
  shownPage : PageState;
  pending : option Pending
}.

Definition initialConfig : Config := mkConfig initialPage None.

(** What happens to the page.  The search bar calls [onSearch]; the service
    makes its next call of [onProgress] or, with none left, its promise
    settles; the user changes one of the four selections, which stay enabled
    while a search runs. *)
Inductive Event : Type :=
| Search (query : string)
| Advance
| SetMinEdge (value : R)
| SetSortBy (value : string)
| SetOptionTypeFilter (value : OptionTypeFilter)
| SetStrategyFilter (value : StrategyFilter).

(** The search bar calls [onSearch] only while [isLoading] is false: its
    [handleSubmit] tests it, its input and its quick-search buttons are
    disabled by it, and its history list opens on focusing the input only and
    is closed by every search.  A [Search] while the page is loading is
    therefore no event of the page and changes nothing. *)
Definition handle (searchOptionsData : Service) (h : Host) (e : Event) (c : Config)
    : M Config :=
  match e with
  | Search query =>
      if SearchResults.isLoading (searchResults (shownPage c)) then ret c
      else
        started <- handleSearch searchOptionsData h query (shownPage c) ;;
        ret (match snd started with
             | Some p => mkConfig (fst started) (Some p)
             | None => mkConfig (fst started) (pending c)
             end)
  | Advance =>
      match pending c with
      | None => ret c
      | Some (mkPending (next :: remaining') settles') =>
          ret (mkConfig (onProgress next (shownPage c)) (Some (mkPending remaining' settles')))
      | Some (mkPending [] settles') => ret (mkConfig (settle settles' (shownPage c)) None)
      end
  | SetMinEdge value => ret (mkConfig (setMinEdge value (shownPage c)) (pending c))
  | SetSortBy value => ret (mkConfig (setSortBy value (shownPage c)) (pending c))
  | SetOptionTypeFilter value =>
      ret (mkConfig (setOptionTypeFilter value (shownPage c)) (pending c))
  | SetStrategyFilter value =>
      ret (mkConfig (setStrategyFilter value (shownPage c)) (pending c))
  end.

Fixpoint session (searchOptionsData : Service) (h : Host) (events : list Event)
    (c : Config) : M Config :=
  match events with
  | [] => ret c
  | e :: events' =>
      c' <- handle searchOptionsData h e c ;;
      session searchOptionsData h events' c'
  end.

End OptionsAnalytics.

(** ** Vocabulary of the statements about the page *)

(** The two services as the page imports them; the fetch-backed one catches
    what its requests throw and always returns. *)
Definition mockService : OptionsAnalytics.Service := MockService.searchOptionsData.

Definition fetchService : OptionsAnalytics.Service :=
  fun h symbols options =>
    out <- FetchService.searchOptionsData h symbols options ;; ret (Returned out).

(** The state of a search history: no entry twice, at most five entries, no
    blank entry. *)
Definition historyOk (history : list string) : Prop :=
  NoDup history /\ (List.length history <= 5)%nat /\
  Forall (fun query => isEmpty (trim query) = false) history.

(** What the selections of the page let through. *)
Definition selected (minEdge : R) (optionTypeFilter : OptionTypeFilter)
    (strategyFilter : StrategyFilter) (o : OptionData.t) : Prop :=
  OptionData.edge o >= minEdge /\
  (optionTypeFilter = calls -> OptionData.optionType o = call) /\
  (optionTypeFilter = puts -> OptionData.optionType o = put) /\
  (strategyFilter = covered_calls -> OptionData.strategyType o = covered_call) /\
  (strategyFilter = cash_secured_puts -> OptionData.strategyType o = cash_secured_put).

(** The rows a value of [sortBy] puts first: the calls, the puts, the
    covered calls or the cash-secured puts; all rows for the other values. *)
Definition inFirstGroup (sortBy : string) (o : OptionData.t) : bool :=
  if String.eqb sortBy "calls" then OptionType_eqb (OptionData.optionType o) call
  else if String.eqb sortBy "puts" then OptionType_eqb (OptionData.optionType o) put
  else if String.eqb sortBy "covered-calls" then
    StrategyType_eqb (OptionData.strategyType o) covered_call
  else if String.eqb sortBy "cash-secured-puts" then
    StrategyType_eqb (OptionData.strategyType o) cash_secured_put
  else true.

(** The number by which a value of [sortBy] ranks the rows of a group,
    largest first. *)
Definition rankOf (h : Host) (sortBy : string) (o : OptionData.t) : R :=
  if String.eqb sortBy "volume" then OptionData.volume o
  else if String.eqb sortBy "premium" then OptionData.lastPrice o
  else if String.eqb sortBy "expiration" then - Date_parse h (OptionData.expiration o)
  else if String.eqb sortBy "annual-return" then OptionData.annualizedReturn o
  else if String.eqb sortBy "delta" then Rabs (OptionData.delta o)
  else OptionData.edge o.

(** Row [a] may stand before row [b]. *)
Definition mayPrecede (h : Host) (sortBy : string) (a b : OptionData.t) : Prop :=
  (inFirstGroup sortBy a = true /\ inFirstGroup sortBy b = false) \/
  (inFirstGroup sortBy a = inFirstGroup sortBy b /\ rankOf h sortBy a >= rankOf h sortBy b).

(** The strategy is one of the two of the declared type. *)
Definition declaredStrategy (o : OptionData.t) : Prop :=
  OptionData.strategyType o <> speculative.

(** The settings of the progress bar for a search over [N] symbols: one per
    symbol and one at the end, the [k]-th at [k / N] of 100. *)
Definition progressSteps (N : nat) (shown : list (R * string)) : Prop :=
  List.length shown = S N /\
  (forall k, (k <= N)%nat -> fst (nth k shown (0, "")) = INR k / INR N * 100) /\
  (forall k, (k <= N)%nat -> 0 <= fst (nth k shown (0, "")) <= 100) /\
  (forall k, (k < N)%nat -> fst (nth k shown (0, "")) < fst (nth (S k) shown (0, ""))) /\
  fst (nth N shown (0, "")) = 100.

(** The rows of the table are within the bounds the page searches with. *)
Definition rowsWithin (page : OptionsAnalytics.PageState) (rows : list OptionData.t)
    : Prop :=
  Forall (fun o => OptionData.edge o >= OptionsAnalytics.minEdge page /\
                   OptionData.volume o >= 1 /\ OptionData.lastPrice o >= 0.10) rows.


(** What holds of the page and of the search it waits for. *)
Definition pageOk (c : OptionsAnalytics.Config) : Prop :=
  let results := OptionsAnalytics.searchResults (OptionsAnalytics.shownPage c) in
  (SearchResults.isLoading results = true <-> OptionsAnalytics.pending c <> None) /\
  (SearchResults.isLoading results = true -> SearchResults.opportunities results = []) /\
  SearchResults.error results = None /\
  OptionsAnalytics.connectionStatus (OptionsAnalytics.shownPage c) = OptionsAnalytics.connected /\
  Forall (fun o => OptionData.volume o >= 1 /\ OptionData.lastPrice o >= 0.10)
    (SearchResults.opportunities results) /\
  (forall waits, OptionsAnalytics.pending c = Some waits ->
     exists found, OptionsAnalytics.settles waits = Returned found /\
       Forall (fun o => OptionData.volume o >= 1 /\ OptionData.lastPrice o >= 0.10) found).

(** ** components/SearchBar.tsx

    In this tree: the first part of [unnamed/part_002]. *)

Module SearchBar.

(** The state variables of the component. *)
Record BarState : Type := mkBar {
  query : string;
  showHistory : bool
}.

(** [onSearch] is the [handleSearch] of the page, which the bar calls and
    does not wait for; [None] tells that it was not called. *)
Definition handleSubmit {T : Type} (onSearch : string -> M T) (isLoading : bool)
    (bar : BarState) : M (BarState * option T) :=
  if negb (isEmpty (trim (query bar))) && negb isLoading then
    started <- onSearch (trim (query bar)) ;;
    ret (mkBar (query bar) false, Some started)
  else ret (bar, None).

Definition handleHistoryClick {T : Type} (onSearch : string -> M T)
    (historyItem : string) (bar : BarState) : M (BarState * T) :=
  started <- onSearch historyItem ;;
  ret (mkBar historyItem false, started).

Definition handleInputChange (value : string) (bar : BarState) : BarState :=
  mkBar value (showHistory bar).

Definition handleInputFocus (searchHistory : list string) (bar : BarState) : BarState :=
  if (0 <? List.length searchHistory)%nat then mkBar (query bar) true else bar.

(** The symbols of the preview under the input field. *)
Definition parsedSymbols (bar : BarState) : list string := parseSymbols (query bar).

Definition isValidInput (bar : BarState) : bool :=
  (0 <? List.length (parsedSymbols bar))%nat.

End SearchBar.

(** ** api/options/route.ts *)

Module Route.

(** The table of the route.  [getNextFriday weeksOut] is read off the clock
    of the server when the module is loaded; it is an argument here.  The
    keys are looked up after [toUpperCase], so no name inherited from
    [Object.prototype], all of which hold a small letter, is ever asked for. *)
Definition MOCK_OPTIONS_DATA (getNextFriday : nat -> string)
    : list (string * MarketData.t) :=
  [ ("AAPL",
     {| MarketData.symbol := "AAPL";
        MarketData.price := 185.50;
        MarketData.options :=
          [ {| RawOptionData.contractSymbol := "AAPL250207C00180000";
               RawOptionData.strike := 180;
               RawOptionData.expiration := getNextFriday 1%nat;
               RawOptionData.optionType := call;
               RawOptionData.lastPrice := 8.50;
               RawOptionData.bid := 8.20;
               RawOptionData.ask := 8.80;
               RawOptionData.volume := 150;
               RawOptionData.openInterest := 1200;
               RawOptionData.impliedVolatility := 0.25 |};
            {| RawOptionData.contractSymbol := "AAPL250214C00190000";
               RawOptionData.strike := 190;
               RawOptionData.expiration := getNextFriday 2%nat;
               RawOptionData.optionType := call;
               RawOptionData.lastPrice := 3.20;
               RawOptionData.bid := 3.00;
               RawOptionData.ask := 3.40;
               RawOptionData.volume := 75;
               RawOptionData.openInterest := 800;
               RawOptionData.impliedVolatility := 0.28 |};
            {| RawOptionData.contractSymbol := "AAPL250207P00175000";
               RawOptionData.strike := 175;
               RawOptionData.expiration := getNextFriday 1%nat;
               RawOptionData.optionType := put;
               RawOptionData.lastPrice := 2.80;
               RawOptionData.bid := 2.60;
               RawOptionData.ask := 3.00;
               RawOptionData.volume := 45;
               RawOptionData.openInterest := 600;
               RawOptionData.impliedVolatility := 0.26 |};
            {| RawOptionData.contractSymbol := "AAPL250321C00185000";
               RawOptionData.strike := 185;
               RawOptionData.expiration := getNextFriday 8%nat;
               RawOptionData.optionType := call;
               RawOptionData.lastPrice := 12.75;
               RawOptionData.bid := 12.50;
               RawOptionData.ask := 13.00;
               RawOptionData.volume := 89;
               RawOptionData.openInterest := 950;
               RawOptionData.impliedVolatility := 0.22 |} ] |});
    ("MSFT",
     {| MarketData.symbol := "MSFT";
        MarketData.price := 420.75;
        MarketData.options :=
          [ {| RawOptionData.contractSymbol := "MSFT250207C00415000";
               RawOptionData.strike := 415;
               RawOptionData.expiration := getNextFriday 1%nat;
               RawOptionData.optionType := call;
               RawOptionData.lastPrice := 12.50;
               RawOptionData.bid := 12.00;
               RawOptionData.ask := 13.00;
               RawOptionData.volume := 200;
               RawOptionData.openInterest := 1500;
               RawOptionData.impliedVolatility := 0.22 |};
            {| RawOptionData.contractSymbol := "MSFT250214P00420000";
               RawOptionData.strike := 420;
               RawOptionData.expiration := getNextFriday 2%nat;
               RawOptionData.optionType := put;
               RawOptionData.lastPrice := 8.75;
               RawOptionData.bid := 8.50;
               RawOptionData.ask := 9.00;
               RawOptionData.volume := 120;
               RawOptionData.openInterest := 900;
               RawOptionData.impliedVolatility := 0.24 |};
            {| RawOptionData.contractSymbol := "MSFT250321C00425000";
               RawOptionData.strike := 425;
               RawOptionData.expiration := getNextFriday 8%nat;
               RawOptionData.optionType := call;
               RawOptionData.lastPrice := 15.25;
               RawOptionData.bid := 15.00;
               RawOptionData.ask := 15.50;
               RawOptionData.volume := 167;
               RawOptionData.openInterest := 1100;
               RawOptionData.impliedVolatility := 0.21 |} ] |});
    ("NVDA",
     {| MarketData.symbol := "NVDA";
        MarketData.price := 128.45;
        MarketData.options :=
          [ {| RawOptionData.contractSymbol := "NVDA250207C00125000";
               RawOptionData.strike := 125;
               RawOptionData.expiration := getNextFriday 1%nat;
               RawOptionData.optionType := call;
               RawOptionData.lastPrice := 6.80;
               RawOptionData.bid := 6.60;
               RawOptionData.ask := 7.00;
               RawOptionData.volume := 325;
               RawOptionData.openInterest := 2100;
               RawOptionData.impliedVolatility := 0.35 |};
            {| RawOptionData.contractSymbol := "NVDA250214P00130000";
               RawOptionData.strike := 130;
               RawOptionData.expiration := getNextFriday 2%nat;
               RawOptionData.optionType := put;
               RawOptionData.lastPrice := 4.25;
               RawOptionData.bid := 4.10;
               RawOptionData.ask := 4.40;
               RawOptionData.volume := 198;
               RawOptionData.openInterest := 1650;
               RawOptionData.impliedVolatility := 0.33 |} ] |});
    ("TSLA",
     {| MarketData.symbol := "TSLA";
        MarketData.price := 248.50;
        MarketData.options :=
          [ {| RawOptionData.contractSymbol := "TSLA250207C00245000";
               RawOptionData.strike := 245;
               RawOptionData.expiration := getNextFriday 1%nat;
               RawOptionData.optionType := call;
               RawOptionData.lastPrice := 9.75;
               RawOptionData.bid := 9.50;
               RawOptionData.ask := 10.00;
               RawOptionData.volume := 145;
               RawOptionData.openInterest := 890;
               RawOptionData.impliedVolatility := 0.42 |};
            {| RawOptionData.contractSymbol := "TSLA250214P00250000";
               RawOptionData.strike := 250;
               RawOptionData.expiration := getNextFriday 2%nat;
               RawOptionData.optionType := put;
               RawOptionData.lastPrice := 7.30;
               RawOptionData.bid := 7.10;
               RawOptionData.ask := 7.50;
               RawOptionData.volume := 87;
               RawOptionData.openInterest := 675;
               RawOptionData.impliedVolatility := 0.40 |} ] |});
    ("GOOGL",
     {| MarketData.symbol := "GOOGL";
        MarketData.price := 162.85;
        MarketData.options :=
          [ {| RawOptionData.contractSymbol := "GOOGL250207C00160000";
               RawOptionData.strike := 160;
               RawOptionData.expiration := getNextFriday 1%nat;
               RawOptionData.optionType := call;
               RawOptionData.lastPrice := 5.40;
               RawOptionData.bid := 5.20;
               RawOptionData.ask := 5.60;
               RawOptionData.volume := 112;
               RawOptionData.openInterest := 780;
               RawOptionData.impliedVolatility := 0.28 |};
            {| RawOptionData.contractSymbol := "GOOGL250214P00165000";
               RawOptionData.strike := 165;
               RawOptionData.expiration := getNextFriday 2%nat;
               RawOptionData.optionType := put;
               RawOptionData.lastPrice := 4.85;
               RawOptionData.bid := 4.70;
               RawOptionData.ask := 5.00;
               RawOptionData.volume := 94;
               RawOptionData.openInterest := 620;
               RawOptionData.impliedVolatility := 0.30 |} ] |}) ].

(** What [NextResponse.json] is given: the body, with status 200, or an
    error message and a status. *)
Inductive Response : Type :=
| Json (results : list MarketData.t)
| JsonError (error : string) (status : nat).

(** [for (const symbol of symbolList)] with its [results.push(data)] *)
Fixpoint collect (table : list (string * MarketData.t)) (symbolList : list string)
    (results : list MarketData.t) : list MarketData.t :=
  match symbolList with
  | [] => results
  | symbol :: symbolList' =>
      match MockService.ownEntry table symbol with
      | Some data => collect table symbolList' (results ++ [data])%list
      | None => collect table symbolList' results
      end
  end.

(** [GET], given [searchParams.get('symbols')]; [None] stands for [null]. *)
Definition GET (h : Host) (getNextFriday : nat -> string) (symbols : option string)
    : M Response :=
  match symbols with
  | None => ret (JsonError "No symbols provided" 400%nat)
  | Some symbols =>
      if isEmpty symbols then ret (JsonError "No symbols provided" 400%nat)
      else
        let symbolList := map (fun s => toUpperCase (trim s)) (splitOn "," symbols) in
        delay h ;;;
        let results := collect (MOCK_OPTIONS_DATA getNextFriday) symbolList [] in
        if (List.length results =? 0)%nat then
          ret (JsonError ("No data found for symbols: " ++ String.concat ", " symbolList) 404%nat)
        else ret (Json results)
  end.

End Route.

(** The symbols the route has data for. *)
Definition routeSymbols : list string := ["AAPL"; "MSFT"; "NVDA"; "TSLA"; "GOOGL"].

(** The pieces of the [symbols] parameter as the route looks them up. *)
Definition requested (symbols : string) : list string :=
  map (fun s => toUpperCase (trim s)) (splitOn "," symbols).

(** What [fetch('/api/options?symbols=' + symbol)] and the checks after it
    come to when the request reaches [GET] with its query string, for a
    [symbol] that the URL carries unchanged: the parsed array for status
    200, an exception otherwise.  [k] is the number of draws the server has
    made. *)
Definition routeAnswer (server : Host) (getNextFriday : nat -> string) (k : nat)
    (symbol : string) : FetchOutcome :=
  match fst (Route.GET server getNextFriday (Some symbol) (mkState 0 k 0 [])) with
  | Route.Json results => FetchResults results
  | Route.JsonError _ _ => FetchFailed
  end.

(** A browser whose requests are answered by the route. *)
Definition routeClient (client server : Host) (getNextFriday : nat -> string) : Host :=
  {| Date_parse := Date_parse client;
     Date_now := Date_now client;
     Math_random := Math_random client;
     fetchOptions := routeAnswer server getNextFriday |}.

(** The dates a server started in the week before 2025-08-16 gives. *)
Definition augustFridays (weeksOut : nat) : string :=
  match weeksOut with
  | 1%nat => "2025-08-22"
  | 2%nat => "2025-08-29"
  | 8%nat => "2025-10-10"
  | _ => "2025-08-15"
  end.

(** * Properties *)

(** Settles the comparisons of constants that stand in the goal. *)
Ltac decide_comparisons :=
  repeat match goal with
         | |- context [Rle_dec ?a ?b] => destruct (Rle_dec a b); try lra
         | |- context [Rgt_dec ?a ?b] => destruct (Rgt_dec a b); try lra
         | |- context [Rlt_dec ?a ?b] => destruct (Rlt_dec a b); try lra
         end.

Lemma geb_true (a b : R) : geb a b = true <-> a >= b.
Proof. unfold geb. destruct (Rge_dec a b); split; intros; try discriminate; tauto. Qed.

Lemma ltb_true (a b : R) : a < b -> ltb a b = true.
Proof. intros H. unfold ltb. destruct (Rlt_dec a b); [reflexivity | contradiction]. Qed.

Lemma gtb_true (a b : R) : a > b -> gtb a b = true.
Proof. intros H. unfold gtb. destruct (Rgt_dec a b); [reflexivity | contradiction]. Qed.

Lemma gtb_false (a b : R) : a <= b -> gtb a b = false.
Proof. intros H. unfold gtb. destruct (Rgt_dec a b); [lra | reflexivity]. Qed.

(** ** The normal distribution function *)

Lemma tail_poly_bounds (t : R) : 0 <= t <= 1 -> 0 <= tail_poly t <= 0.999999999.
Proof.
  intros Ht. unfold tail_poly. split.
  - apply Rmult_le_pos; [nra | lra].
  - assert (Hr : 0 <= 0.999999999 + 0.745170407 * t + 1.029667143 * (t * t)
                      - 0.391746598 * (t * t * t) + 1.061405429 * (t * t * t * t)).
    { assert (0 <= t * t) by nra.
      assert (t * t * t <= t * t) by nra.
      assert (0 <= t * t * t * t) by nra.
      lra. }
    apply Rminus_le.
    match goal with
    | |- ?a - ?b <= 0 =>
        replace (a - b)
          with (- ((1 - t) * (0.999999999 + 0.745170407 * t + 1.029667143 * (t * t)
                              - 0.391746598 * (t * t * t)
                              + 1.061405429 * (t * t * t * t)))) by lra
    end.
    nra.
Qed.

Lemma normalCDF_unfold (x : R) :
  normalCDF x =
  0.5 * (1 + (if Rlt_dec x 0 then -1 else 1) *
             (1 - tail_poly (1 / (1 + 0.3275911 * (Rabs x / sqrt 2))) *
                  exp (- (Rabs x / sqrt 2) * (Rabs x / sqrt 2)))).
Proof. reflexivity. Qed.

Lemma scaled_abs_nonneg (x : R) : 0 <= Rabs x / sqrt 2.
Proof.
  apply Rmult_le_pos; [apply Rabs_pos |].
  left. apply Rinv_0_lt_compat, sqrt_lt_R0. lra.
Qed.

Lemma tail_arg_range (u : R) : 0 <= u -> 0 <= 1 / (1 + 0.3275911 * u) <= 1.
Proof.
  intros Hu.
  assert (Hd : 1 <= 1 + 0.3275911 * u) by nra.
  split.
  - apply Rmult_le_pos; [lra | left; apply Rinv_0_lt_compat; lra].
  - apply Rmult_le_reg_r with (1 + 0.3275911 * u); [lra |].
    unfold Rdiv. rewrite Rmult_assoc, Rinv_l by lra. lra.
Qed.

Lemma exp_nonpos_range (z : R) : z <= 0 -> 0 < exp z <= 1.
Proof.
  intros Hz. split; [apply exp_pos |].
  destruct (Req_dec z 0) as [-> | Hne]; [rewrite exp_0; lra |].
  apply Rle_trans with (exp 0); [| rewrite exp_0; lra].
  left. apply exp_increasing. lra.
Qed.

Lemma tail_range (x : R) :
  0 <= 1 - tail_poly (1 / (1 + 0.3275911 * (Rabs x / sqrt 2))) *
           exp (- (Rabs x / sqrt 2) * (Rabs x / sqrt 2)) <= 1.
Proof.
  pose proof (tail_poly_bounds _ (tail_arg_range _ (scaled_abs_nonneg x))) as Hq.
  assert (He : 0 < exp (- (Rabs x / sqrt 2) * (Rabs x / sqrt 2)) <= 1)
    by (apply exp_nonpos_range; nra).
  nra.
Qed.

Lemma normalCDF_range (x : R) : 0 <= normalCDF x <= 1.
Proof.
  rewrite normalCDF_unfold. pose proof (tail_range x) as Hy.
  destruct (Rlt_dec x 0); lra.
Qed.

Lemma normalCDF_upper_half (x : R) : 0 <= x -> 0.5 <= normalCDF x.
Proof.
  intros Hx. rewrite normalCDF_unfold. pose proof (tail_range x) as Hy.
  destruct (Rlt_dec x 0); lra.
Qed.

Lemma normalCDF_opp (x : R) : x <> 0 -> normalCDF x + normalCDF (- x) = 1.
Proof.
  intros Hx. rewrite !normalCDF_unfold, Rabs_Ropp.
  destruct (Rlt_dec x 0), (Rlt_dec (- x) 0); lra.
Qed.

(** The coefficients add up to 0.999999999, so the value at 0 is not 0.5. *)
Lemma normalCDF_0 : normalCDF 0 = 0.5000000005.
Proof.
  rewrite normalCDF_unfold, Rabs_R0.
  replace (0 / sqrt 2) with 0 by (unfold Rdiv; ring).
  replace (- 0 * 0) with 0 by ring. rewrite exp_0.
  replace (1 + 0.3275911 * 0) with 1 by lra.
  replace (1 / 1) with 1 by (unfold Rdiv; rewrite Rinv_1; ring).
  unfold tail_poly. destruct (Rlt_dec 0 0); lra.
Qed.

Lemma normalCDF_pair (x : R) :
  normalCDF x + normalCDF (- x) = 1 \/ normalCDF x + normalCDF (- x) = 1.000000001.
Proof.
  destruct (Req_dec x 0) as [-> | Hx].
  - right. rewrite Ropp_0, normalCDF_0. lra.
  - left. now apply normalCDF_opp.
Qed.

(** ** Expired options *)

(** C3. For every S, K, r, sigma and every T <= 0, [blackScholes] returns the
    intrinsic values [max(S-K, 0)] and [max(K-S, 0)], [d1 = d2 = 0],
    [nd1 = nd2 = 1] if [S > K] and 0 otherwise, [nMinusD1] and [nMinusD2] their
    complements, and [calculateGreeks] returns five zeros for both kinds. *)
Theorem blackScholes_expired (S K T r sigma : R) :
  T <= 0 ->
  let b := blackScholes S K T r sigma in
  callPrice b = Rmax (S - K) 0 /\
  putPrice b = Rmax (K - S) 0 /\
  d1 b = 0 /\ d2 b = 0 /\
  nd1 b = (if Rgt_dec S K then 1 else 0) /\
  nd2 b = (if Rgt_dec S K then 1 else 0) /\
  nMinusD1 b = 1 - nd1 b /\
  nMinusD2 b = 1 - nd2 b /\
  forall kind : OptionType,
    calculateGreeks S K T r sigma kind =
    {| delta := 0; gamma := 0; theta := 0; vega := 0; rho := 0 |}.
Proof.
  intros HT b. subst b. unfold blackScholes, calculateGreeks.
  destruct (Rle_dec T 0) as [_ | Hn]; [| contradiction].
  cbn [callPrice putPrice d1 d2 nd1 nd2 nMinusD1 nMinusD2].
  repeat split; try reflexivity; destruct (Rgt_dec S K); lra.
Qed.

Lemma blackScholes_expired_witness :
  0 <= 0 /\
  callPrice (blackScholes 185.5 180 0 0.045 0.28) = Rmax (185.5 - 180) 0.
Proof.
  split; [lra |].
  refine (proj1 (blackScholes_expired 185.5 180 0 0.045 0.28 _)). lra.
Defined.

(** ** Put-call parity *)

Lemma parityResidual_eq (S K T r sigma : R) :
  T > 0 ->
  let b := blackScholes S K T r sigma in
  parityResidual S K T r sigma =
  K * exp (- r * T) * (normalCDF (d2 b) + normalCDF (- d2 b) - 1)
  - S * (normalCDF (d1 b) + normalCDF (- d1 b) - 1).
Proof.
  intros HT. unfold parityResidual, blackScholes.
  destruct (Rle_dec T 0) as [Hle | _]; [lra |].
  cbn [callPrice putPrice d1 d2]. lra.
Qed.

Lemma ln_half : ln (2000 / 4000) = - ln 2.
Proof.
  replace (2000 / 4000) with (/ 2) by lra.
  apply ln_Rinv. lra.
Qed.

(** With S = 2000, K = 4000, T = 1, sigma = 1 and r = ln 2 - 1/2 the term [d1]
    is 0, both [nd1] and [nMinusD1] are 0.5000000005, and parity is missed by
    0.000002. *)
Lemma parity_counterexample :
  ~ (forall S K T r sigma : R,
        S > 0 -> K > 0 -> r > 0 -> sigma > 0 -> T > 0 ->
        let b := blackScholes S K T r sigma in
        Rabs (putPrice b - (callPrice b - S + K * exp (- r * T))) <= 0.000001).
Proof.
  intros H.
  pose proof ln_lt_2 as Hln.
  specialize (H 2000 4000 1 (ln 2 - 0.5) 1
                ltac:(lra) ltac:(lra) ltac:(lra) ltac:(lra) ltac:(lra)).
  cbv zeta in H.
  change (putPrice _ - _) with (parityResidual 2000 4000 1 (ln 2 - 0.5) 1) in H.
  rewrite parityResidual_eq in H by lra. cbv zeta in H.
  unfold blackScholes in H.
  destruct (Rle_dec 1 0) as [Hle | _]; [lra |].
  cbn [d1 d2] in H.
  rewrite ln_half, sqrt_1 in H.
  replace ((- ln 2 + (ln 2 - 0.5 + 0.5 * 1 * 1) * 1) / (1 * 1)) with 0 in H by lra.
  replace (0 - 1 * 1) with (- (1)) in H by lra.
  rewrite (Rplus_comm (normalCDF (- (1)))), Ropp_involutive in H.
  rewrite (normalCDF_opp 1) in H by lra.
  rewrite Ropp_0, normalCDF_0 in H.
  replace (4000 * exp (- (ln 2 - 0.5) * 1) * (1 - 1)
           - 2000 * (0.5000000005 + 0.5000000005 - 1)) with (- 0.000002) in H by lra.
  revert H. unfold Rabs. destruct (Rcase_abs _); lra.
Qed.

(** C4, amended.  For all S, K, r, sigma, T > 0 the prices of [blackScholes]
    miss put-call parity by at most 1e-9 times the larger of S and K, and
    they meet it exactly unless [d1] or [d2] is 0. *)
Theorem parity_scaled (S K T r sigma : R) :
  S > 0 -> K > 0 -> r > 0 -> sigma > 0 -> T > 0 ->
  let b := blackScholes S K T r sigma in
  Rabs (putPrice b - (callPrice b - S + K * exp (- r * T))) <= 0.000000001 * Rmax S K /\
  (d1 b <> 0 -> d2 b <> 0 ->
   putPrice b = callPrice b - S + K * exp (- r * T)).
Proof.
  intros HS HK Hr Hs HT b.
  change (putPrice b - _) with (parityResidual S K T r sigma).
  pose proof (parityResidual_eq S K T r sigma HT) as Heq. cbv zeta in Heq. fold b in Heq.
  assert (HD : 0 < exp (- r * T) <= 1) by (apply exp_nonpos_range; nra).
  split.
  - rewrite Heq.
    pose proof (Rmax_l S K). pose proof (Rmax_r S K).
    assert (K * exp (- r * T) <= Rmax S K) by nra.
    apply Rabs_le.
    destruct (normalCDF_pair (d1 b)) as [-> | ->], (normalCDF_pair (d2 b)) as [-> | ->]; nra.
  - intros Hd1 Hd2.
    assert (Hz : parityResidual S K T r sigma = 0).
    { rewrite Heq, (normalCDF_opp _ Hd1), (normalCDF_opp _ Hd2). lra. }
    unfold parityResidual in Hz. fold b in Hz. lra.
Qed.

Lemma parity_scaled_witness :
  (100 > 0 /\ 0.045 > 0 /\ 0.2 > 0 /\ 1 > 0) /\
  Rabs (putPrice (blackScholes 100 100 1 0.045 0.2)
        - (callPrice (blackScholes 100 100 1 0.045 0.2) - 100 + 100 * exp (- (0.045) * 1)))
  <= 0.000000001 * Rmax 100 100.
Proof.
  split; [lra |].
  refine (proj1 (parity_scaled 100 100 1 0.045 0.2 _ _ _ _ _)); lra.
Defined.

(** ** Ranges of the Greeks *)

Lemma phi_pos (x : R) : 0 < exp (- 0.5 * x * x) / sqrt (2 * PI).
Proof.
  apply Rdiv_lt_0_compat; [apply exp_pos |].
  apply sqrt_lt_R0. pose proof PI_RGT_0. lra.
Qed.

(** C5. For S > 0, K > 0, sigma > 0, T > 0 and any r, [calculateGreeks] gives
    a delta in [0, 1] for a call and in [-1, 0] for a put, and a gamma and a
    vega that are not negative. *)
Theorem greeks_ranges (S K T r sigma : R) :
  S > 0 -> K > 0 -> sigma > 0 -> T > 0 ->
  0 <= delta (calculateGreeks S K T r sigma call) <= 1 /\
  -1 <= delta (calculateGreeks S K T r sigma put) <= 0 /\
  forall kind : OptionType,
    gamma (calculateGreeks S K T r sigma kind) >= 0 /\
    vega (calculateGreeks S K T r sigma kind) >= 0.
Proof.
  intros HS HK Hs HT. unfold calculateGreeks.
  destruct (Rle_dec T 0) as [Hle | _]; [lra |].
  cbn [delta gamma vega].
  assert (HsT : 0 < sqrt T) by (apply sqrt_lt_R0; lra).
  set (x := (ln (S / K) + (r + 0.5 * sigma * sigma) * T) / (sigma * sqrt T)).
  pose proof (normalCDF_range x) as H1.
  pose proof (normalCDF_range (- x)) as H2.
  pose proof (phi_pos x) as Hphi.
  repeat split; try lra.
  - apply Rle_ge. left. apply Rdiv_lt_0_compat; [exact Hphi |].
    apply Rmult_lt_0_compat; [apply Rmult_lt_0_compat |]; lra.
  - apply Rle_ge. apply Rmult_le_pos; [| lra].
    apply Rmult_le_pos; [apply Rmult_le_pos |]; lra.
Qed.

Lemma greeks_ranges_witness :
  (185.5 > 0 /\ 180 > 0 /\ 0.28 > 0 /\ 0.25 > 0) /\
  0 <= delta (calculateGreeks 185.5 180 0.25 0.045 0.28 call) <= 1.
Proof.
  split; [lra |].
  refine (proj1 (greeks_ranges 185.5 180 0.25 0.045 0.28 _ _ _ _)); lra.
Defined.

(** ** Sorting by a key, largest first *)

Section Sorting.
Context {A : Type} (key : A -> R).

(** The comparison function of both services, for [key := OptionData.edge]. *)
Let byKeyDesc (a b : A) : R := key b - key a.

Lemma insertSorted_perm (x : A) (l : list A) :
  Permutation (insertSorted byKeyDesc x l) (x :: l).
Proof.
  induction l as [| y l IH]; cbn [insertSorted]; [reflexivity |].
  destruct (Rgt_dec (byKeyDesc x y) 0); [| reflexivity].
  rewrite IH. apply perm_swap.
Qed.

Lemma Array_sort_perm (l : list A) : Permutation (Array_sort byKeyDesc l) l.
Proof.
  induction l as [| x l IH]; cbn; [reflexivity |].
  fold (Array_sort byKeyDesc l).
  rewrite insertSorted_perm. now constructor.
Qed.

Lemma insertSorted_sorted (x : A) (l : list A) :
  StronglySorted (fun a b => key a >= key b) l ->
  StronglySorted (fun a b => key a >= key b) (insertSorted byKeyDesc x l).
Proof.
  induction 1 as [| y l Hl IH Hy]; cbn [insertSorted].
  - repeat constructor.
  - unfold byKeyDesc at 1. destruct (Rgt_dec (key y - key x) 0) as [Hgt | Hle].
    + constructor; [exact IH |].
      eapply Permutation_Forall; [symmetry; apply insertSorted_perm |].
      constructor; [lra | exact Hy].
    + constructor; [now constructor |].
      constructor; [lra |].
      eapply Forall_impl; [| exact Hy]. cbn. intros; lra.
Qed.

Lemma Array_sort_sorted (l : list A) :
  StronglySorted (fun a b => key a >= key b) (Array_sort byKeyDesc l).
Proof.
  induction l as [| x l IH]; cbn; [constructor |].
  now apply insertSorted_sorted.
Qed.

(** Stability: the elements that share a key keep their order. *)
Lemma insertSorted_stable (k : R) (x : A) (l : list A) :
  filter (fun a => if Req_dec_T (key a) k then true else false) (insertSorted byKeyDesc x l) =
  filter (fun a => if Req_dec_T (key a) k then true else false) (x :: l).
Proof.
  induction l as [| y l IH]; cbn [insertSorted]; [reflexivity |].
  unfold byKeyDesc at 1. destruct (Rgt_dec (key y - key x) 0) as [Hgt | Hle];
    [| reflexivity].
  cbn [filter] in *. rewrite IH.
  destruct (Req_dec_T (key y) k), (Req_dec_T (key x) k); try reflexivity; lra.
Qed.

Lemma Array_sort_stable (k : R) (l : list A) :
  filter (fun a => if Req_dec_T (key a) k then true else false) (Array_sort byKeyDesc l) =
  filter (fun a => if Req_dec_T (key a) k then true else false) l.
Proof.
  induction l as [| x l IH]; cbn [Array_sort fold_right]; [reflexivity |].
  fold (Array_sort byKeyDesc l). rewrite insertSorted_stable.
  cbn [filter]. now rewrite IH.
Qed.

End Sorting.

Lemma passes_true (options : SearchOptions.t) (option : OptionData.t) :
  passes options option = true <->
  OptionData.edge option >= SearchOptions.minEdge options /\
  OptionData.volume option >= SearchOptions.minVolume options /\
  OptionData.lastPrice option >= SearchOptions.minPrice options.
Proof. unfold passes. rewrite !andb_true_iff, !geb_true. tauto. Qed.

Lemma sort_filter_ranked (options : SearchOptions.t) (analyzed : list OptionData.t) :
  filteredAndRanked options analyzed
    (Array_sort (fun a b => OptionData.edge b - OptionData.edge a)
       (filter (passes options) analyzed)).
Proof.
  pose proof (Array_sort_perm OptionData.edge (filter (passes options) analyzed)) as Hp.
  split; [exact Hp | split].
  - intros o. rewrite <- passes_true, <- filter_In.
    split; intros Hin.
    + eapply Permutation_in; [exact Hp | exact Hin].
    + eapply Permutation_in; [symmetry; exact Hp | exact Hin].
  - apply Array_sort_sorted.
Qed.

Lemma sorted_filtered_Forall (P : OptionData.t -> Prop) (options : SearchOptions.t)
    (analyzed : list OptionData.t) :
  Forall P analyzed ->
  Forall P (Array_sort (fun a b => OptionData.edge b - OptionData.edge a)
              (filter (passes options) analyzed)).
Proof.
  intros H.
  eapply Permutation_Forall; [symmetry; apply (Array_sort_perm OptionData.edge) |].
  rewrite Forall_forall in *. intros o Ho. apply filter_In in Ho. now apply H.
Qed.

(** ** One pass of the loop of the table-backed service *)

Lemma mockAnalyzeFrom_app (h : Host) (n : nat) (cs1 cs2 : list (RawOptionData.t * R * string)) :
  mockAnalyzeFrom h n (cs1 ++ cs2) =
  (mockAnalyzeFrom h n cs1 ++ mockAnalyzeFrom h (n + List.length cs1) cs2)%list.
Proof.
  revert n. induction cs1 as [| c cs1 IH]; intros n; cbn [mockAnalyzeFrom app List.length].
  - now rewrite Nat.add_0_r.
  - rewrite IH. now rewrite Nat.add_succ_comm.
Qed.

Lemma mock_process_run (h : Host) (rawOption : RawOptionData.t) (stockPrice : R)
    (symbol : string) (st : State) :
  MockService.processOptionData h rawOption stockPrice symbol st =
  (mockRecordAt h (dateReads st) (rawOption, stockPrice, symbol),
   mkState (S (dateReads st)) (randomDraws st) (requests st) (progressLog st)).
Proof. reflexivity. Qed.

Lemma mock_mapM_run (h : Host) (stockPrice : R) (symbol : string)
    (l : list RawOptionData.t) (st : State) :
  mapM (fun option => MockService.processOptionData h option stockPrice symbol) l st =
  (mockAnalyzeFrom h (dateReads st) (map (fun option => (option, stockPrice, symbol)) l),
   mkState (dateReads st + List.length l) (randomDraws st) (requests st) (progressLog st)).
Proof.
  revert st. induction l as [| a l IH]; intros st.
  - cbn. unfold ret. rewrite Nat.add_0_r. now destruct st.
  - cbn [mapM map mockAnalyzeFrom List.length]. unfold bind at 1.
    rewrite mock_process_run. unfold bind at 1. rewrite IH. unfold ret.
    cbn [dateReads randomDraws requests progressLog].
    now rewrite Nat.add_succ_comm.
Qed.

Lemma report_run (options : SearchOptions.t) (c : ProgressCall) (st : State) :
  (if SearchOptions.onProgress options then callProgress c else ret tt) st =
  (tt, mkState (dateReads st) (randomDraws st) (requests st)
         (progressLog st ++ (if SearchOptions.onProgress options then [c] else []))%list).
Proof.
  destruct (SearchOptions.onProgress options); [reflexivity |].
  unfold ret. rewrite app_nil_r. now destruct st.
Qed.

Lemma lookup_cases (symbol : string) :
  match MockService.lookup MockService.MOCK_OPTIONS_DATA symbol with
  | Own entry =>
      MockService.ownEntry MockService.MOCK_OPTIONS_DATA symbol = Some entry /\
      inheritedName symbol = false
  | Inherited =>
      MockService.ownEntry MockService.MOCK_OPTIONS_DATA symbol = None /\
      inheritedName symbol = true
  | Undefined =>
      MockService.ownEntry MockService.MOCK_OPTIONS_DATA symbol = None /\
      inheritedName symbol = false
  end.
Proof.
  unfold inheritedName, MockService.lookup.
  destruct (MockService.ownEntry MockService.MOCK_OPTIONS_DATA symbol); [now split |].
  destruct (existsb (String.eqb symbol) Object_prototype); now split.
Qed.

Lemma visited_all (symbols : list string) : throwsOn symbols = false -> visited symbols = symbols.
Proof.
  induction symbols as [| s l IH]; [reflexivity |].
  cbn [throwsOn existsb visited]. intros H. apply orb_false_iff in H.
  destruct H as [-> H]. now rewrite (IH H).
Qed.


Lemma visited_stops (symbols : list string) :
  throwsOn symbols = true ->
  exists before name,
    visited symbols = (before ++ [name])%list /\
    inheritedName name = true /\ throwsOn before = false.
Proof.
  induction symbols as [| s l IH]; [discriminate |].
  cbn [throwsOn existsb visited]. destruct (inheritedName s) eqn:Hs.
  - intros _. exists [], s. now repeat split.
  - cbn [orb]. intros H. destruct (IH H) as (before & name & -> & Hn & Hb).
    exists (s :: before), name. cbn [throwsOn existsb app]. rewrite Hs.
    now repeat split.
Qed.

Lemma returnsWith_result {A : Type} (throws : bool) (P : A -> Prop) (a : A) :
  P a -> returnsWith throws P (if throws then Threw else Returned a).
Proof. intros H. destruct throws; cbn; auto. Qed.

Lemma mock_searchLoop_cons (h : Host) (options : SearchOptions.t) (N i : nat)
    (symbol : string) (symbols' : list string) (acc : list OptionData.t) (st : State) :
  MockService.searchLoop h options N i (symbol :: symbols') acc st =
  let log :=
    (progressLog st ++
     (if SearchOptions.onProgress options then [mkProgress i N symbol] else []))%list in
  match MockService.lookup MockService.MOCK_OPTIONS_DATA symbol with
  | Undefined =>
      MockService.searchLoop h options N (S i) symbols' acc
        (mkState (dateReads st) (S (randomDraws st)) (requests st) log)
  | Inherited =>
      (Threw, mkState (dateReads st) (S (randomDraws st)) (requests st) log)
  | Own symbolData =>
      MockService.searchLoop h options N (S i) symbols'
        (acc ++ filter (passes options)
                  (mockAnalyzeFrom h (dateReads st) (contractsOf symbolData)))%list
        (mkState (dateReads st + List.length (MarketData.options symbolData))
                 (S (randomDraws st)) (requests st) log)
  end.
Proof.
  cbn [MockService.searchLoop]. cbv zeta.
  unfold bind at 1. rewrite report_run.
  unfold bind at 1. unfold delay, bind at 1, random, ret.
  cbn [dateReads randomDraws requests progressLog].
  destruct (MockService.lookup MockService.MOCK_OPTIONS_DATA symbol) as [symbolData | |];
    [| reflexivity | reflexivity].
  unfold bind at 1. rewrite mock_mapM_run.
  cbn [dateReads randomDraws requests progressLog]. reflexivity.
Qed.

Lemma mock_searchLoop_result (h : Host) (options : SearchOptions.t) (N : nat)
    (symbols : list string) : forall (i : nat) (acc : list OptionData.t) (st : State),
  fst (MockService.searchLoop h options N i symbols acc st) =
  if throwsOn symbols then Threw
  else Returned
         (acc ++ filter (passes options)
                   (mockAnalyzeFrom h (dateReads st) (resolvedContracts symbols)))%list.
Proof.
  induction symbols as [| symbol symbols' IH]; intros i acc st.
  - cbn. now rewrite app_nil_r.
  - rewrite mock_searchLoop_cons. cbv zeta.
    cbn [resolvedContracts flat_map throwsOn existsb].
    fold (resolvedContracts symbols'). fold (throwsOn symbols').
    pose proof (lookup_cases symbol) as Hc.
    destruct (MockService.lookup MockService.MOCK_OPTIONS_DATA symbol) as [symbolData | |];
      destruct Hc as [-> ->]; cbn [orb].
    + rewrite IH. cbn [dateReads]. destruct (throwsOn symbols'); [reflexivity |].
      rewrite mockAnalyzeFrom_app, filter_app, <- app_assoc.
      unfold contractsOf at 3. now rewrite length_map.
    + reflexivity.
    + rewrite IH. reflexivity.
Qed.

Lemma mock_searchLoop_log (h : Host) (options : SearchOptions.t) (N : nat)
    (symbols : list string) : forall (i : nat) (acc : list OptionData.t) (st : State),
  progressLog (snd (MockService.searchLoop h options N i symbols acc st)) =
  (progressLog st ++
   (if SearchOptions.onProgress options then progressFrom N i (visited symbols) else []))%list.
Proof.
  induction symbols as [| symbol symbols' IH]; intros i acc st.
  - cbn. destruct (SearchOptions.onProgress options); now rewrite app_nil_r.
  - rewrite mock_searchLoop_cons. cbv zeta. cbn [visited].
    pose proof (lookup_cases symbol) as Hc.
    destruct (MockService.lookup MockService.MOCK_OPTIONS_DATA symbol) as [symbolData | |];
      destruct Hc as [_ ->]; rewrite ?IH; cbn [snd progressLog progressFrom];
      destruct (SearchOptions.onProgress options);
      now rewrite <- ?app_assoc.
Qed.

(** ** One pass of the loop of the fetch-backed service *)

Lemma fetch_process_run (h : Host) (rawOption : RawOptionData.t) (stockPrice : R)
    (ticker : string) (st : State) :
  FetchService.processOptionData h rawOption stockPrice ticker st =
  (fetchRecordAt h (dateReads st) (randomDraws st) (rawOption, stockPrice, ticker),
   mkState (S (dateReads st)) (S (randomDraws st)) (requests st) (progressLog st)).
Proof. reflexivity. Qed.

Lemma fetch_mapM_run (h : Host) (stockPrice : R) (ticker : string)
    (l : list RawOptionData.t) (st : State) :
  mapM (fun option => FetchService.processOptionData h option stockPrice ticker) l st =
  (fetchAnalyzeFrom h (dateReads st) (randomDraws st)
     (map (fun option => (option, stockPrice, ticker)) l),
   mkState (dateReads st + List.length l) (randomDraws st + List.length l)
     (requests st) (progressLog st)).
Proof.
  revert st. induction l as [| a l IH]; intros st.
  - cbn. unfold ret. rewrite !Nat.add_0_r. now destruct st.
  - cbn [mapM map fetchAnalyzeFrom List.length]. unfold bind at 1.
    rewrite fetch_process_run. unfold bind at 1. rewrite IH. unfold ret.
    cbn [dateReads randomDraws requests progressLog].
    now rewrite !Nat.add_succ_comm.
Qed.

Lemma fetch_searchLoop_cons (h : Host) (options : SearchOptions.t) (N i : nat)
    (symbol : string) (symbols' : list string) (acc : list OptionData.t) (st : State) :
  FetchService.searchLoop h options N i (symbol :: symbols') acc st =
  let log :=
    (progressLog st ++
     (if SearchOptions.onProgress options then [mkProgress i N symbol] else []))%list in
  match fetchOptions h (requests st) symbol with
  | FetchFailed =>
      FetchService.searchLoop h options N (S i) symbols' acc
        (mkState (dateReads st) (randomDraws st) (S (requests st)) log)
  | FetchResults [] =>
      FetchService.searchLoop h options N (S i) symbols' acc
        (mkState (dateReads st) (S (randomDraws st)) (S (requests st)) log)
  | FetchResults (symbolData :: _) =>
      let n := List.length (MarketData.options symbolData) in
      FetchService.searchLoop h options N (S i) symbols'
        (acc ++ filter (passes options)
                  (fetchAnalyzeFrom h (dateReads st) (randomDraws st)
                     (contractsOf symbolData)))%list
        (mkState (dateReads st + n) (S (randomDraws st + n)) (S (requests st)) log)
  end.
Proof.
  cbn [FetchService.searchLoop]. cbv zeta.
  unfold bind at 1. rewrite report_run.
  unfold bind at 1. unfold request at 1.
  cbn [dateReads randomDraws requests progressLog].
  destruct (fetchOptions h (requests st) symbol) as [| [| symbolData results]];
    [reflexivity | reflexivity |].
  unfold bind at 1. rewrite fetch_mapM_run.
  cbn [dateReads randomDraws requests progressLog]. reflexivity.
Qed.

Lemma fetch_searchLoop_result (h : Host) (options : SearchOptions.t) (N : nat)
    (symbols : list string) : forall (i : nat) (acc : list OptionData.t) (st : State),
  fst (FetchService.searchLoop h options N i symbols acc st) =
  (acc ++ filter (passes options)
            (fetchAnalyzed h (dateReads st) (randomDraws st) (requests st) symbols))%list.
Proof.
  induction symbols as [| symbol symbols' IH]; intros i acc st.
  - cbn. now rewrite app_nil_r.
  - rewrite fetch_searchLoop_cons. cbv zeta. cbn [fetchAnalyzed].
    destruct (fetchOptions h (requests st) symbol) as [| [| symbolData results]];
      rewrite IH; cbn [dateReads randomDraws requests]; try reflexivity.
    now rewrite filter_app, <- app_assoc.
Qed.

Lemma fetch_searchLoop_log (h : Host) (options : SearchOptions.t) (N : nat)
    (symbols : list string) : forall (i : nat) (acc : list OptionData.t) (st : State),
  progressLog (snd (FetchService.searchLoop h options N i symbols acc st)) =
  (progressLog st ++
   (if SearchOptions.onProgress options then progressFrom N i symbols else []))%list.
Proof.
  induction symbols as [| symbol symbols' IH]; intros i acc st.
  - cbn. destruct (SearchOptions.onProgress options); now rewrite app_nil_r.
  - rewrite fetch_searchLoop_cons. cbv zeta.
    destruct (fetchOptions h (requests st) symbol) as [| [| symbolData results]];
      rewrite IH; cbn [progressLog progressFrom];
      destruct (SearchOptions.onProgress options);
      now rewrite <- app_assoc.
Qed.

(** ** What a search returns *)

Lemma mock_search_result (h : Host) (symbols : list string) (options : SearchOptions.t)
    (st : State) :
  fst (MockService.searchOptionsData h symbols options st) =
  if throwsOn symbols then Threw
  else Returned
         (Array_sort (fun a b => OptionData.edge b - OptionData.edge a)
            (filter (passes options)
               (mockAnalyzeFrom h (dateReads st) (resolvedContracts symbols)))).
Proof.
  unfold MockService.searchOptionsData, bind.
  pose proof (mock_searchLoop_result h options (List.length symbols) symbols 0 [] st) as H.
  destruct (MockService.searchLoop h options (List.length symbols) 0 symbols [] st)
    as [loop st1].
  cbn [fst] in H. subst loop.
  destruct (throwsOn symbols); [reflexivity |].
  destruct (SearchOptions.onProgress options); reflexivity.
Qed.

(** What the table-backed service returns when it returns. *)
Lemma mock_search_returned (h : Host) (symbols : list string) (options : SearchOptions.t)
    (st : State) (P : list OptionData.t -> Prop) :
  P (Array_sort (fun a b => OptionData.edge b - OptionData.edge a)
       (filter (passes options)
          (mockAnalyzeFrom h (dateReads st) (resolvedContracts symbols)))) ->
  returnsWith (throwsOn symbols) P
    (fst (MockService.searchOptionsData h symbols options st)).
Proof. intros H. rewrite mock_search_result. now apply returnsWith_result. Qed.

Lemma fetch_search_result (h : Host) (symbols : list string) (options : SearchOptions.t)
    (st : State) :
  fst (FetchService.searchOptionsData h symbols options st) =
  Array_sort (fun a b => OptionData.edge b - OptionData.edge a)
    (filter (passes options)
       (fetchAnalyzed h (dateReads st) (randomDraws st) (requests st) symbols)).
Proof.
  unfold FetchService.searchOptionsData, bind.
  pose proof (fetch_searchLoop_result h options (List.length symbols) symbols 0 [] st) as H.
  destruct (FetchService.searchLoop h options (List.length symbols) 0 symbols [] st)
    as [all st1].
  cbn [fst] in H. subst all.
  destruct (SearchOptions.onProgress options); reflexivity.
Qed.

(** C1. For every list of symbols and every filter, what [searchOptionsData]
    returns holds exactly the analyzed contracts of the resolved symbols with
    [edge >= minEdge], [volume >= minVolume] and [lastPrice >= minPrice] (all
    bounds inclusive), ordered by edge, largest first; in both services.  The
    table-backed service returns unless one of the symbols is a name
    inherited from [Object.prototype]; the fetch-backed one always returns. *)
Theorem search_filtered_and_ranked (h : Host) (symbols : list string)
    (options : SearchOptions.t) (st : State) :
  returnsWith (throwsOn symbols)
    (filteredAndRanked options
       (mockAnalyzeFrom h (dateReads st) (resolvedContracts symbols)))
    (fst (MockService.searchOptionsData h symbols options st)) /\
  filteredAndRanked options
    (fetchAnalyzed h (dateReads st) (randomDraws st) (requests st) symbols)
    (fst (FetchService.searchOptionsData h symbols options st)).
Proof.
  split.
  - apply mock_search_returned, sort_filter_ranked.
  - rewrite fetch_search_result. apply sort_filter_ranked.
Qed.

(** ** Progress reports *)

Lemma progressFrom_length (N : nat) (symbols : list string) : forall i : nat,
  List.length (progressFrom N i symbols) = List.length symbols.
Proof. induction symbols as [| s l IH]; intros i; cbn; [reflexivity | now rewrite IH]. Qed.

Lemma progressFrom_nth (N : nat) (symbols : list string) : forall i k : nat,
  (k < List.length symbols)%nat ->
  nth k (progressFrom N i symbols) noCall = mkProgress (i + k) N (nth k symbols "").
Proof.
  induction symbols as [| s l IH]; intros i k Hk; cbn in Hk; [lia |].
  destruct k as [| k]; cbn [progressFrom nth].
  - now rewrite Nat.add_0_r.
  - rewrite IH by lia. now rewrite Nat.add_succ_comm.
Qed.

Lemma progressCalls_shape (final : string) (symbols : list string) :
  let N := List.length symbols in
  let calls := progressCalls final symbols in
  List.length calls = S N /\
  (forall k, (k <= N)%nat ->
     current (nth k calls noCall) = k /\ total (nth k calls noCall) = N) /\
  (forall k, (k < N)%nat -> label (nth k calls noCall) = nth k symbols "") /\
  nth N calls noCall = mkProgress N N final.
Proof.
  intros N calls. subst calls. unfold progressCalls. fold N.
  assert (Hlen : List.length (progressFrom N 0 symbols) = N) by apply progressFrom_length.
  assert (Hlast : nth N (progressFrom N 0 symbols ++ [mkProgress N N final])%list noCall
                  = mkProgress N N final).
  { rewrite app_nth2 by lia. rewrite Hlen, Nat.sub_diag. reflexivity. }
  repeat split.
  - rewrite length_app, Hlen. cbn. lia.
  - destruct (Nat.eq_dec k N) as [-> | Hne]; [now rewrite Hlast |].
    rewrite app_nth1 by lia. rewrite progressFrom_nth by (unfold N in *; lia). reflexivity.
  - destruct (Nat.eq_dec k N) as [-> | Hne]; [now rewrite Hlast |].
    rewrite app_nth1 by lia. rewrite progressFrom_nth by (unfold N in *; lia). reflexivity.
  - intros k Hk. rewrite app_nth1 by lia.
    rewrite progressFrom_nth by (unfold N in *; lia). reflexivity.
  - exact Hlast.
Qed.

Lemma mock_search_log (h : Host) (symbols : list string) (options : SearchOptions.t)
    (st : State) :
  progressLog (snd (MockService.searchOptionsData h symbols options st)) =
  (progressLog st ++
   (if SearchOptions.onProgress options then
      if throwsOn symbols then progressFrom (List.length symbols) 0 (visited symbols)
      else progressCalls "" symbols
    else []))%list.
Proof.
  unfold MockService.searchOptionsData, bind.
  pose proof (mock_searchLoop_log h options (List.length symbols) symbols 0 [] st) as H.
  pose proof (mock_searchLoop_result h options (List.length symbols) symbols 0 [] st) as Hr.
  destruct (MockService.searchLoop h options (List.length symbols) 0 symbols [] st)
    as [loop st1].
  cbn [fst snd] in H, Hr. subst loop.
  destruct (throwsOn symbols) eqn:Ht; cbn [snd ret]; [exact H |].
  rewrite (visited_all symbols Ht) in H.
  destruct (SearchOptions.onProgress options); cbn; rewrite H; [| reflexivity].
  unfold progressCalls. now rewrite app_assoc.
Qed.

Lemma fetch_search_log (h : Host) (symbols : list string) (options : SearchOptions.t)
    (st : State) :
  progressLog (snd (FetchService.searchOptionsData h symbols options st)) =
  (progressLog st ++
   (if SearchOptions.onProgress options then progressCalls "Complete" symbols else []))%list.
Proof.
  unfold FetchService.searchOptionsData, bind.
  pose proof (fetch_searchLoop_log h options (List.length symbols) symbols 0 [] st) as H.
  destruct (FetchService.searchLoop h options (List.length symbols) 0 symbols [] st)
    as [all st1].
  cbn [snd] in H.
  destruct (SearchOptions.onProgress options); cbn; rewrite H; [| reflexivity].
  unfold progressCalls. now rewrite app_assoc.
Qed.




(** Asked for [constructor] and AAPL, the table-backed service reports the
    first symbol and throws: one call, not three, and AAPL is never reached. *)
Example progress_stops_at_inherited_name :
  let run := MockService.searchOptionsData closingHost ["constructor"; "AAPL"]
               defaultOptions initialState in
  fst run = Threw /\
  progressLog (snd run) = [mkProgress 0 2 "constructor"] /\
  randomDraws (snd run) = 1%nat /\ dateReads (snd run) = 0%nat.
Proof. cbv zeta. repeat split; reflexivity. Qed.

(** ** Maximal profit *)

(** The two sample contracts are what the table-backed service analyzes for AAPL. *)
Example resolvedContracts_AAPL :
  resolvedContracts ["AAPL"] = [(aaplCall, 185.50, "AAPL"); (aaplPut, 185.50, "AAPL")].
Proof. reflexivity. Qed.

(** The table-backed service stores [Infinity] for the first contract of its
    table, a call with a last price of 8.45. *)
Lemma maxProfit_counterexample :
  OptionData.maxProfit
    (fst (MockService.processOptionData closingHost aaplCall 185.50 "AAPL" initialState))
  <> Finite (RawOptionData.lastPrice aaplCall * 100).
Proof. cbn. discriminate. Qed.

(** C6, amended.  The fetch-backed pipeline emits [maxProfit = lastPrice * 100]
    for both kinds; the table-backed pipeline emits [Infinity] for a call and
    [strike - lastPrice] for a put. *)
Theorem maxProfit_by_service (h : Host) (rawOption : RawOptionData.t)
    (stockPrice : R) (name : string) (st : State) :
  OptionData.maxProfit (fst (FetchService.processOptionData h rawOption stockPrice name st)) =
    Finite (RawOptionData.lastPrice rawOption * 100) /\
  OptionData.maxProfit (fst (MockService.processOptionData h rawOption stockPrice name st)) =
    match RawOptionData.optionType rawOption with
    | call => Infinity
    | put => Finite (RawOptionData.strike rawOption - RawOptionData.lastPrice rawOption)
    end.
Proof. split; reflexivity. Qed.

(** ** Annualized return *)

Lemma time_read (h : Host) (expirationDate : string) (st : State) :
  fst (calculateTimeToExpiration h expirationDate st) =
  Rmax 0 ((Date_parse h (expirationDate ++ "T16:00:00-05:00")
           - Date_now h (dateReads st)) / (1000 * 60 * 60 * 24) / 365.25).
Proof. reflexivity. Qed.

Lemma closing_time (expirationDate : string) (st : State) :
  fst (calculateTimeToExpiration closingHost expirationDate st) = 0.000025.
Proof.
  rewrite time_read. cbn [Date_parse Date_now closingHost].
  unfold Rmax. decide_comparisons.
Qed.

Lemma dayAfter_time (expirationDate : string) (st : State) :
  fst (calculateTimeToExpiration dayAfterHost expirationDate st) = 0.
Proof.
  rewrite time_read. cbn [Date_parse Date_now dayAfterHost].
  unfold Rmax. decide_comparisons.
Qed.

Lemma mock_annualizedReturn (h : Host) (rawOption : RawOptionData.t) (stockPrice : R)
    (name : string) (st : State) :
  let T := fst (calculateTimeToExpiration h (RawOptionData.expiration rawOption) st) in
  let b := blackScholes stockPrice (RawOptionData.strike rawOption) T
             MockService.RISK_FREE_RATE (RawOptionData.impliedVolatility rawOption) in
  OptionData.annualizedReturn
    (fst (MockService.processOptionData h rawOption stockPrice name st)) =
  MockService.calculateAnnualReturn
    (calculateEdge (RawOptionData.lastPrice rawOption)
       (match RawOptionData.optionType rawOption with
        | call => callPrice b
        | put => putPrice b
        end)) T.
Proof. reflexivity. Qed.

Lemma sqrt_closing : sqrt 0.000025 = 0.005.
Proof.
  replace 0.000025 with (0.005 * 0.005) by lra.
  apply sqrt_square. lra.
Qed.

Lemma ln_upper (y : R) : 0 < y -> ln y <= y - 1.
Proof.
  intros Hy. pose proof (exp_ineq1_le (ln y)) as H.
  rewrite exp_ln in H by exact Hy. lra.
Qed.

(** Far to the right [normalCDF] is close to 1. *)
Lemma normalCDF_tail (x : R) : 0 <= x -> 1 - 0.5 / (1 + x * x / 2) <= normalCDF x.
Proof.
  intros Hx. rewrite normalCDF_unfold.
  pose proof (tail_poly_bounds _ (tail_arg_range _ (scaled_abs_nonneg x))) as Hq.
  set (q := tail_poly _) in *.
  assert (Hu : - (Rabs x / sqrt 2) * (Rabs x / sqrt 2) = - (x * x / 2)).
  { rewrite Rabs_pos_eq by exact Hx.
    assert (Hs : sqrt 2 * sqrt 2 = 2) by (apply sqrt_sqrt; lra).
    assert (Hi : / sqrt 2 * / sqrt 2 = / 2) by (rewrite <- Rinv_mult, Hs; reflexivity).
    unfold Rdiv.
    replace (- (x * / sqrt 2) * (x * / sqrt 2)) with (- (x * x * (/ sqrt 2 * / sqrt 2)))
      by ring.
    now rewrite Hi. }
  rewrite Hu.
  set (z := x * x / 2). assert (Hz : 0 <= z) by (unfold z; nra).
  assert (HE : exp (- z) * (1 + z) <= 1).
  { pose proof (exp_ineq1_le z) as H1. pose proof (exp_pos (- z)) as H2.
    assert (H3 : exp (- z) * exp z = 1) by (rewrite <- exp_plus, Rplus_opp_l; apply exp_0).
    nra. }
  assert (Hi : 0.5 / (1 + z) * (1 + z) = 0.5).
  { unfold Rdiv. rewrite Rmult_assoc, Rinv_l by lra. lra. }
  pose proof (exp_pos (- z)) as HEp.
  set (E := exp (- z)) in *. set (w := 0.5 / (1 + z)) in *.
  destruct (Rlt_dec x 0) as [Hneg | _]; [lra |].
  assert (q * E <= 2 * w) by nra.
  lra.
Qed.

(** 0.000025 years before expiry the AAPL put of the table, struck at 190 on
    a stock at 185.50, is worth at least 3.7 to [blackScholes]. *)
Lemma aaplPut_price_bound :
  3.7 <= putPrice (blackScholes 185.50 190 0.000025 0.045 0.30).
Proof.
  unfold blackScholes. destruct (Rle_dec 0.000025 0) as [Hle | _]; [lra |].
  cbn [putPrice]. rewrite sqrt_closing.
  assert (HL : ln (185.50 / 190) <= 185.50 / 190 - 1) by (apply ln_upper; lra).
  set (L := ln (185.50 / 190)) in *.
  set (x1 := (L + (0.045 + 0.5 * 0.30 * 0.30) * 0.000025) / (0.30 * 0.005)).
  assert (Hx2 : 15.78 <= - (x1 - 0.30 * 0.005)) by (unfold x1; lra).
  set (x2 := - (x1 - 0.30 * 0.005)) in *.
  pose proof (normalCDF_tail x2 ltac:(lra)) as Hlo.
  pose proof (normalCDF_range x2) as Hr2.
  pose proof (normalCDF_range (- x1)) as Hr1.
  pose proof (exp_ineq1_le (- (0.045) * 0.000025)) as He.
  assert (Hw : 0.5 / (1 + x2 * x2 / 2) <= 0.004).
  { assert (Hden : 125 <= 1 + x2 * x2 / 2) by nra.
    apply Rmult_le_reg_r with (1 + x2 * x2 / 2); [lra |].
    unfold Rdiv at 1. rewrite Rmult_assoc, Rinv_l by lra. lra. }
  nra.
Qed.

(** For that put, analyzed 0.000025 years before expiry, the table-backed
    pipeline emits [(edge / 100) * (365 / (timeToExpiration * 365))], which is
    at most 0.7 * 40000, while
    [(maxProfit / collateralRequired) * (365 / daysToExpiration) * 100] is
    above 3.2 * 40000 with [lastPrice * 100] for the profit and above
    0.96 * 40000 with the emitted [maxProfit]. *)
Lemma annualizedReturn_counterexample :
  let o := fst (MockService.processOptionData closingHost aaplPut 185.50 "AAPL"
                  initialState) in
  OptionData.timeToExpiration o * 365 > 0 /\
  OptionData.annualizedReturn o <>
    (RawOptionData.lastPrice aaplPut * 100 / OptionData.collateralRequired o)
    * (365 / (OptionData.timeToExpiration o * 365)) * 100 /\
  (forall m : R,
      OptionData.maxProfit o = Finite m ->
      OptionData.annualizedReturn o <>
        (m / OptionData.collateralRequired o)
        * (365 / (OptionData.timeToExpiration o * 365)) * 100).
Proof.
  intros o. subst o.
  rewrite mock_annualizedReturn. cbv zeta.
  change (OptionData.timeToExpiration
            (fst (MockService.processOptionData closingHost aaplPut 185.50 "AAPL"
                    initialState)))
    with (fst (calculateTimeToExpiration closingHost
                 (RawOptionData.expiration aaplPut) initialState)).
  rewrite !closing_time.
  cbn [OptionData.collateralRequired OptionData.maxProfit MockService.processOptionData
       fst bind ret calculateTimeToExpiration readClock aaplPut
       RawOptionData.optionType RawOptionData.strike RawOptionData.lastPrice
       RawOptionData.impliedVolatility].
  unfold MockService.RISK_FREE_RATE.
  pose proof aaplPut_price_bound as Hth.
  set (th := putPrice (blackScholes 185.50 190 0.000025 0.045 0.30)) in *.
  unfold MockService.calculateAnnualReturn, calculateEdge.
  destruct (Rle_dec 0.000025 0) as [Hle | _]; [lra |].
  destruct (Req_dec_T th 0) as [Hz | Hnz]; [lra |].
  assert (Hx : (6.25 - th) / th * th = 6.25 - th)
    by (unfold Rdiv; rewrite Rmult_assoc, Rinv_l by exact Hnz; lra).
  set (x := (6.25 - th) / th) in *.
  assert (Hxb : x <= 0.7) by nra.
  split; [lra | split].
  - intros Heq. lra.
  - intros m Hm. injection Hm as <-. intros Heq. lra.
Qed.

(** C7, amended.  In the fetch-backed pipeline [annualizedReturn] is
    [(maxProfit / collateralRequired) * (365 / daysToExpiration) * 100] with
    [maxProfit = lastPrice * 100] and [daysToExpiration = timeToExpiration * 365],
    and 0 when [daysToExpiration <= 0]; in the table-backed pipeline it is
    [(edge / 100) * (365 / (timeToExpiration * 365))], and 0 when
    [timeToExpiration <= 0]. *)
Theorem annualizedReturn_by_service (h : Host) (rawOption : RawOptionData.t)
    (stockPrice : R) (name : string) (st : State) :
  let f := fst (FetchService.processOptionData h rawOption stockPrice name st) in
  let m := fst (MockService.processOptionData h rawOption stockPrice name st) in
  let days := OptionData.timeToExpiration f * 365 in
  (days > 0 ->
   OptionData.annualizedReturn f =
     (RawOptionData.lastPrice rawOption * 100 / OptionData.collateralRequired f)
     * (365 / days) * 100) /\
  (days <= 0 -> OptionData.annualizedReturn f = 0) /\
  OptionData.maxProfit f = Finite (RawOptionData.lastPrice rawOption * 100) /\
  (OptionData.timeToExpiration m > 0 ->
   OptionData.annualizedReturn m =
     (OptionData.edge m / 100) * (365 / (OptionData.timeToExpiration m * 365))) /\
  (OptionData.timeToExpiration m <= 0 -> OptionData.annualizedReturn m = 0).
Proof.
  intros f m days.
  assert (Hf : OptionData.annualizedReturn f =
               if Rgt_dec days 0
               then (RawOptionData.lastPrice rawOption * 100 / OptionData.collateralRequired f)
                    * (365 / days) * 100
               else 0) by reflexivity.
  assert (Hm : OptionData.annualizedReturn m =
               if Rle_dec (OptionData.timeToExpiration m) 0
               then 0
               else (OptionData.edge m / 100)
                    * (365 / (OptionData.timeToExpiration m * 365))) by reflexivity.
  rewrite Hf, Hm.
  destruct (Rgt_dec days 0), (Rle_dec (OptionData.timeToExpiration m) 0);
    repeat split; intros; try reflexivity; lra.
Qed.

(** ** Properties of every record of a run *)

Lemma mockAnalyzeFrom_Forall (P : OptionData.t -> Prop) (h : Host)
    (cs : list (RawOptionData.t * R * string)) :
  (forall n c, In c cs -> P (mockRecordAt h n c)) ->
  forall n : nat, Forall P (mockAnalyzeFrom h n cs).
Proof.
  induction cs as [| c cs IH]; intros H n; cbn [mockAnalyzeFrom]; constructor.
  - apply H. now left.
  - apply IH. intros n' c' Hin. apply H. now right.
Qed.

Lemma fetchAnalyzeFrom_Forall (P : OptionData.t -> Prop) (h : Host)
    (cs : list (RawOptionData.t * R * string)) :
  (forall d u c, P (fetchRecordAt h d u c)) ->
  forall d u : nat, Forall P (fetchAnalyzeFrom h d u cs).
Proof.
  intros H. induction cs as [| c cs IH]; intros d u; cbn [fetchAnalyzeFrom];
    constructor; auto.
Qed.

Lemma fetchAnalyzed_Forall (P : OptionData.t -> Prop) (h : Host) (symbols : list string) :
  (forall d u c, P (fetchRecordAt h d u c)) ->
  forall d u q : nat, Forall P (fetchAnalyzed h d u q symbols).
Proof.
  intros H. induction symbols as [| s l IH]; intros d u q; cbn [fetchAnalyzed];
    [constructor |].
  destruct (fetchOptions h q s) as [| [| symbolData results]]; auto.
  cbv zeta. apply Forall_app. split; [now apply fetchAnalyzeFrom_Forall | apply IH].
Qed.

(** *** Strategy *)

(** The classifier of the table-backed service does look at moneyness: a call
    struck above the stock price is neither of the two declared strategies. *)
Example getStrategyType_speculative :
  MockService.getStrategyType call (calculateMoneyness 185.50 190) = speculative.
Proof.
  unfold MockService.getStrategyType, calculateMoneyness, ltb. cbn.
  decide_comparisons. reflexivity.
Qed.

(** On the four contracts of the table it agrees with the classification by kind. *)
Lemma mock_table_strategy (c : RawOptionData.t * R * string) :
  In c (flat_map (fun entry => contractsOf (snd entry)) MockService.MOCK_OPTIONS_DATA) ->
  let '(rawOption, stockPrice, _) := c in
  MockService.getStrategyType (RawOptionData.optionType rawOption)
    (calculateMoneyness stockPrice (RawOptionData.strike rawOption)) =
  kindStrategy (RawOptionData.optionType rawOption).
Proof.
  cbn. intros [<- | [<- | [<- | [<- | []]]]];
    unfold MockService.getStrategyType, calculateMoneyness; cbn.
  - rewrite ltb_true by lra. reflexivity.
  - rewrite gtb_true by lra. reflexivity.
  - rewrite ltb_true by lra. reflexivity.
  - rewrite ltb_true by lra. reflexivity.
Qed.

Lemma lookup_In (table : list (string * MarketData.t)) (key : string) (v : MarketData.t) :
  MockService.ownEntry table key = Some v -> In (key, v) table.
Proof.
  induction table as [| [k w] table IH]; cbn; [discriminate |].
  destruct (String.eqb k key) eqn:Hk.
  - apply String.eqb_eq in Hk. intros [= ->]. left. now subst.
  - intros H. right. now apply IH.
Qed.

Lemma resolvedContracts_in_table (symbols : list string) (c : RawOptionData.t * R * string) :
  In c (resolvedContracts symbols) ->
  In c (flat_map (fun entry => contractsOf (snd entry)) MockService.MOCK_OPTIONS_DATA).
Proof.
  unfold resolvedContracts. rewrite !in_flat_map.
  intros (symbol & _ & Hc).
  destruct (MockService.ownEntry MockService.MOCK_OPTIONS_DATA symbol) as [d |] eqn:Hl;
    [| contradiction].
  exists (symbol, d). split; [now apply lookup_In | exact Hc].
Qed.

Lemma mock_record_strategy (h : Host) (n : nat) (c : RawOptionData.t * R * string) :
  OptionData.strategyType (mockRecordAt h n c) =
  let '(rawOption, stockPrice, _) := c in
  MockService.getStrategyType (RawOptionData.optionType rawOption)
    (calculateMoneyness stockPrice (RawOptionData.strike rawOption)).
Proof. destruct c as [[rawOption stockPrice] symbol]. reflexivity. Qed.

Lemma mock_record_optionType (h : Host) (n : nat) (c : RawOptionData.t * R * string) :
  OptionData.optionType (mockRecordAt h n c) = RawOptionData.optionType (fst (fst c)).
Proof. destruct c as [[rawOption stockPrice] symbol]. reflexivity. Qed.




(** *** Stale data *)

Lemma fetch_record_stale (h : Host) (d u : nat) (c : RawOptionData.t * R * string) :
  OptionData.hasStaleDataWarning (fetchRecordAt h d u c) = gtb (Math_random h u * 5) 15.
Proof. destruct c as [[rawOption stockPrice] ticker]. reflexivity. Qed.

Lemma fetch_record_dataAge (h : Host) (d u : nat) (c : RawOptionData.t * R * string) :
  OptionData.dataAge (fetchRecordAt h d u c) = Math_random h u * 5.
Proof. destruct c as [[rawOption stockPrice] ticker]. reflexivity. Qed.

(** C10. As [Math.random()] draws from [0, 1), every record either service
    returns has [hasStaleDataWarning = false]: the table-backed one writes
    [false], the fetch-backed one tests a [dataAge] below 5 against 15.  (The
    table-backed service returns unless it is asked for a name inherited
    from [Object.prototype].) *)
Theorem never_stale (h : Host) (symbols : list string)
    (options : SearchOptions.t) (st : State) :
  (forall k : nat, 0 <= Math_random h k < 1) ->
  returnsWith (throwsOn symbols) (Forall notStale)
    (fst (MockService.searchOptionsData h symbols options st)) /\
  Forall notStale (fst (FetchService.searchOptionsData h symbols options st)) /\
  returnsWith (throwsOn symbols) (Forall (fun o => OptionData.dataAge o = 0))
    (fst (MockService.searchOptionsData h symbols options st)) /\
  Forall (fun o => 0 <= OptionData.dataAge o < 5)
    (fst (FetchService.searchOptionsData h symbols options st)).
Proof.
  intros Hrand. rewrite fetch_search_result.
  repeat split; try apply mock_search_returned; apply sorted_filtered_Forall.
  - apply mockAnalyzeFrom_Forall. intros n [[rawOption stockPrice] symbol] _. reflexivity.
  - apply fetchAnalyzed_Forall. intros d u c. unfold notStale.
    rewrite fetch_record_stale. apply gtb_false. specialize (Hrand u). lra.
  - apply mockAnalyzeFrom_Forall. intros n [[rawOption stockPrice] symbol] _. reflexivity.
  - apply fetchAnalyzed_Forall. intros d u c.
    rewrite fetch_record_dataAge. specialize (Hrand u). lra.
Qed.

Lemma never_stale_witness :
  (forall k : nat, 0 <= Math_random closingHost k < 1) /\
  Forall notStale
    (fst (FetchService.searchOptionsData closingHost ["AAPL"; "ZZZZ"; "MSFT"]
            defaultOptions initialState)).
Proof.
  assert (Hrand : forall k : nat, 0 <= Math_random closingHost k < 1)
    by (intros k; destruct k; cbn; lra).
  split; [exact Hrand |].
  exact (proj1 (proj2 (never_stale closingHost ["AAPL"; "ZZZZ"; "MSFT"]
                         defaultOptions initialState Hrand))).
Defined.

(** *** Repeated analysis *)

(** Two analyses of the same contract in a row, at the same reading of the
    clock: the first record has a [dataAge] of 0, the second of 2.5. *)
Lemma repeat_analysis_counterexample :
  let first :=
    FetchService.processOptionData closingHost aaplCall 185.50 "AAPL" initialState in
  let second :=
    FetchService.processOptionData closingHost aaplCall 185.50 "AAPL" (snd first) in
  Date_now closingHost (dateReads initialState) =
    Date_now closingHost (dateReads (snd first)) /\
  fst first <> fst second.
Proof.
  cbv zeta. split; [reflexivity |].
  rewrite !fetch_process_run. cbn [fst snd dateReads randomDraws initialState].
  intros Heq. apply (f_equal OptionData.dataAge) in Heq.
  rewrite !fetch_record_dataAge in Heq. cbn in Heq. lra.
Qed.

(** C9, amended.  Two analyses of one contract at the same stock price and
    the same reading of the clock give the same record in the table-backed
    pipeline; in the fetch-backed pipeline, with draws in [0, 1), they agree in
    every field but [dataAge], which is five times a fresh [Math.random()]. *)
Theorem repeat_analysis (h : Host) (rawOption : RawOptionData.t)
    (stockPrice : R) (name : string) (st1 st2 : State) :
  Date_now h (dateReads st1) = Date_now h (dateReads st2) ->
  0 <= Math_random h (randomDraws st1) < 1 ->
  0 <= Math_random h (randomDraws st2) < 1 ->
  fst (MockService.processOptionData h rawOption stockPrice name st1) =
    fst (MockService.processOptionData h rawOption stockPrice name st2) /\
  (forall a : R,
      withDataAge a (fst (FetchService.processOptionData h rawOption stockPrice name st1)) =
      withDataAge a (fst (FetchService.processOptionData h rawOption stockPrice name st2))) /\
  OptionData.dataAge (fst (FetchService.processOptionData h rawOption stockPrice name st1)) =
    Math_random h (randomDraws st1) * 5 /\
  OptionData.dataAge (fst (FetchService.processOptionData h rawOption stockPrice name st2)) =
    Math_random h (randomDraws st2) * 5.
Proof.
  intros Hnow Hu1 Hu2.
  split; [| split; [| split; reflexivity]].
  - unfold MockService.processOptionData, calculateTimeToExpiration, bind, ret, readClock.
    cbn [fst]. rewrite Hnow. reflexivity.
  - intros a.
    unfold FetchService.processOptionData, calculateTimeToExpiration, bind, ret,
      readClock, random, withDataAge.
    cbn -[blackScholes calculateGreeks calculateEdge calculateMoneyness
          calculateSpreadPercent calculateAssignmentProbability hasLiquidityWarning
          hasSpreadWarning gtb Rmax].
    rewrite Hnow, !gtb_false by lra. reflexivity.
Qed.

Lemma repeat_analysis_witness :
  (Date_now closingHost 0 = Date_now closingHost 1 /\
   0 <= Math_random closingHost 0 < 1 /\ 0 <= Math_random closingHost 1 < 1) /\
  fst (MockService.processOptionData closingHost aaplCall 185.50 "AAPL" initialState) =
  fst (MockService.processOptionData closingHost aaplCall 185.50 "AAPL"
         (mkState 1 1 0 [])).
Proof.
  assert (H0 : 0 <= Math_random closingHost 0 < 1) by (cbn; lra).
  assert (H1 : 0 <= Math_random closingHost 1 < 1) by (cbn; lra).
  split; [split; [reflexivity | split; assumption] |].
  exact (proj1 (repeat_analysis closingHost aaplCall 185.50 "AAPL"
                  initialState (mkState 1 1 0 []) eq_refl H0 H1)).
Defined.

(** ** A run after the contracts of the table have expired *)

Lemma mock_record_edge (h : Host) (n : nat) (rawOption : RawOptionData.t)
    (stockPrice : R) (symbol : string) :
  let T := fst (calculateTimeToExpiration h (RawOptionData.expiration rawOption)
                  (mkState n 0 0 [])) in
  let b := blackScholes stockPrice (RawOptionData.strike rawOption) T
             MockService.RISK_FREE_RATE (RawOptionData.impliedVolatility rawOption) in
  OptionData.edge (mockRecordAt h n (rawOption, stockPrice, symbol)) =
  calculateEdge (RawOptionData.lastPrice rawOption)
    (match RawOptionData.optionType rawOption with
     | call => callPrice b
     | put => putPrice b
     end).
Proof. reflexivity. Qed.

Lemma dayAfter_edge (n : nat) (rawOption : RawOptionData.t) (stockPrice : R)
    (symbol : string) :
  OptionData.edge (mockRecordAt dayAfterHost n (rawOption, stockPrice, symbol)) =
  calculateEdge (RawOptionData.lastPrice rawOption)
    (match RawOptionData.optionType rawOption with
     | call => Rmax (stockPrice - RawOptionData.strike rawOption) 0
     | put => Rmax (RawOptionData.strike rawOption - stockPrice) 0
     end).
Proof.
  rewrite mock_record_edge. cbv zeta. rewrite dayAfter_time.
  unfold blackScholes. destruct (Rle_dec 0 0) as [_ | Hn]; [| lra].
  destruct (RawOptionData.optionType rawOption); reflexivity.
Qed.

Lemma edge_of_intrinsic (marketPrice intrinsic : R) :
  intrinsic > 0 ->
  calculateEdge marketPrice (Rmax intrinsic 0) = (marketPrice - intrinsic) / intrinsic * 100.
Proof.
  intros H. rewrite Rmax_left by lra. unfold calculateEdge.
  destruct (Req_dec_T intrinsic 0); [lra | reflexivity].
Qed.

(** The batch scenario, run the day after expiry: AAPL and MSFT resolve,
    ZZZZ does not; the three contracts are priced at their intrinsic values,
    the AAPL put, whose edge equals [minEdge], is kept, and the records come
    out by decreasing edge. *)
Example search_after_expiry :
  exists out,
  fst (MockService.searchOptionsData dayAfterHost ["AAPL"; "ZZZZ"; "MSFT"]
         boundaryOptions initialState) = Returned out /\
  map OptionData.ticker out =
    ["MSFT240816C00410000"; "AAPL240816C00180000"; "AAPL240816P00190000"] /\
  map OptionData.edge out =
    [(12.35 - (415.20 - 410)) / (415.20 - 410) * 100;
     (8.45 - (185.50 - 180)) / (185.50 - 180) * 100;
     (6.25 - (190 - 185.50)) / (190 - 185.50) * 100].
Proof.
  rewrite mock_search_result.
  change (throwsOn ["AAPL"; "ZZZZ"; "MSFT"]) with false. cbv iota.
  eexists. split; [reflexivity |].
  cbn [resolvedContracts flat_map MockService.ownEntry MockService.MOCK_OPTIONS_DATA
       String.eqb Ascii.eqb Bool.eqb contractsOf map MarketData.options MarketData.price
       MarketData.symbol app mockAnalyzeFrom dateReads initialState].
  set (r1 := mockRecordAt dayAfterHost 0 _).
  set (r2 := mockRecordAt dayAfterHost 1 _).
  set (r3 := mockRecordAt dayAfterHost 2 _).
  assert (E1 : OptionData.edge r1 = (8.45 - (185.50 - 180)) / (185.50 - 180) * 100).
  { unfold r1. rewrite dayAfter_edge.
    cbn [RawOptionData.optionType RawOptionData.strike RawOptionData.lastPrice].
    apply edge_of_intrinsic. lra. }
  assert (E2 : OptionData.edge r2 = (6.25 - (190 - 185.50)) / (190 - 185.50) * 100).
  { unfold r2. rewrite dayAfter_edge.
    cbn [RawOptionData.optionType RawOptionData.strike RawOptionData.lastPrice].
    apply edge_of_intrinsic. lra. }
  assert (E3 : OptionData.edge r3 = (12.35 - (415.20 - 410)) / (415.20 - 410) * 100).
  { unfold r3. rewrite dayAfter_edge.
    cbn [RawOptionData.optionType RawOptionData.strike RawOptionData.lastPrice].
    apply edge_of_intrinsic. lra. }
  assert (P1 : passes boundaryOptions r1 = true).
  { apply passes_true. rewrite E1. cbn. lra. }
  assert (P2 : passes boundaryOptions r2 = true).
  { apply passes_true. rewrite E2. cbn. lra. }
  assert (P3 : passes boundaryOptions r3 = true).
  { apply passes_true. rewrite E3. cbn. lra. }
  cbn [filter]. rewrite P1, P2, P3.
  cbn [Array_sort fold_right insertSorted].
  repeat (rewrite ?E1, ?E2, ?E3; progress decide_comparisons; cbn [insertSorted]).
  cbn [map]. rewrite E1, E2, E3. split; reflexivity.
Qed.

(** * Further properties *)

(** ** More on the normal distribution function *)

Lemma tail_poly_mono (a b : R) : 0 <= a -> a <= b -> b <= 1 -> tail_poly a <= tail_poly b.
Proof.
  intros Ha Hab Hb. unfold tail_poly.
  apply Rminus_le.
  match goal with
  | |- ?x - ?y <= 0 =>
      replace (x - y) with
        (- ((b - a) *
            (0.254829592 + -0.284496736 * (a + b) + 1.421413741 * (a*a + a*b + b*b)
             + -1.453152027 * (a*a*a + a*a*b + a*b*b + b*b*b)
             + 1.061405429 * (a*a*a*a + a*a*a*b + a*a*b*b + a*b*b*b + b*b*b*b)))) by lra
  end.
  assert (0 <= 0.254829592 + -0.284496736 * (a + b) + 1.421413741 * (a*a + a*b + b*b)
               + -1.453152027 * (a*a*a + a*a*b + a*b*b + b*b*b)
               + 1.061405429 * (a*a*a*a + a*a*a*b + a*a*b*b + a*b*b*b + b*b*b*b)) by nra.
  nra.
Qed.

Lemma normalCDF_tailValue (x : R) :
  normalCDF x = 0.5 * (1 + (if Rlt_dec x 0 then -1 else 1) * tailValue (Rabs x / sqrt 2)).
Proof. reflexivity. Qed.

Lemma tailValue_range (u : R) : 0 <= u -> 0.000000001 <= tailValue u <= 1.
Proof.
  intros Hu. unfold tailValue.
  pose proof (tail_poly_bounds _ (tail_arg_range _ Hu)) as Hq.
  assert (He : 0 < exp (- u * u) <= 1) by (apply exp_nonpos_range; nra).
  nra.
Qed.

Lemma tail_arg_anti (u v : R) :
  0 <= u -> u <= v -> 1 / (1 + 0.3275911 * v) <= 1 / (1 + 0.3275911 * u).
Proof.
  intros Hu Huv. unfold Rdiv. rewrite !Rmult_1_l.
  apply Rinv_le_contravar; nra.
Qed.

Lemma tailValue_mono (u v : R) : 0 <= u -> u <= v -> tailValue u <= tailValue v.
Proof.
  intros Hu Huv. unfold tailValue.
  pose proof (tail_arg_range u Hu) as Htu.
  pose proof (tail_arg_range v ltac:(lra)) as Htv.
  pose proof (tail_arg_anti u v Hu Huv) as Ht.
  pose proof (tail_poly_mono _ _ (proj1 Htv) Ht (proj2 Htu)) as Hq.
  pose proof (tail_poly_bounds _ Htv) as Hqv.
  assert (He : exp (- v * v) <= exp (- u * u)).
  { destruct (Req_dec (- v * v) (- u * u)) as [-> | Hne]; [lra |].
    left. apply exp_increasing. nra. }
  pose proof (exp_pos (- v * v)) as Hev.
  nra.
Qed.

Lemma scaled_abs_mono (x y : R) : Rabs x <= Rabs y -> Rabs x / sqrt 2 <= Rabs y / sqrt 2.
Proof.
  intros H. apply Rmult_le_compat_r; [| exact H].
  left. apply Rinv_0_lt_compat, sqrt_lt_R0. lra.
Qed.

(** X1. Over the reals, [normalCDF] stays between 0 and 1 and never takes a
    value strictly between 0.4999999995 and 0.5000000005: it is at least the
    latter from 0 on and at most the former below 0.  The values at [x] and
    [- x] add up to 1, except at 0, where they add up to 1.000000001. *)
Theorem normalCDF_gap (x : R) :
  0 <= normalCDF x <= 1 /\
  (0 <= x -> 0.5000000005 <= normalCDF x) /\
  (x < 0 -> normalCDF x <= 0.4999999995) /\
  (x <> 0 -> normalCDF x + normalCDF (- x) = 1) /\
  (x = 0 -> normalCDF x + normalCDF (- x) = 1.000000001).
Proof.
  split; [| split; [| split; [| split]]].
  - apply normalCDF_range.
  - rewrite normalCDF_tailValue.
    pose proof (tailValue_range _ (scaled_abs_nonneg x)) as Hy.
    destruct (Rlt_dec x 0); intros; lra.
  - rewrite normalCDF_tailValue.
    pose proof (tailValue_range _ (scaled_abs_nonneg x)) as Hy.
    destruct (Rlt_dec x 0); intros; lra.
  - apply normalCDF_opp.
  - intros ->. rewrite Ropp_0, normalCDF_0. lra.
Qed.

Lemma normalCDF_increasing (x y : R) : x <= y -> normalCDF x <= normalCDF y.
Proof.
  intros Hxy. rewrite !normalCDF_tailValue.
  pose proof (tailValue_range _ (scaled_abs_nonneg x)) as Hx.
  pose proof (tailValue_range _ (scaled_abs_nonneg y)) as Hy.
  destruct (Rlt_dec x 0) as [Hx0 | Hx0], (Rlt_dec y 0) as [Hy0 | Hy0]; try lra.
  - assert (H : tailValue (Rabs y / sqrt 2) <= tailValue (Rabs x / sqrt 2)).
    { apply tailValue_mono; [apply scaled_abs_nonneg |].
      apply scaled_abs_mono. rewrite !Rabs_left by lra. lra. }
    lra.
  - assert (H : tailValue (Rabs x / sqrt 2) <= tailValue (Rabs y / sqrt 2)).
    { apply tailValue_mono; [apply scaled_abs_nonneg |].
      apply scaled_abs_mono. rewrite !Rabs_pos_eq by lra. lra. }
    lra.
Qed.

(** X2. Over the reals, that is for the exact value of the formula, the
    rounding of doubles set aside, [normalCDF] never decreases: a larger
    argument gives a value that is at least as large, also across 0, where
    the approximation jumps.  (Rounded to doubles, two arguments a few units
    in the last place apart can come out in the other order.) *)
Theorem normalCDF_monotone (x y : R) :
  x <= y -> normalCDF x <= normalCDF y /\ normalCDF (- y) <= normalCDF (- x).
Proof.
  intros Hxy. split; apply normalCDF_increasing; lra.
Qed.

Lemma normalCDF_monotone_witness :
  -1 <= 2 /\ normalCDF (-1) <= normalCDF 2.
Proof.
  assert (H : -1 <= 2) by lra.
  split; [exact H | exact (proj1 (normalCDF_monotone (-1) 2 H))].
Defined.

(** ** More on prices and Greeks *)

(** X3. Over the reals, before expiry and for a positive stock price,
    strike and volatility, the call price of [blackScholes] lies between
    minus the discounted strike and the stock price, the put price between
    minus the stock price and the discounted strike, and [d2] is [d1] less
    [sigma * sqrt T].  (At a volatility of 0 the source divides by zero.) *)
Theorem blackScholes_price_bounds (S K T r sigma : R) :
  S > 0 -> K > 0 -> T > 0 -> sigma > 0 ->
  let b := blackScholes S K T r sigma in
  - (K * exp (- r * T)) <= callPrice b <= S /\
  - S <= putPrice b <= K * exp (- r * T) /\
  d2 b = d1 b - sigma * sqrt T.
Proof.
  intros HS HK HT Hs b. subst b. unfold blackScholes.
  destruct (Rle_dec T 0) as [Hle | _]; [lra |].
  cbn [callPrice putPrice d1 d2].
  set (x1 := (ln (S / K) + (r + 0.5 * sigma * sigma) * T) / (sigma * sqrt T)).
  pose proof (normalCDF_range x1). pose proof (normalCDF_range (- x1)).
  pose proof (normalCDF_range (x1 - sigma * sqrt T)).
  pose proof (normalCDF_range (- (x1 - sigma * sqrt T))).
  pose proof (exp_pos (- r * T)) as HD.
  set (D := exp (- r * T)) in *.
  assert (HKD : 0 < K * D) by (apply Rmult_lt_0_compat; lra).
  set (KD := K * D) in *.
  repeat split; try reflexivity; nra.
Qed.

Lemma blackScholes_price_bounds_witness :
  (185.5 > 0 /\ 180 > 0 /\ 0.25 > 0 /\ 0.28 > 0) /\
  callPrice (blackScholes 185.5 180 0.25 0.045 0.28) <= 185.5.
Proof.
  split; [lra |].
  refine (proj2 (proj1 (blackScholes_price_bounds 185.5 180 0.25 0.045 0.28 _ _ _ _))); lra.
Defined.

(** At and after expiry the two prices are the two sides of [S - K]. *)
Lemma blackScholes_expired_parity (S K T r sigma : R) :
  T <= 0 ->
  let b := blackScholes S K T r sigma in
  callPrice b >= 0 /\ putPrice b >= 0 /\
  callPrice b - putPrice b = S - K /\
  callPrice b * putPrice b = 0 /\
  nd1 b + nMinusD1 b = 1 /\ nd2 b + nMinusD2 b = 1.
Proof.
  intros HT b. subst b. unfold blackScholes.
  destruct (Rle_dec T 0) as [_ | Hn]; [| contradiction].
  cbn [callPrice putPrice nd1 nd2 nMinusD1 nMinusD2].
  unfold Rmax. destruct (Rle_dec (S - K) 0), (Rle_dec (K - S) 0), (Rgt_dec S K);
    repeat split; nra.
Qed.

(** X4. Before expiry and for a positive stock price, strike and
    volatility, the deltas of [calculateGreeks] are the [nd1] and minus the
    [nMinusD1] that [blackScholes] reports for the same inputs; and, over
    the reals, the call delta exceeds the put delta by 1, or by 1.000000001
    when [d1] is 0.  (At a volatility of 0 the source divides by zero, and
    at a stock price or strike that is not positive [Math.log] has no finite
    value.) *)
Theorem delta_matches_prices (S K T r sigma : R) :
  S > 0 -> K > 0 -> T > 0 -> sigma > 0 ->
  let b := blackScholes S K T r sigma in
  delta (calculateGreeks S K T r sigma call) = nd1 b /\
  delta (calculateGreeks S K T r sigma put) = - nMinusD1 b /\
  (d1 b <> 0 ->
   delta (calculateGreeks S K T r sigma call)
   - delta (calculateGreeks S K T r sigma put) = 1) /\
  (d1 b = 0 ->
   delta (calculateGreeks S K T r sigma call)
   - delta (calculateGreeks S K T r sigma put) = 1.000000001).
Proof.
  intros HS HK HT Hs b. subst b. unfold blackScholes, calculateGreeks.
  destruct (Rle_dec T 0) as [Hle | _]; [lra |].
  cbn [delta nd1 nMinusD1 d1].
  set (x1 := (ln (S / K) + (r + 0.5 * sigma * sigma) * T) / (sigma * sqrt T)).
  repeat split.
  - intros Hx. pose proof (normalCDF_opp x1 Hx). lra.
  - intros ->. rewrite Ropp_0, normalCDF_0. lra.
Qed.

Lemma delta_matches_prices_witness :
  (185.5 > 0 /\ 180 > 0 /\ 0.25 > 0 /\ 0.28 > 0) /\
  delta (calculateGreeks 185.5 180 0.25 0.045 0.28 call)
  = nd1 (blackScholes 185.5 180 0.25 0.045 0.28).
Proof.
  split; [lra |].
  refine (proj1 (delta_matches_prices 185.5 180 0.25 0.045 0.28 _ _ _ _)); lra.
Defined.

(** X5. Over the reals, before expiry, for a positive stock price, strike
    and volatility and a rate that is not negative, theta is negative for
    calls and puts, rho is not negative for a call and not positive for a
    put.  (On doubles [Math.exp] underflows near expiry and the theta
    computed there is [-0], which is not below 0.) *)
Theorem theta_rho_signs (S K T r sigma : R) :
  S > 0 -> K > 0 -> sigma > 0 -> T > 0 -> r >= 0 ->
  (forall kind : OptionType, theta (calculateGreeks S K T r sigma kind) < 0) /\
  rho (calculateGreeks S K T r sigma call) >= 0 /\
  rho (calculateGreeks S K T r sigma put) <= 0.
Proof.
  intros HS HK Hs HT Hr. unfold calculateGreeks.
  destruct (Rle_dec T 0) as [Hle | _]; [lra |].
  cbn [theta rho].
  assert (HsT : 0 < sqrt T) by (apply sqrt_lt_R0; lra).
  set (x1 := (ln (S / K) + (r + 0.5 * sigma * sigma) * T) / (sigma * sqrt T)).
  pose proof (phi_pos x1) as Hphi.
  set (ph := exp (- 0.5 * x1 * x1) / sqrt (2 * PI)) in *.
  pose proof (normalCDF_range (x1 - sigma * sqrt T)) as H2.
  pose proof (normalCDF_range (- (x1 - sigma * sqrt T))) as H2'.
  pose proof (exp_pos (- r * T)) as HD.
  set (D := exp (- r * T)) in *.
  assert (Hfirst : - S * ph * sigma / (2 * sqrt T) < 0).
  { assert (0 < S * ph * sigma / (2 * sqrt T)).
    { apply Rdiv_lt_0_compat; [| lra].
      apply Rmult_lt_0_compat; [apply Rmult_lt_0_compat |]; lra. }
    unfold Rdiv in *. lra. }
  assert (HKD : 0 <= r * K * D) by (apply Rmult_le_pos; [nra | lra]).
  assert (HKT : 0 <= K * T * D) by (apply Rmult_le_pos; [nra | lra]).
  split; [| split].
  - intros kind.
    assert (Hsecond : 0 <= r * K * D *
              match kind with
              | call => normalCDF (x1 - sigma * sqrt T)
              | put => normalCDF (- (x1 - sigma * sqrt T))
              end) by (destruct kind; apply Rmult_le_pos; lra).
    unfold Rdiv in *. lra.
  - assert (0 <= K * T * D * normalCDF (x1 - sigma * sqrt T))
      by (apply Rmult_le_pos; lra).
    unfold Rdiv. lra.
  - assert (0 <= K * T * D * normalCDF (- (x1 - sigma * sqrt T)))
      by (apply Rmult_le_pos; lra).
    unfold Rdiv. lra.
Qed.

Lemma theta_rho_signs_witness :
  (185.5 > 0 /\ 180 > 0 /\ 0.28 > 0 /\ 0.25 > 0 /\ 0.045 >= 0) /\
  theta (calculateGreeks 185.5 180 0.25 0.045 0.28 put) < 0.
Proof.
  split; [lra |].
  refine (proj1 (theta_rho_signs 185.5 180 0.25 0.045 0.28 _ _ _ _ _) put); lra.
Defined.

(** Vega and gamma share the density at [d1]. *)
Lemma vega_from_gamma (S K T r sigma : R) (kind : OptionType) :
  S > 0 -> sigma > 0 -> T > 0 ->
  vega (calculateGreeks S K T r sigma kind) =
  gamma (calculateGreeks S K T r sigma kind) * S * S * sigma * T / 100.
Proof.
  intros HS Hs HT. unfold calculateGreeks.
  destruct (Rle_dec T 0) as [Hle | _]; [lra |].
  cbn [vega gamma].
  assert (HsT : 0 < sqrt T) by (apply sqrt_lt_R0; lra).
  assert (Hsq : sqrt T * sqrt T = T) by (apply sqrt_sqrt; lra).
  set (ph := exp _ / sqrt (2 * PI)).
  rewrite <- Hsq at 3. field. lra.
Qed.

(** X6. Over the reals, before expiry and for a positive strike and
    volatility, delta does not decrease when the stock price rises, for
    calls and for puts.  (Rounded to doubles, two stock prices a few units
    in the last place apart can give deltas in the other order.) *)
Theorem delta_monotone_in_spot (S1 S2 K T r sigma : R) (kind : OptionType) :
  0 < S1 -> S1 <= S2 -> K > 0 -> sigma > 0 -> T > 0 ->
  delta (calculateGreeks S1 K T r sigma kind) <= delta (calculateGreeks S2 K T r sigma kind).
Proof.
  intros H1 H12 HK Hs HT. unfold calculateGreeks.
  destruct (Rle_dec T 0) as [Hle | _]; [lra |].
  cbn [delta].
  assert (HsT : 0 < sqrt T) by (apply sqrt_lt_R0; lra).
  assert (Hden : 0 < sigma * sqrt T) by (apply Rmult_lt_0_compat; lra).
  assert (Hln : ln (S1 / K) <= ln (S2 / K)).
  { destruct (Req_dec S1 S2) as [-> | Hne]; [lra |].
    left. apply ln_increasing.
    - apply Rdiv_lt_0_compat; lra.
    - apply Rmult_lt_compat_r; [apply Rinv_0_lt_compat; lra | lra]. }
  assert (Hd : (ln (S1 / K) + (r + 0.5 * sigma * sigma) * T) / (sigma * sqrt T)
               <= (ln (S2 / K) + (r + 0.5 * sigma * sigma) * T) / (sigma * sqrt T)).
  { apply Rmult_le_compat_r; [left; apply Rinv_0_lt_compat; exact Hden | lra]. }
  destruct kind.
  - apply normalCDF_increasing. exact Hd.
  - apply Ropp_le_contravar. apply normalCDF_increasing. lra.
Qed.

Lemma delta_monotone_in_spot_witness :
  (0 < 180 /\ 180 <= 185.5 /\ 180 > 0 /\ 0.28 > 0 /\ 0.25 > 0) /\
  delta (calculateGreeks 180 180 0.25 0.045 0.28 put)
  <= delta (calculateGreeks 185.5 180 0.25 0.045 0.28 put).
Proof.
  split; [lra |].
  apply (delta_monotone_in_spot 180 185.5 180 0.25 0.045 0.28 put); lra.
Defined.

(** ** Edge, spread, assignment *)

Lemma edge_scale (c marketPrice theoreticalPrice : R) :
  c <> 0 ->
  calculateEdge (c * marketPrice) (c * theoreticalPrice) =
  calculateEdge marketPrice theoreticalPrice.
Proof.
  intros Hc. unfold calculateEdge.
  destruct (Req_dec_T (c * theoreticalPrice) 0) as [Hz | Hnz],
           (Req_dec_T theoreticalPrice 0) as [Hz' | Hnz']; try reflexivity.
  - apply Rmult_integral in Hz. destruct Hz; contradiction.
  - subst. rewrite Rmult_0_r in Hnz. contradiction.
  - field. split; assumption.
Qed.

(** X7. [calculateEdge] is 0 for a theoretical price of 0.  Otherwise, over
    the reals, the market price is the theoretical price raised by the
    edge, in percent; for a positive theoretical price the edge is at least
    [e] exactly when the market price is at least the theoretical price
    raised by [e] percent; and the edge does not change when both prices
    are multiplied by the same number other than 0.  (On doubles these
    hold up to the rounding of the quotient only.) *)
Theorem edge_recovers_market_price (marketPrice theoreticalPrice : R) :
  (theoreticalPrice = 0 -> calculateEdge marketPrice theoreticalPrice = 0) /\
  (theoreticalPrice <> 0 ->
   marketPrice = theoreticalPrice * (1 + calculateEdge marketPrice theoreticalPrice / 100)) /\
  (theoreticalPrice > 0 ->
   forall e : R,
     calculateEdge marketPrice theoreticalPrice >= e <->
     marketPrice >= theoreticalPrice * (1 + e / 100)) /\
  (forall c : R, c <> 0 ->
     calculateEdge (c * marketPrice) (c * theoreticalPrice) =
     calculateEdge marketPrice theoreticalPrice).
Proof.
  split; [| split; [| split; [| intros c; apply edge_scale]]];
    unfold calculateEdge;
    destruct (Req_dec_T theoreticalPrice 0) as [Hz | Hnz]; intros; try lra.
  - field. exact Hnz.
  - assert (Hx : (marketPrice - theoreticalPrice) / theoreticalPrice * theoreticalPrice
                 = marketPrice - theoreticalPrice) by (field; exact Hnz).
    set (x := (marketPrice - theoreticalPrice) / theoreticalPrice) in *.
    split; intros; nra.
Qed.

(** X8. [calculateSpreadPercent] is 0, and raises no warning, when the bid
    or the ask is 0.  For a positive bid and ask, over the reals, the spread
    warning is raised exactly when 19 times the ask exceeds 21 times the
    bid, the percentage lies strictly between -200 and 200, changes sign
    when bid and ask are swapped, and is not negative exactly when the ask
    is at least the bid.  (On doubles a spread within rounding of 10 can
    fall on the other side of the threshold.) *)
Theorem spread_warning_threshold (bid ask : R) :
  (bid = 0 \/ ask = 0 ->
   calculateSpreadPercent bid ask = 0 /\
   hasSpreadWarning (calculateSpreadPercent bid ask) = false) /\
  (bid > 0 -> ask > 0 ->
   (hasSpreadWarning (calculateSpreadPercent bid ask) = true <-> 19 * ask > 21 * bid) /\
   -200 < calculateSpreadPercent bid ask < 200 /\
   calculateSpreadPercent ask bid = - calculateSpreadPercent bid ask /\
   (calculateSpreadPercent bid ask >= 0 <-> ask >= bid)).
Proof.
  unfold calculateSpreadPercent, hasSpreadWarning, gtb. split.
  - intros [-> | ->].
    + destruct (Req_dec_T 0 0); [| lra]. destruct (Rgt_dec 0 10); [lra | tauto].
    + destruct (Req_dec_T bid 0); [destruct (Rgt_dec 0 10); [lra | tauto] |].
      destruct (Req_dec_T 0 0); [| lra]. destruct (Rgt_dec 0 10); [lra | tauto].
  - intros Hb Ha.
    destruct (Req_dec_T bid 0); [lra |]. destruct (Req_dec_T ask 0); [lra |].
    assert (Hm : 0 < (bid + ask) / 2) by lra.
    assert (Hx : (ask - bid) / ((bid + ask) / 2) * ((bid + ask) / 2) = ask - bid)
      by (field; lra).
    assert (Hy : (bid - ask) / ((ask + bid) / 2) = - ((ask - bid) / ((bid + ask) / 2)))
      by (field; lra).
    rewrite Hy.
    set (x := (ask - bid) / ((bid + ask) / 2)) in *.
    set (m := (bid + ask) / 2) in *.
    assert (Hmv : m = (bid + ask) / 2) by reflexivity. clearbody m x.
    repeat split; intros; try (destruct (Rgt_dec (x * 100) 10); try discriminate); try nra.
Qed.

(** X9. For a positive stock price, strike and volatility, the assignment
    probability computed from the delta of [calculateGreeks] lies between 0
    and 100, is 0 at and after expiry, and, over the reals, before expiry
    the probabilities of the call and of the put add up to 100 unless [d1]
    is 0.  (On doubles the sum can differ from 100 in the last place.) *)
Theorem assignment_probability_range (S K T r sigma : R) :
  S > 0 -> K > 0 -> sigma > 0 ->
  let p := fun kind =>
    calculateAssignmentProbability (delta (calculateGreeks S K T r sigma kind)) kind in
  (forall kind : OptionType, 0 <= p kind <= 100) /\
  (T <= 0 -> forall kind : OptionType, p kind = 0) /\
  (T > 0 -> d1 (blackScholes S K T r sigma) <> 0 -> p call + p put = 100).
Proof.
  intros HS HK Hs p. subst p. cbv beta.
  unfold calculateAssignmentProbability, calculateGreeks, blackScholes.
  destruct (Rle_dec T 0) as [Hle | Hgt]; cbn [delta d1].
  - rewrite Rabs_R0. repeat split; intros; try destruct kind; lra.
  - set (x1 := (ln (S / K) + (r + 0.5 * sigma * sigma) * T) / (sigma * sqrt T)).
    pose proof (normalCDF_range x1) as H1. pose proof (normalCDF_range (- x1)) as H2.
    split; [| split].
    + intros kind. destruct kind; rewrite ?Rabs_Ropp, Rabs_pos_eq by lra; lra.
    + intros HT. lra.
    + intros _ Hx. pose proof (normalCDF_opp x1 Hx).
      rewrite Rabs_Ropp, !Rabs_pos_eq by lra. lra.
Qed.

Lemma assignment_probability_range_witness :
  (185.5 > 0 /\ 180 > 0 /\ 0.28 > 0) /\
  0 <= calculateAssignmentProbability
         (delta (calculateGreeks 185.5 180 0.25 0.045 0.28 put)) put <= 100.
Proof.
  split; [lra |].
  refine (proj1 (assignment_probability_range 185.5 180 0.25 0.045 0.28 _ _ _) put); lra.
Defined.

(** X10. For a positive stock price, [getStrategyType] applied to the
    moneyness of a contract answers covered-call exactly for a call struck
    below the stock price, cash-secured-put exactly for a put struck above
    it, and speculative for every other contract. *)
Theorem strategy_by_moneyness (optionType : OptionType) (stockPrice strike : R) :
  stockPrice > 0 ->
  let s := MockService.getStrategyType optionType (calculateMoneyness stockPrice strike) in
  (s = covered_call <-> optionType = call /\ strike < stockPrice) /\
  (s = cash_secured_put <-> optionType = put /\ strike > stockPrice) /\
  (s = speculative <->
   (optionType = call /\ strike >= stockPrice) \/ (optionType = put /\ strike <= stockPrice)).
Proof.
  intros HS s. subst s.
  unfold MockService.getStrategyType, calculateMoneyness, ltb, gtb.
  assert (Hx : (strike - stockPrice) / stockPrice * stockPrice = strike - stockPrice)
    by (field; lra).
  set (x := (strike - stockPrice) / stockPrice) in *. clearbody x.
  destruct optionType; cbn [OptionType_eqb andb];
    destruct (Rlt_dec (x * 100) 0), (Rgt_dec (x * 100) 0);
    repeat split; intros; try discriminate; try tauto;
    repeat match goal with
           | H : _ /\ _ |- _ => destruct H
           | H : _ \/ _ |- _ => destruct H
           end; try discriminate; try nra;
    try (left; split; [reflexivity | nra]); try (right; split; [reflexivity | nra]).
Qed.

Lemma strategy_by_moneyness_witness :
  185.50 > 0 /\
  (MockService.getStrategyType call (calculateMoneyness 185.50 180) = covered_call <->
   call = call /\ 180 < 185.50).
Proof.
  split; [lra |].
  refine (proj1 (strategy_by_moneyness call 185.50 180 _)). lra.
Defined.

(** ** Time to expiration *)

(** X11. [calculateTimeToExpiration] reads the clock once, is never
    negative, is 0 exactly when 16:00 (UTC-5) of the expiration date is not
    after the clock, and otherwise is the time left in years of 365.25
    days. *)
Theorem timeToExpiration_clamped (h : Host) (expirationDate : string) (st : State) :
  let expiry := Date_parse h (expirationDate ++ "T16:00:00-05:00") in
  let now := Date_now h (dateReads st) in
  let T := fst (calculateTimeToExpiration h expirationDate st) in
  T >= 0 /\
  (T = 0 <-> expiry <= now) /\
  (expiry > now -> T * 365.25 * 86400000 = expiry - now) /\
  snd (calculateTimeToExpiration h expirationDate st) =
    mkState (S (dateReads st)) (randomDraws st) (requests st) (progressLog st).
Proof.
  cbv zeta. rewrite time_read.
  set (e := Date_parse h _). set (n := Date_now h _).
  unfold Rmax. destruct (Rle_dec 0 ((e - n) / (1000 * 60 * 60 * 24) / 365.25));
    repeat split; intros; try reflexivity; try lra.
Qed.

(** ** What a search consumes *)

Lemma contractsOf_length (symbolData : MarketData.t) :
  List.length (contractsOf symbolData) = List.length (MarketData.options symbolData).
Proof. unfold contractsOf. apply length_map. Qed.

Lemma resolvedContracts_inherited (symbol : string) :
  inheritedName symbol = true -> resolvedContracts [symbol] = [].
Proof.
  intros H. unfold resolvedContracts. cbn [flat_map].
  pose proof (lookup_cases symbol) as Hc.
  destruct (MockService.lookup MockService.MOCK_OPTIONS_DATA symbol);
    destruct Hc as [Ho Hi]; try congruence.
  now rewrite Ho.
Qed.

Lemma mock_searchLoop_state (h : Host) (options : SearchOptions.t) (N : nat)
    (symbols : list string) : forall (i : nat) (acc : list OptionData.t) (st : State),
  let st' := snd (MockService.searchLoop h options N i symbols acc st) in
  dateReads st' = (dateReads st + List.length (resolvedContracts (visited symbols)))%nat /\
  randomDraws st' = (randomDraws st + List.length (visited symbols))%nat /\
  requests st' = requests st.
Proof.
  induction symbols as [| symbol symbols' IH]; intros i acc st.
  - cbn. repeat split; lia.
  - cbv zeta. rewrite mock_searchLoop_cons. cbv zeta. cbn [visited].
    pose proof (lookup_cases symbol) as Hc.
    destruct (MockService.lookup MockService.MOCK_OPTIONS_DATA symbol) as [symbolData | |];
      destruct Hc as [Ho Hi]; rewrite Hi.
    + cbn [resolvedContracts flat_map]. fold (resolvedContracts (visited symbols')).
      rewrite Ho.
      match goal with
      | |- context [MockService.searchLoop h options N (S i) symbols' ?a ?s] =>
          destruct (IH (S i) a s) as (Hd & Hu & Hq)
      end.
      rewrite Hd, Hu, Hq. cbn [dateReads randomDraws requests List.length].
      rewrite length_app, contractsOf_length. repeat split; lia.
    + rewrite (resolvedContracts_inherited symbol Hi).
      cbn [snd dateReads randomDraws requests List.length]. repeat split; lia.
    + cbn [resolvedContracts flat_map]. fold (resolvedContracts (visited symbols')).
      rewrite Ho.
      match goal with
      | |- context [MockService.searchLoop h options N (S i) symbols' ?a ?s] =>
          destruct (IH (S i) a s) as (Hd & Hu & Hq)
      end.
      rewrite Hd, Hu, Hq. cbn [dateReads randomDraws requests List.length app].
      repeat split; lia.
Qed.

Lemma fetch_searchLoop_state (h : Host) (options : SearchOptions.t) (N : nat)
    (symbols : list string) : forall (i : nat) (acc : list OptionData.t) (st : State),
  let st' := snd (FetchService.searchLoop h options N i symbols acc st) in
  dateReads st' =
    (dateReads st +
     List.length (fetchAnalyzed h (dateReads st) (randomDraws st) (requests st) symbols))%nat /\
  requests st' = (requests st + List.length symbols)%nat /\
  (randomDraws st <= randomDraws st')%nat.
Proof.
  induction symbols as [| symbol symbols' IH]; intros i acc st.
  - cbn. repeat split; lia.
  - cbv zeta. rewrite fetch_searchLoop_cons. cbv zeta. cbn [fetchAnalyzed].
    destruct (fetchOptions h (requests st) symbol) as [| [| symbolData results]];
      match goal with
      | |- context [FetchService.searchLoop h options N (S i) symbols' ?a ?s] =>
          destruct (IH (S i) a s) as (Hd & Hq & Hu)
      end;
      rewrite Hd, Hq; cbn [dateReads randomDraws requests List.length] in *;
      rewrite ?length_app.
    + repeat split; lia.
    + repeat split; lia.
    + assert (Hl : forall cs d u, List.length (fetchAnalyzeFrom h d u cs) = List.length cs).
      { induction cs as [| c cs IHc]; intros d u; cbn; [reflexivity | now rewrite IHc]. }
      rewrite Hl, contractsOf_length. repeat split; lia.
Qed.

Lemma mock_search_state (h : Host) (symbols : list string) (options : SearchOptions.t)
    (st : State) :
  let st' := snd (MockService.searchOptionsData h symbols options st) in
  let loop := snd (MockService.searchLoop h options (List.length symbols) 0 symbols [] st) in
  dateReads st' = dateReads loop /\ randomDraws st' = randomDraws loop /\
  requests st' = requests loop.
Proof.
  cbv zeta. unfold MockService.searchOptionsData, bind.
  destruct (MockService.searchLoop h options (List.length symbols) 0 symbols [] st)
    as [[all |] st1]; [| cbn; tauto].
  rewrite report_run. cbn. tauto.
Qed.

Lemma fetch_search_state (h : Host) (symbols : list string) (options : SearchOptions.t)
    (st : State) :
  let st' := snd (FetchService.searchOptionsData h symbols options st) in
  let loop := snd (FetchService.searchLoop h options (List.length symbols) 0 symbols [] st) in
  dateReads st' = dateReads loop /\ randomDraws st' = randomDraws loop /\
  requests st' = requests loop.
Proof.
  cbv zeta. unfold FetchService.searchOptionsData, bind.
  destruct (FetchService.searchLoop h options (List.length symbols) 0 symbols [] st)
    as [all st1].
  rewrite report_run. cbn. tauto.
Qed.

(** X12. What a search consumes.  The table-backed service sends no
    request, draws one random number per symbol it comes to and reads the
    clock once per contract of those symbols that its table resolves; it
    comes to every symbol unless one is a name inherited from
    [Object.prototype], at which it throws.  The fetch-backed service sends
    one request per symbol and reads the clock once per contract it
    analyzes.  This holds with and without a progress callback. *)
Theorem search_consumption (h : Host) (symbols : list string)
    (options : SearchOptions.t) (st : State) :
  let m := snd (MockService.searchOptionsData h symbols options st) in
  let f := snd (FetchService.searchOptionsData h symbols options st) in
  requests m = requests st /\
  randomDraws m = (randomDraws st + List.length (visited symbols))%nat /\
  dateReads m = (dateReads st + List.length (resolvedContracts (visited symbols)))%nat /\
  (throwsOn symbols = false -> visited symbols = symbols) /\
  (throwsOn symbols = true ->
   fst (MockService.searchOptionsData h symbols options st) = Threw /\
   exists before name,
     visited symbols = (before ++ [name])%list /\
     inheritedName name = true /\ throwsOn before = false) /\
  requests f = (requests st + List.length symbols)%nat /\
  dateReads f =
    (dateReads st +
     List.length (fetchAnalyzed h (dateReads st) (randomDraws st) (requests st) symbols))%nat.
Proof.
  cbv zeta.
  destruct (mock_search_state h symbols options st) as (-> & -> & ->).
  destruct (fetch_search_state h symbols options st) as (-> & _ & ->).
  destruct (mock_searchLoop_state h options (List.length symbols) symbols 0 [] st)
    as (Hmd & Hmu & Hmq).
  destruct (fetch_searchLoop_state h options (List.length symbols) symbols 0 [] st)
    as (Hfd & Hfq & _).
  repeat split; try assumption.
  - apply visited_all.
  - rewrite mock_search_result. now rewrite H.
  - now apply visited_stops.
Qed.

(** ** Searches that find nothing *)

Lemma undefined_own (symbol : string) :
  MockService.lookup MockService.MOCK_OPTIONS_DATA symbol = Undefined ->
  MockService.ownEntry MockService.MOCK_OPTIONS_DATA symbol = None /\
  inheritedName symbol = false.
Proof. intros H. pose proof (lookup_cases symbol) as Hc. now rewrite H in Hc. Qed.

Lemma resolvedContracts_none (symbols : list string) :
  (forall s, In s symbols ->
     MockService.lookup MockService.MOCK_OPTIONS_DATA s = Undefined) ->
  resolvedContracts symbols = [] /\ throwsOn symbols = false.
Proof.
  induction symbols as [| s l IH]; intros H; [now split |].
  cbn [resolvedContracts flat_map throwsOn existsb].
  fold (resolvedContracts l). fold (throwsOn l).
  destruct (undefined_own s (H s (or_introl eq_refl))) as [-> ->].
  apply IH. intros s' Hs'. apply H. now right.
Qed.

Lemma fetchAnalyzed_none (h : Host) (symbols : list string) :
  (forall q s, In s symbols ->
     fetchOptions h q s = FetchFailed \/ fetchOptions h q s = FetchResults []) ->
  forall d u q, fetchAnalyzed h d u q symbols = [].
Proof.
  induction symbols as [| s l IH]; intros H d u q; [reflexivity |].
  cbn [fetchAnalyzed].
  destruct (H q s (or_introl eq_refl)) as [-> | ->];
    apply IH; intros q' s' Hs'; apply H; now right.
Qed.

(** X13. A search none of whose symbols is resolved (the table has neither
    an entry nor an inherited member under it; every request fails or is
    answered by an empty array) returns the empty list in both services, and
    still reports progress once per symbol and once at the end. *)
Theorem search_nothing_resolves (h : Host) (symbols : list string)
    (options : SearchOptions.t) (st : State) :
  (forall s, In s symbols ->
     MockService.lookup MockService.MOCK_OPTIONS_DATA s = Undefined) ->
  (forall q s, In s symbols ->
     fetchOptions h q s = FetchFailed \/ fetchOptions h q s = FetchResults []) ->
  fst (MockService.searchOptionsData h symbols options st) = Returned [] /\
  fst (FetchService.searchOptionsData h symbols options st) = [] /\
  (SearchOptions.onProgress options = true ->
   List.length (progressLog (snd (MockService.searchOptionsData h symbols options st))) =
     (List.length (progressLog st) + S (List.length symbols))%nat /\
   List.length (progressLog (snd (FetchService.searchOptionsData h symbols options st))) =
     (List.length (progressLog st) + S (List.length symbols))%nat).
Proof.
  intros Hm Hf.
  destruct (resolvedContracts_none symbols Hm) as [Hr Ht].
  rewrite mock_search_result, fetch_search_result, Ht, Hr.
  rewrite (fetchAnalyzed_none h symbols Hf).
  repeat split; try reflexivity;
    rewrite ?mock_search_log, ?fetch_search_log, H, ?Ht;
    rewrite length_app; f_equal; apply (proj1 (progressCalls_shape _ symbols)).
Qed.

Lemma search_nothing_resolves_witness :
  fst (MockService.searchOptionsData dayAfterHost ["ZZZZ"; "QQQ"] defaultOptions initialState)
  = Returned [].
Proof.
  refine (proj1 (search_nothing_resolves dayAfterHost ["ZZZZ"; "QQQ"] defaultOptions
                   initialState _ _)).
  - intros s [<- | [<- | []]]; reflexivity.
  - intros q s _. left. reflexivity.
Defined.

(** ** More on what a search returns *)

Lemma sorted_filtered_passes (options : SearchOptions.t) (analyzed : list OptionData.t) :
  Forall (fun o => passes options o = true)
    (Array_sort (fun a b => OptionData.edge b - OptionData.edge a)
       (filter (passes options) analyzed)).
Proof.
  eapply Permutation_Forall; [symmetry; apply (Array_sort_perm OptionData.edge) |].
  rewrite Forall_forall. intros o Ho. now apply filter_In in Ho.
Qed.

Lemma Forall_both {A : Type} (P Q : A -> Prop) (l : list A) :
  Forall P l -> Forall Q l -> Forall (fun a => P a /\ Q a) l.
Proof. intros HP HQ. rewrite Forall_forall in *. intros a Ha. split; auto. Qed.

Lemma mock_table_keys (key : string) (symbolData : MarketData.t) :
  MockService.ownEntry MockService.MOCK_OPTIONS_DATA key = Some symbolData ->
  MarketData.symbol symbolData = key.
Proof.
  intros H. apply lookup_In in H. cbn in H.
  destruct H as [H | [H | [H | []]]]; injection H as <- <-; reflexivity.
Qed.

Lemma resolvedContracts_symbols (symbols : list string) (c : RawOptionData.t * R * string) :
  In c (resolvedContracts symbols) -> In (snd c) symbols.
Proof.
  unfold resolvedContracts. rewrite in_flat_map. intros (s & Hs & Hc).
  destruct (MockService.ownEntry MockService.MOCK_OPTIONS_DATA s) as [d |] eqn:Hl;
    [| contradiction].
  unfold contractsOf in Hc. apply in_map_iff in Hc. destruct Hc as (o & <- & _).
  cbn [snd]. now rewrite (mock_table_keys s d Hl).
Qed.

(** X14. The table-backed service returns only records whose [symbol] was
    asked for, never more records than the table holds contracts for the
    symbols asked, and no record for a symbol that was not asked.  (It
    returns unless it is asked for a name inherited from
    [Object.prototype].) *)
Theorem mock_search_within_request (h : Host) (symbols : list string)
    (options : SearchOptions.t) (st : State) :
  returnsWith (throwsOn symbols)
    (fun out =>
       Forall (fun o => In (OptionData.symbol o) symbols) out /\
       (List.length out <= List.length (resolvedContracts symbols))%nat /\
       (forall s, ~ In s symbols -> Forall (fun o => OptionData.symbol o <> s) out))
    (fst (MockService.searchOptionsData h symbols options st)).
Proof.
  apply mock_search_returned.
  assert (HF : Forall (fun o => In (OptionData.symbol o) symbols)
                 (Array_sort (fun a b => OptionData.edge b - OptionData.edge a)
                    (filter (passes options)
                       (mockAnalyzeFrom h (dateReads st) (resolvedContracts symbols))))).
  { apply sorted_filtered_Forall, mockAnalyzeFrom_Forall.
    intros n [[rawOption stockPrice] symbol] Hc.
    apply resolvedContracts_symbols in Hc. exact Hc. }
  split; [exact HF | split].
  - rewrite (Permutation_length (Array_sort_perm OptionData.edge _)).
    etransitivity; [apply filter_length_le |].
    assert (Hl : forall cs n, List.length (mockAnalyzeFrom h n cs) = List.length cs).
    { induction cs as [| c cs IHc]; intros n; cbn; [reflexivity | now rewrite IHc]. }
    now rewrite Hl.
  - intros s Hs. eapply Forall_impl; [| exact HF].
    cbn. intros o Ho Heq. rewrite Heq in Ho. contradiction.
Qed.

(** *** Liquidity *)

Lemma mock_record_liquidity (h : Host) (n : nat) (c : RawOptionData.t * R * string) :
  let o := mockRecordAt h n c in
  OptionData.hasLiquidityWarning o =
  hasLiquidityWarning (OptionData.volume o) (OptionData.openInterest o).
Proof. destruct c as [[rawOption stockPrice] symbol]. reflexivity. Qed.

Lemma fetch_record_liquidity (h : Host) (d u : nat) (c : RawOptionData.t * R * string) :
  let o := fetchRecordAt h d u c in
  OptionData.hasLiquidityWarning o =
  hasLiquidityWarning (OptionData.volume o) (OptionData.openInterest o).
Proof. destruct c as [[rawOption stockPrice] ticker]. reflexivity. Qed.

Lemma liquidity_after_filter (options : SearchOptions.t) (o : OptionData.t) :
  SearchOptions.minVolume options >= 1 ->
  OptionData.hasLiquidityWarning o =
    hasLiquidityWarning (OptionData.volume o) (OptionData.openInterest o) /\
  passes options o = true ->
  (OptionData.hasLiquidityWarning o = true <-> OptionData.openInterest o < 10).
Proof.
  intros Hmin [-> Hp]. apply passes_true in Hp. destruct Hp as (_ & Hv & _).
  unfold hasLiquidityWarning, ltb.
  destruct (Rlt_dec (OptionData.volume o) 1); [lra |].
  destruct (Rlt_dec (OptionData.openInterest o) 10); cbn; split; intros;
    try discriminate; try tauto; try lra.
Qed.

(** X15. When the filter asks for a volume of at least 1, as the page does,
    a record returned by either service carries the liquidity warning
    exactly when its open interest is below 10: the volume test of
    [hasLiquidityWarning] cannot fire on a record that passed the filter. *)
Theorem liquidity_warning_of_results (h : Host) (symbols : list string)
    (options : SearchOptions.t) (st : State) :
  SearchOptions.minVolume options >= 1 ->
  let thin := fun o : OptionData.t =>
    OptionData.hasLiquidityWarning o = true <-> OptionData.openInterest o < 10 in
  returnsWith (throwsOn symbols) (Forall thin)
    (fst (MockService.searchOptionsData h symbols options st)) /\
  Forall thin (fst (FetchService.searchOptionsData h symbols options st)).
Proof.
  intros Hmin thin. subst thin.
  split; [apply mock_search_returned | rewrite fetch_search_result].
  - eapply Forall_impl; [intros o; apply (liquidity_after_filter options o Hmin) |].
    apply Forall_both; [| apply sorted_filtered_passes].
    apply sorted_filtered_Forall, mockAnalyzeFrom_Forall.
    intros n c _. apply mock_record_liquidity.
  - eapply Forall_impl; [intros o; apply (liquidity_after_filter options o Hmin) |].
    apply Forall_both; [| apply sorted_filtered_passes].
    apply sorted_filtered_Forall, fetchAnalyzed_Forall.
    intros d u c. apply fetch_record_liquidity.
Qed.

Lemma liquidity_warning_of_results_witness :
  SearchOptions.minVolume defaultOptions >= 1 /\
  returnsWith (throwsOn ["AAPL"; "MSFT"])
    (Forall (fun o : OptionData.t =>
               OptionData.hasLiquidityWarning o = true <-> OptionData.openInterest o < 10))
    (fst (MockService.searchOptionsData closingHost ["AAPL"; "MSFT"] defaultOptions
            initialState)).
Proof.
  assert (H : SearchOptions.minVolume defaultOptions >= 1) by (cbn; lra).
  split; [exact H |].
  exact (proj1 (liquidity_warning_of_results closingHost ["AAPL"; "MSFT"] defaultOptions
                  initialState H)).
Defined.

(** *** Ties *)

(** X16. Records with the same edge come out of either service in the order
    in which they were analyzed: the sort is stable. *)
Theorem search_ties_keep_order (h : Host) (symbols : list string)
    (options : SearchOptions.t) (st : State) (k : R) :
  let sameEdge := fun o : OptionData.t =>
    if Req_dec_T (OptionData.edge o) k then true else false in
  returnsWith (throwsOn symbols)
    (fun out =>
       filter sameEdge out =
       filter sameEdge
         (filter (passes options)
            (mockAnalyzeFrom h (dateReads st) (resolvedContracts symbols))))
    (fst (MockService.searchOptionsData h symbols options st)) /\
  filter sameEdge (fst (FetchService.searchOptionsData h symbols options st)) =
    filter sameEdge
      (filter (passes options)
         (fetchAnalyzed h (dateReads st) (randomDraws st) (requests st) symbols)).
Proof.
  cbv zeta. split; [apply mock_search_returned | rewrite fetch_search_result];
    apply (Array_sort_stable OptionData.edge).
Qed.

(** *** Searching a list in two parts *)

Lemma resolvedContracts_app (l1 l2 : list string) :
  resolvedContracts (l1 ++ l2) = (resolvedContracts l1 ++ resolvedContracts l2)%list.
Proof. unfold resolvedContracts. apply flat_map_app. Qed.

Lemma throwsOn_app (l1 l2 : list string) :
  throwsOn (l1 ++ l2) = throwsOn l1 || throwsOn l2.
Proof. apply existsb_app. Qed.

(** X17. Searching a list of symbols with the table-backed service returns
    the same records, up to their order, as searching a first part of the
    list and then, from the state the first search leaves, the rest. *)
Theorem mock_search_in_parts (h : Host) (l1 l2 : list string)
    (options : SearchOptions.t) (st : State) :
  let first := MockService.searchOptionsData h l1 options st in
  let second := MockService.searchOptionsData h l2 options (snd first) in
  returnsWith (throwsOn (l1 ++ l2))
    (fun out =>
       exists out1 out2,
         fst first = Returned out1 /\ fst second = Returned out2 /\
         Permutation out (out1 ++ out2))
    (fst (MockService.searchOptionsData h (l1 ++ l2) options st)).
Proof.
  cbv zeta. rewrite !mock_search_result, throwsOn_app.
  destruct (throwsOn l1) eqn:H1; [reflexivity |].
  destruct (throwsOn l2) eqn:H2; [reflexivity |].
  cbn [orb returnsWith]. split; [reflexivity |].
  do 2 eexists. split; [reflexivity | split; [reflexivity |]].
  destruct (mock_search_state h l1 options st) as (-> & _ & _).
  destruct (mock_searchLoop_state h options (List.length l1) l1 0 [] st) as (-> & _ & _).
  rewrite (visited_all l1 H1).
  rewrite resolvedContracts_app, mockAnalyzeFrom_app, filter_app.
  rewrite !(Array_sort_perm OptionData.edge). reflexivity.
Qed.

(** ** Characters *)

Lemma upperLetter_plain (c : ascii) :
  isUpperLetter c = true ->
  isSeparator c = false /\ isWhiteSpace c = false /\ toUpperCaseChar c = c.
Proof.
  destruct c as [[] [] [] [] [] [] [] []]; vm_compute; intros H;
    try discriminate H; repeat split.
Qed.

Lemma letter_plain (c : ascii) :
  isUpperLetter (toUpperCaseChar c) = true ->
  isSeparator c = false /\ isWhiteSpace c = false.
Proof.
  destruct c as [[] [] [] [] [] [] [] []]; vm_compute; intros H;
    try discriminate H; repeat split.
Qed.

Lemma toUpperCaseChar_facts (c : ascii) :
  toUpperCaseChar (toUpperCaseChar c) = toUpperCaseChar c /\
  isWhiteSpace (toUpperCaseChar c) = isWhiteSpace c /\
  isSeparator (toUpperCaseChar c) = isSeparator c.
Proof. destruct c as [[] [] [] [] [] [] [] []]; vm_compute; repeat split. Qed.

Lemma whiteSpace_separator (c : ascii) : isWhiteSpace c = true -> isSeparator c = true.
Proof. intros H. unfold isSeparator. rewrite H. apply orb_true_r. Qed.

(** ** Strings *)

Lemma append_empty_r (s : string) : (s ++ "")%string = s.
Proof. induction s as [| c s IH]; cbn; [reflexivity | now rewrite IH]. Qed.

Lemma append_assoc (a b c : string) : ((a ++ b) ++ c)%string = (a ++ (b ++ c))%string.
Proof. induction a as [| x a IH]; cbn; [reflexivity | now rewrite IH]. Qed.

Lemma trimEnd_noSeparator (s : string) : noSeparator s = true -> trimEnd s = s.
Proof.
  induction s as [| c s IH]; cbn; [reflexivity |].
  intros H. apply andb_true_iff in H. destruct H as [Hc Hs].
  rewrite (IH Hs). destruct s; [| reflexivity].
  destruct (isWhiteSpace c) eqn:Hw; [| reflexivity].
  apply whiteSpace_separator in Hw. rewrite Hw in Hc. discriminate.
Qed.

Lemma trim_noSeparator (s : string) : noSeparator s = true -> trim s = s.
Proof.
  intros H. unfold trim.
  assert (Hs : trimStart s = s).
  { destruct s as [| c s]; [reflexivity |]. cbn in H |- *.
    apply andb_true_iff in H. destruct H as [Hc _].
    destruct (isWhiteSpace c) eqn:Hw; [| reflexivity].
    apply whiteSpace_separator in Hw. rewrite Hw in Hc. discriminate. }
  rewrite Hs. now apply trimEnd_noSeparator.
Qed.

Lemma trim_starts_plain (c : ascii) (s : string) :
  isWhiteSpace c = false -> isEmpty (trim (String c s)) = false.
Proof.
  intros Hc. unfold trim. cbn [trimStart]. rewrite Hc. cbn [trimEnd].
  destruct (trimEnd s); [rewrite Hc |]; reflexivity.
Qed.

Lemma allUpperLetters_plain (s : string) :
  allUpperLetters s = true -> noSeparator s = true /\ toUpperCase s = s.
Proof.
  induction s as [| c s IH]; cbn; [tauto |].
  intros H. apply andb_true_iff in H. destruct H as [Hc Hs].
  destruct (upperLetter_plain c Hc) as (Hsep & _ & Hup).
  destruct (IH Hs) as [Hn Hu]. rewrite Hsep, Hn, Hup, Hu. split; reflexivity.
Qed.

Lemma letters_noSeparator (s : string) :
  allUpperLetters (toUpperCase s) = true -> noSeparator s = true.
Proof.
  induction s as [| c s IH]; cbn; [tauto |].
  intros H. apply andb_true_iff in H. destruct H as [Hc Hs].
  destruct (letter_plain c Hc) as [Hsep _]. now rewrite Hsep, IH.
Qed.

Lemma toUpperCase_length (s : string) : String.length (toUpperCase s) = String.length s.
Proof. induction s as [| c s IH]; cbn; [reflexivity | now rewrite IH]. Qed.

(** ** Splitting *)

Lemma splitFrom_nonempty (inRun : bool) (input : string) : splitFrom inRun input <> [].
Proof.
  revert inRun. induction input as [| c s IH]; intros inRun; cbn; [discriminate |].
  destruct (isSeparator c).
  - destruct inRun; [apply IH | discriminate].
  - destruct (splitFrom false s); discriminate.
Qed.

Lemma splitFrom_piece (t s : string) :
  noSeparator t = true ->
  splitFrom false (t ++ s) = prependPiece t (splitFrom false s).
Proof.
  induction t as [| c t IH]; cbn [append noSeparator]; intros H.
  - pose proof (splitFrom_nonempty false s) as Hne.
    destruct (splitFrom false s); [contradiction | reflexivity].
  - apply andb_true_iff in H. destruct H as [Hc Ht].
    apply negb_true_iff in Hc. cbn [splitFrom]. rewrite Hc, (IH Ht).
    pose proof (splitFrom_nonempty false s) as Hne.
    destruct (splitFrom false s); [contradiction | reflexivity].
Qed.

Lemma splitFrom_after_run (c : ascii) (s : string) :
  isSeparator c = false -> splitFrom true (String c s) = splitFrom false (String c s).
Proof. intros H. cbn. now rewrite H. Qed.

Lemma split_noSeparator (t : string) : noSeparator t = true -> split t = [t].
Proof.
  intros H. unfold split. rewrite <- (append_empty_r t) at 1.
  rewrite (splitFrom_piece t "" H). cbn. now rewrite append_empty_r.
Qed.

Lemma split_joined (symbols : list string) :
  Forall (fun s => matchesTicker s = true) symbols ->
  symbols <> [] ->
  split (formatSymbolsForDisplay symbols) = symbols.
Proof.
  unfold split, formatSymbolsForDisplay.
  induction symbols as [| t l IH]; intros Hall Hne; [contradiction |].
  inversion Hall as [| ? ? Ht Hl]; subst.
  unfold matchesTicker in Ht. apply andb_true_iff in Ht. destruct Ht as [_ Hup].
  destruct (allUpperLetters_plain t Hup) as [Hsep _].
  destruct l as [| t2 r].
  - cbn [concat]. now apply split_noSeparator.
  - change (concat ", " (t :: t2 :: r)) with (t ++ ", " ++ concat ", " (t2 :: r))%string.
    rewrite (splitFrom_piece _ _ Hsep).
    assert (Hrest : splitFrom true (concat ", " (t2 :: r)) = t2 :: r).
    { inversion Hl as [| ? ? Ht2 _]; subst.
      assert (Hcs : exists c s, concat ", " (t2 :: r) = String c s /\ isSeparator c = false).
      { unfold matchesTicker in Ht2. apply andb_true_iff in Ht2. destruct Ht2 as [Hlen Hup2].
        apply andb_true_iff in Hlen. destruct Hlen as [Hlen _].
        destruct t2 as [| c t2']; [discriminate |].
        cbn in Hup2. apply andb_true_iff in Hup2. destruct Hup2 as [Hc _].
        destruct (upperLetter_plain c Hc) as (Hs & _ & _).
        destruct r; cbn; eauto. }
      destruct Hcs as (c & s & Heq & Hc).
      rewrite Heq, (splitFrom_after_run c s Hc), <- Heq.
      apply IH; [exact Hl | discriminate]. }
    cbn [append splitFrom]. change (isSeparator ",") with true.
    change (isSeparator " ") with true. cbn [prependPiece].
    rewrite Hrest. cbn. now rewrite append_empty_r.
Qed.

(** ** Sets *)

Lemma setAdd_fold_fresh (values acc : list string) :
  NoDup (acc ++ values) -> fold_left setAdd values acc = (acc ++ values)%list.
Proof.
  revert acc. induction values as [| v l IH]; intros acc H; cbn.
  - now rewrite app_nil_r.
  - assert (Hv : existsb (String.eqb v) acc = false).
    { apply NoDup_remove_2 in H. destruct (existsb (String.eqb v) acc) eqn:He; [| reflexivity].
      apply existsb_exists in He. destruct He as (x & Hx & Hvx).
      apply String.eqb_eq in Hvx. subst x. exfalso. apply H. apply in_or_app. now left. }
    unfold setAdd at 2. rewrite Hv.
    rewrite IH; rewrite <- app_assoc; [reflexivity | exact H].
Qed.

Lemma setAdd_fold_NoDup (values acc : list string) :
  NoDup acc -> NoDup (fold_left setAdd values acc).
Proof.
  revert acc. induction values as [| v l IH]; intros acc H; cbn; [exact H |].
  apply IH. unfold setAdd.
  destruct (existsb (String.eqb v) acc) eqn:He; [exact H |].
  apply NoDup_app; [exact H | repeat constructor; intros [] |].
  intros x Hx [Heq | []]. subst x.
  assert (Ht : existsb (String.eqb v) acc = true).
  { apply existsb_exists. exists v. split; [exact Hx | apply String.eqb_refl]. }
  rewrite Ht in He. discriminate.
Qed.

Lemma setAdd_fold_In (values acc : list string) (x : string) :
  In x (fold_left setAdd values acc) <-> In x acc \/ In x values.
Proof.
  revert acc. induction values as [| v l IH]; intros acc; cbn; [tauto |].
  rewrite IH. unfold setAdd.
  destruct (existsb (String.eqb v) acc) eqn:He.
  - apply existsb_exists in He. destruct He as (y & Hy & Hvy).
    apply String.eqb_eq in Hvy. subst y.
    split; [tauto |]. intros [H | [<- | H]]; tauto.
  - rewrite in_app_iff. cbn. tauto.
Qed.

(** ** The parser *)

Lemma matchesTicker_valid (s : string) :
  matchesTicker s = true -> isValidSymbol s = true.
Proof.
  intros H. unfold isValidSymbol.
  assert (Hu : toUpperCase s = s).
  { unfold matchesTicker in H. apply andb_true_iff in H. destruct H as [_ Hup].
    apply (allUpperLetters_plain s Hup). }
  now rewrite Hu.
Qed.

Lemma parseSymbols_tickers (input : string) :
  NoDup (parseSymbols input) /\
  Forall (fun symbol => matchesTicker symbol = true) (parseSymbols input).
Proof.
  unfold parseSymbols. destruct (isEmpty (trim input)).
  - split; constructor.
  - cbv zeta. split; [apply setAdd_fold_NoDup; constructor |].
    rewrite Forall_forall. intros x Hx.
    apply setAdd_fold_In in Hx. destruct Hx as [[] | Hx].
    apply filter_In in Hx. destruct Hx as [_ Hx].
    apply andb_true_iff in Hx. now destruct Hx as [_ Hx].
Qed.

Lemma parseSymbols_formatted (symbols : list string) :
  Forall (fun symbol => matchesTicker symbol = true) symbols ->
  NoDup symbols ->
  parseSymbols (formatSymbolsForDisplay symbols) = symbols.
Proof.
  intros Hall Hnd. destruct symbols as [| t l]; [reflexivity |].
  unfold parseSymbols.
  assert (Hne : isEmpty (trim (formatSymbolsForDisplay (t :: l))) = false).
  { inversion Hall as [| ? ? Ht _]; subst.
    unfold matchesTicker in Ht. apply andb_true_iff in Ht. destruct Ht as [Hlen Hup].
    apply andb_true_iff in Hlen. destruct Hlen as [Hlen _].
    destruct t as [| c t']; [discriminate |].
    cbn in Hup. apply andb_true_iff in Hup. destruct Hup as [Hc _].
    destruct (upperLetter_plain c Hc) as (_ & Hw & _).
    unfold formatSymbolsForDisplay. destruct l; cbn [concat append];
      now apply trim_starts_plain. }
  rewrite Hne. cbv zeta.
  rewrite (split_joined (t :: l) Hall) by discriminate.
  assert (Hmap : forall ss, Forall (fun s => matchesTicker s = true) ss ->
            filter (fun symbol => (0 <? String.length symbol)%nat && matchesTicker symbol)
              (map (fun symbol => toUpperCase (trim symbol)) ss) = ss).
  { induction ss as [| s ss IH]; intros H; [reflexivity |].
    inversion H as [| ? ? Hs Hss]; subst. cbn [map filter].
    pose proof Hs as Hs'. unfold matchesTicker in Hs'.
    apply andb_true_iff in Hs'. destruct Hs' as [Hlen Hup].
    apply andb_true_iff in Hlen. destruct Hlen as [Hlen _].
    destruct (allUpperLetters_plain s Hup) as [Hsep Hu].
    rewrite (trim_noSeparator s Hsep), Hu, Hs, (IH Hss).
    apply Nat.leb_le in Hlen. apply Nat.lt_succ_r in Hlen.
    replace (0 <? String.length s)%nat with true
      by (symmetry; apply Nat.ltb_lt; lia).
    reflexivity. }
  rewrite (Hmap _ Hall).
  unfold setOf. now rewrite setAdd_fold_fresh.
Qed.

(** X18. [parseSymbols] returns symbols of one to five capital letters, each
    accepted by [isValidSymbol], and none of them twice; it returns nothing
    for a blank input; and parsing what [formatSymbolsForDisplay] shows for
    its result gives the same result again. *)
Theorem parseSymbols_valid_distinct (input : string) :
  NoDup (parseSymbols input) /\
  Forall (fun symbol => matchesTicker symbol = true /\ isValidSymbol symbol = true)
    (parseSymbols input) /\
  (isEmpty (trim input) = true -> parseSymbols input = []) /\
  parseSymbols (formatSymbolsForDisplay (parseSymbols input)) = parseSymbols input.
Proof.
  destruct (parseSymbols_tickers input) as [Hnd Hall].
  split; [exact Hnd | split; [| split]].
  - eapply Forall_impl; [| exact Hall]. cbn. intros s Hs.
    split; [exact Hs | now apply matchesTicker_valid].
  - intros Hb. unfold parseSymbols. now rewrite Hb.
  - now apply parseSymbols_formatted.
Qed.

(** X19. A list of distinct symbols of one to five capital letters each is
    what [parseSymbols] reads back from the text
    [formatSymbolsForDisplay] shows for it. *)
Theorem parseSymbols_of_formatted (symbols : list string) :
  Forall (fun symbol => matchesTicker symbol = true) symbols ->
  NoDup symbols ->
  parseSymbols (formatSymbolsForDisplay symbols) = symbols /\
  split (formatSymbolsForDisplay symbols) = match symbols with [] => [""] | _ => symbols end.
Proof.
  intros Hall Hnd. split; [now apply parseSymbols_formatted |].
  destruct symbols as [| t l]; [reflexivity |].
  now apply split_joined.
Qed.

Lemma parseSymbols_of_formatted_witness :
  parseSymbols (formatSymbolsForDisplay ["AAPL"; "MSFT"; "NVDA"]) = ["AAPL"; "MSFT"; "NVDA"].
Proof.
  refine (proj1 (parseSymbols_of_formatted ["AAPL"; "MSFT"; "NVDA"] _ _)).
  - repeat constructor.
  - repeat constructor; cbn; intuition discriminate.
Defined.

(** One symbol that [isValidSymbol] accepts is parsed to itself in capitals. *)
Lemma parseSymbols_of_valid (symbol : string) :
  isValidSymbol symbol = true ->
  parseSymbols symbol = [toUpperCase symbol].
Proof.
  intros Hv. pose proof Hv as Hv'. unfold isValidSymbol, matchesTicker in Hv'.
  apply andb_true_iff in Hv'. destruct Hv' as [Hlen Hup].
  apply andb_true_iff in Hlen. destruct Hlen as [Hlen _].
  pose proof (letters_noSeparator symbol Hup) as Hsep.
  unfold parseSymbols. rewrite (trim_noSeparator symbol Hsep).
  rewrite toUpperCase_length in Hlen.
  destruct symbol as [| c s]; [discriminate |]. cbn [isEmpty]. cbv zeta.
  rewrite (split_noSeparator _ Hsep). cbn [map filter].
  rewrite (trim_noSeparator _ Hsep).
  unfold isValidSymbol in Hv. rewrite Hv. cbn [toUpperCase String.length Nat.ltb Nat.leb andb].
  reflexivity.
Qed.

(** The examples the source gives in its comment, and some edge cases. *)
Example parseSymbols_examples :
  parseSymbols "AAPL, MSFT" = ["AAPL"; "MSFT"] /\
  parseSymbols "AAPL MSFT" = ["AAPL"; "MSFT"] /\
  parseSymbols " aapl,msft ,, aapl  toolong x1 nvda " = ["AAPL"; "MSFT"; "NVDA"] /\
  parseSymbols "" = [] /\
  parseSymbols "   " = [] /\
  split ",a" = [""; "a"] /\
  split "a," = ["a"; ""].
Proof. vm_compute. repeat split. Qed.

(** ** Letter case *)

Lemma toUpperCase_idempotent (s : string) : toUpperCase (toUpperCase s) = toUpperCase s.
Proof.
  induction s as [| c s IH]; cbn; [reflexivity |].
  now rewrite (proj1 (toUpperCaseChar_facts c)), IH.
Qed.

Lemma trimStart_toUpperCase (s : string) :
  trimStart (toUpperCase s) = toUpperCase (trimStart s).
Proof.
  induction s as [| c s IH]; cbn; [reflexivity |].
  rewrite (proj1 (proj2 (toUpperCaseChar_facts c))).
  destruct (isWhiteSpace c); [exact IH | reflexivity].
Qed.

Lemma trimEnd_toUpperCase (s : string) :
  trimEnd (toUpperCase s) = toUpperCase (trimEnd s).
Proof.
  induction s as [| c s IH]; cbn; [reflexivity |].
  rewrite IH, (proj1 (proj2 (toUpperCaseChar_facts c))).
  destruct (trimEnd s); cbn; [destruct (isWhiteSpace c) |]; reflexivity.
Qed.

Lemma trim_toUpperCase (s : string) : trim (toUpperCase s) = toUpperCase (trim s).
Proof. unfold trim. now rewrite trimStart_toUpperCase, trimEnd_toUpperCase. Qed.

Lemma isEmpty_toUpperCase (s : string) : isEmpty (toUpperCase s) = isEmpty s.
Proof. destruct s; reflexivity. Qed.

Lemma splitFrom_toUpperCase (s : string) : forall inRun : bool,
  splitFrom inRun (toUpperCase s) = map toUpperCase (splitFrom inRun s).
Proof.
  induction s as [| c s IH]; intros inRun; cbn; [reflexivity |].
  rewrite (proj2 (proj2 (toUpperCaseChar_facts c))).
  destruct (isSeparator c).
  - destruct inRun; cbn; now rewrite IH.
  - rewrite IH. destruct (splitFrom false s); reflexivity.
Qed.

Lemma parseSymbols_toUpperCase (input : string) :
  parseSymbols (toUpperCase input) = parseSymbols input.
Proof.
  unfold parseSymbols, split.
  rewrite trim_toUpperCase, isEmpty_toUpperCase, splitFrom_toUpperCase, map_map.
  destruct (isEmpty (trim input)); [reflexivity |]. cbv zeta.
  f_equal. f_equal. apply map_ext. intros piece.
  now rewrite trim_toUpperCase, toUpperCase_idempotent.
Qed.

(** ** Trimming and splitting *)

Lemma trimStart_parts (s : string) :
  exists w, allWhiteSpace w = true /\ s = (w ++ trimStart s)%string.
Proof.
  induction s as [| c s (w & Hw & Hs)]; [now exists "" |].
  cbn [trimStart]. destruct (isWhiteSpace c) eqn:Hc.
  - exists (String c w). cbn. rewrite Hc, Hw. split; [reflexivity | now rewrite <- Hs].
  - now exists "".
Qed.

Lemma trimEnd_parts (s : string) :
  exists w, allWhiteSpace w = true /\ s = (trimEnd s ++ w)%string.
Proof.
  induction s as [| c s (w & Hw & Hs)]; [now exists "" |].
  cbn [trimEnd]. destruct (trimEnd s) as [| d t] eqn:Ht.
  - destruct (isWhiteSpace c) eqn:Hc.
    + exists (String c w). cbn in *. rewrite Hc, Hw. split; [reflexivity | now rewrite <- Hs].
    + exists w. cbn in *. split; [exact Hw | now rewrite <- Hs].
  - exists w. split; [exact Hw |]. cbn. f_equal. exact Hs.
Qed.

Lemma trimStart_head (s : string) :
  match trimStart s with
  | EmptyString => True
  | String c _ => isWhiteSpace c = false
  end.
Proof.
  induction s as [| c s IH]; cbn; [exact I |].
  destruct (isWhiteSpace c) eqn:Hc; [exact IH | exact Hc].
Qed.

Lemma trimEnd_idempotent (s : string) : trimEnd (trimEnd s) = trimEnd s.
Proof.
  induction s as [| c s IH]; [reflexivity |].
  cbn [trimEnd]. destruct (trimEnd s) as [| d t] eqn:Ht.
  - destruct (isWhiteSpace c) eqn:Hc; cbn; [reflexivity | now rewrite Hc].
  - cbn [trimEnd] in *. rewrite IH. reflexivity.
Qed.

Lemma trim_idempotent (s : string) : trim (trim s) = trim s.
Proof.
  unfold trim. pose proof (trimStart_head s) as Hh.
  destruct (trimStart s) as [| c u]; [reflexivity |].
  assert (Hs : trimStart (trimEnd (String c u)) = trimEnd (String c u)).
  { cbn [trimEnd]. destruct (trimEnd u); rewrite ?Hh; cbn [trimStart]; now rewrite Hh. }
  rewrite Hs. apply trimEnd_idempotent.
Qed.

Lemma splitFrom_true_white (w u : string) :
  allWhiteSpace w = true -> splitFrom true (w ++ u) = splitFrom true u.
Proof.
  induction w as [| c w IH]; cbn; [reflexivity |].
  intros H. apply andb_true_iff in H. destruct H as [Hc Hw].
  now rewrite (whiteSpace_separator c Hc), IH.
Qed.

Lemma splitFrom_either (u : string) :
  splitFrom false u = splitFrom true u \/ splitFrom false u = "" :: splitFrom true u.
Proof.
  destruct u as [| c u]; [now left |]. cbn.
  destruct (isSeparator c); [now right | now left].
Qed.

Lemma tickersAmong_empty_first (pieces : list string) :
  tickersAmong ("" :: pieces) = tickersAmong pieces.
Proof. reflexivity. Qed.

Lemma tickersAmong_empty_last (pieces : list string) :
  tickersAmong (pieces ++ [""]) = tickersAmong pieces.
Proof.
  unfold tickersAmong. rewrite map_app, filter_app. cbn. apply app_nil_r.
Qed.

Lemma tickers_true_false (u : string) :
  tickersAmong (splitFrom true u) = tickersAmong (splitFrom false u).
Proof. destruct (splitFrom_either u) as [-> | ->]; reflexivity. Qed.

Lemma tickers_white_start (w u : string) :
  allWhiteSpace w = true ->
  tickersAmong (splitFrom false (w ++ u)) = tickersAmong (splitFrom false u).
Proof.
  intros Hw. rewrite <- tickers_true_false, splitFrom_true_white by exact Hw.
  apply tickers_true_false.
Qed.

Lemma splitFrom_white_end (w : string) :
  allWhiteSpace w = true ->
  forall (t : string) (inRun : bool),
  splitFrom inRun (t ++ w) = splitFrom inRun t \/
  splitFrom inRun (t ++ w) = (splitFrom inRun t ++ [""])%list.
Proof.
  intros Hw. induction t as [| c t IH]; intros inRun.
  - cbn [append]. destruct inRun.
    + left. rewrite <- (append_empty_r w), splitFrom_true_white by exact Hw. reflexivity.
    + destruct w as [| c w]; [now left |]. right. cbn in Hw |- *.
      apply andb_true_iff in Hw. destruct Hw as [Hc Hw].
      rewrite (whiteSpace_separator c Hc).
      rewrite <- (append_empty_r w), splitFrom_true_white by exact Hw. reflexivity.
  - cbn [append splitFrom]. destruct (isSeparator c).
    + destruct inRun; [apply IH |].
      destruct (IH true) as [-> | ->]; [now left | now right].
    + pose proof (splitFrom_nonempty false t) as Hne.
      destruct (IH false) as [-> | ->]; [now left |].
      destruct (splitFrom false t); [contradiction | now right].
Qed.

Lemma tickers_white_end (t w : string) :
  allWhiteSpace w = true ->
  tickersAmong (splitFrom false (t ++ w)) = tickersAmong (splitFrom false t).
Proof.
  intros Hw. destruct (splitFrom_white_end w Hw t false) as [-> | ->];
    [reflexivity | apply tickersAmong_empty_last].
Qed.

Lemma tickers_of_trimmed (s : string) :
  tickersAmong (split (trim s)) = tickersAmong (split s).
Proof.
  unfold split, trim.
  destruct (trimStart_parts s) as (w1 & Hw1 & Hs1).
  destruct (trimEnd_parts (trimStart s)) as (w2 & Hw2 & Hs2).
  rewrite Hs1 at 2. rewrite tickers_white_start by exact Hw1.
  rewrite Hs2 at 2. now rewrite tickers_white_end.
Qed.

Lemma parseSymbols_trim (input : string) : parseSymbols (trim input) = parseSymbols input.
Proof.
  unfold parseSymbols. rewrite trim_idempotent.
  destruct (isEmpty (trim input)); [reflexivity |].
  fold (tickersAmong (split (trim input))). fold (tickersAmong (split input)).
  now rewrite tickers_of_trimmed.
Qed.

(** X20. [parseSymbols] reads the same symbols from an input, from the
    input in capitals and from the trimmed input. *)
Theorem parseSymbols_ignores_case (input : string) :
  parseSymbols (toUpperCase input) = parseSymbols input /\
  parseSymbols (trim input) = parseSymbols input /\
  parseSymbols (toUpperCase (trim input)) = parseSymbols input.
Proof.
  split; [apply parseSymbols_toUpperCase | split; [apply parseSymbols_trim |]].
  now rewrite parseSymbols_toUpperCase, parseSymbols_trim.
Qed.

Import OptionsAnalytics.

(** ** Sorting with any comparison function *)

Section AnyComparison.
Context {A : Type} (compareFn : A -> A -> R).

Lemma insertSorted_permutation (x : A) (l : list A) :
  Permutation (insertSorted compareFn x l) (x :: l).
Proof.
  induction l as [| y l IH]; cbn [insertSorted]; [reflexivity |].
  destruct (Rgt_dec (compareFn x y) 0); [| reflexivity].
  rewrite IH. apply perm_swap.
Qed.

Lemma Array_sort_permutation (l : list A) : Permutation (Array_sort compareFn l) l.
Proof.
  induction l as [| x l IH]; cbn; [reflexivity |].
  fold (Array_sort compareFn l).
  rewrite insertSorted_permutation. now constructor.
Qed.

Variable before : A -> A -> Prop.

(** A list that is in order already is left as it is. *)
Lemma Array_sort_fixed (l : list A) :
  (forall x y, before x y -> ~ compareFn x y > 0) ->
  StronglySorted before l -> Array_sort compareFn l = l.
Proof.
  intros Hb. induction 1 as [| x l Hl IH Hx]; [reflexivity |].
  cbn [Array_sort fold_right]. fold (Array_sort compareFn l). rewrite IH.
  destruct l as [| y l]; [reflexivity |].
  cbn [insertSorted]. destruct (Rgt_dec (compareFn x y) 0) as [Hgt | _]; [| reflexivity].
  inversion Hx; subst. exfalso. eapply Hb; eauto.
Qed.

Variable domain : A -> Prop.
Hypothesis before_trans : forall x y z,
  domain x -> domain y -> domain z -> before x y -> before y z -> before x z.
Hypothesis behind : forall x y, domain x -> domain y -> compareFn x y > 0 -> before y x.
Hypothesis ahead : forall x y, domain x -> domain y -> ~ compareFn x y > 0 -> before x y.

Lemma insertSorted_ordered (x : A) (l : list A) :
  domain x -> Forall domain l ->
  StronglySorted before l -> StronglySorted before (insertSorted compareFn x l).
Proof.
  intros Hx Hd Hs. induction Hs as [| y l Hl IH Hy]; cbn [insertSorted].
  - repeat constructor.
  - inversion Hd as [| ? ? Hdy Hdl]; subst.
    destruct (Rgt_dec (compareFn x y) 0) as [Hgt | Hle].
    + constructor; [now apply IH |].
      eapply Permutation_Forall; [symmetry; apply insertSorted_permutation |].
      constructor; [now apply behind | exact Hy].
    + constructor; [now constructor |].
      constructor; [now apply ahead |].
      rewrite Forall_forall in *. intros z Hz.
      apply before_trans with y; auto.
Qed.

Lemma Array_sort_ordered (l : list A) :
  Forall domain l -> StronglySorted before (Array_sort compareFn l).
Proof.
  induction 1 as [| x l Hx Hl IH]; cbn; [constructor |].
  fold (Array_sort compareFn l).
  apply insertSorted_ordered; [exact Hx | | exact IH].
  eapply Permutation_Forall; [symmetry; apply Array_sort_permutation | exact Hl].
Qed.

End AnyComparison.

(** ** The search history *)

Lemma firstn_subset {A : Type} (n : nat) (l : list A) (x : A) :
  In x (firstn n l) -> In x l.
Proof.
  revert l. induction n as [| n IH]; intros [| y l]; cbn; try tauto.
  intros [H | H]; [now left | right; now apply IH].
Qed.

Lemma firstn_NoDup {A : Type} (n : nat) (l : list A) : NoDup l -> NoDup (firstn n l).
Proof.
  revert l. induction n as [| n IH]; intros [| y l] H; cbn; try constructor.
  - inversion H; subst. intros Hin. now apply firstn_subset in Hin.
  - inversion H; subst. now apply IH.
Qed.

Lemma firstn_Forall {A : Type} (P : A -> Prop) (n : nat) (l : list A) :
  Forall P l -> Forall P (firstn n l).
Proof.
  rewrite !Forall_forall. intros H x Hx. apply H. now apply firstn_subset in Hx.
Qed.

Lemma history_update_ok (query : string) (history : list string) :
  isEmpty (trim query) = false -> historyOk history ->
  historyOk (firstn 5 (query :: filter (fun item => negb (String.eqb item query)) history)).
Proof.
  intros Hq (Hnd & _ & Hnb). split; [| split].
  - apply firstn_NoDup. constructor; [| now apply NoDup_filter].
    rewrite filter_In. intros [_ H]. now rewrite String.eqb_refl in H.
  - apply firstn_le_length.
  - apply firstn_Forall. constructor; [exact Hq |].
    rewrite Forall_forall in *. intros x Hx. apply filter_In in Hx. now apply Hnb.
Qed.

Lemma handleSearch_blank (service : Service) (h : Host) (query : string)
    (page : PageState) (st : State) :
  isEmpty (trim query) = true ->
  handleSearch service h query page st = ((page, None), st).
Proof. intros Hq. unfold handleSearch. now rewrite Hq. Qed.

Lemma handleSearch_started (service : Service) (h : Host) (query : string)
    (page : PageState) (st : State) :
  isEmpty (trim query) = false ->
  let run := service h (parseSymbols query)
               (SearchOptions.mk true (minEdge page) 1 0.10) st in
  handleSearch service h query page st =
  ((setSearchResults (SearchResults.mk [] true "" 0 None)
      (setSearchHistory
         (firstn 5 (query :: filter (fun item => negb (String.eqb item query))
                               (searchHistory page)))
         page),
    Some (mkPending (skipn (List.length (progressLog st)) (progressLog (snd run)))
            (fst run))),
   snd run).
Proof.
  intros Hq. cbv zeta. unfold handleSearch. rewrite Hq.
  now destruct (service h (parseSymbols query) _ st).
Qed.

Lemma handle_history (service : Service) (h : Host) (e : Event) (c : Config)
    (st : State) :
  searchHistory (shownPage (fst (handle service h e c st))) =
  match e with
  | Search query =>
      if SearchResults.isLoading (searchResults (shownPage c)) || isEmpty (trim query)
      then searchHistory (shownPage c)
      else firstn 5 (query :: filter (fun item => negb (String.eqb item query))
                                (searchHistory (shownPage c)))
  | _ => searchHistory (shownPage c)
  end.
Proof.
  destruct e; try reflexivity.
  - cbn [handle]. destruct (SearchResults.isLoading (searchResults (shownPage c)));
      [reflexivity |]. cbn [orb]. unfold bind.
    destruct (isEmpty (trim query)) eqn:Hq.
    + now rewrite handleSearch_blank.
    + now rewrite handleSearch_started.
  - cbn [handle]. destruct (pending c) as [[[| next rest] completion] |]; try reflexivity.
    now destruct completion.
Qed.

Lemma session_app (service : Service) (h : Host) (events1 events2 : list Event)
    (c : Config) (st : State) :
  session service h (events1 ++ events2)%list c st =
  session service h events2 (fst (session service h events1 c st))
    (snd (session service h events1 c st)).
Proof.
  revert c st. induction events1 as [| e events1 IH]; intros c st; [reflexivity |].
  cbn [app session]. unfold bind at 1 2 3.
  destruct (handle service h e c st) as [c1 st1]. apply IH.
Qed.

Lemma session_history (service : Service) (h : Host) (events : list Event)
    (c : Config) (st : State) :
  historyOk (searchHistory (shownPage c)) ->
  historyOk (searchHistory (shownPage (fst (session service h events c st)))).
Proof.
  revert c st. induction events as [| e events IH]; intros c st Hok; [exact Hok |].
  cbn [session]. unfold bind.
  pose proof (handle_history service h e c st) as He.
  destruct (handle service h e c st) as [c1 st1]. cbn [fst] in He.
  apply IH. rewrite He. destruct e; try exact Hok.
  destruct (SearchResults.isLoading (searchResults (shownPage c))); [exact Hok |].
  cbn [orb]. destruct (isEmpty (trim query)) eqn:Hq;
    [exact Hok | now apply history_update_ok].
Qed.

Lemma session_history_from (service : Service) (h : Host) (events : list Event)
    (c : Config) (st : State) :
  Forall (fun query => In query (searchHistory (shownPage c)) \/ In (Search query) events)
    (searchHistory (shownPage (fst (session service h events c st)))).
Proof.
  revert c st. induction events as [| e events IH]; intros c st.
  - cbn. rewrite Forall_forall. intros; now left.
  - cbn [session]. unfold bind.
    pose proof (handle_history service h e c st) as He.
    destruct (handle service h e c st) as [c1 st1]. cbn [fst] in He.
    specialize (IH c1 st1). rewrite Forall_forall in *. intros q Hq.
    destruct (IH q Hq) as [H1 | H1]; [| right; now right].
    rewrite He in H1. destruct e; try (now left).
    destruct (SearchResults.isLoading (searchResults (shownPage c)) || isEmpty (trim query));
      [now left |].
    apply firstn_subset in H1. destruct H1 as [<- | H1]; [right; now left |].
    apply filter_In in H1. now left.
Qed.

(** X21. Whatever happens on the page, starting from its initial state and
    with any service behind it (searches, progress calls and settlements,
    selection changes, also while a search runs), the search history holds
    no query twice, at most five queries, no blank query and only queries
    that were searched.  The query of a search that has just started, if it
    is not blank, heads the history: [handleSearch] puts it there on every
    page, before it awaits the service, and so does a search from the bar,
    which starts one only while the page is not loading. *)
Theorem history_invariant (service : Service) (h : Host) (events : list Event)
    (st : State) :
  let c := fst (session service h events initialConfig st) in
  let history := searchHistory (shownPage c) in
  historyOk history /\
  Forall (fun query => In (Search query) events) history /\
  (forall query page st',
     isEmpty (trim query) = false ->
     hd_error (searchHistory (fst (fst (handleSearch service h query page st'))))
     = Some query) /\
  (forall query,
     SearchResults.isLoading (searchResults (shownPage c)) = false ->
     isEmpty (trim query) = false ->
     hd_error (searchHistory
                 (shownPage
                    (fst (session service h (events ++ [Search query])%list
                            initialConfig st))))
     = Some query).
Proof.
  cbv zeta. split; [| split; [| split]].
  - apply session_history. repeat split; [constructor | cbn; lia | constructor].
  - eapply Forall_impl; [| apply session_history_from]. cbn. intros q [[] | H]. exact H.
  - intros query page st' Hq. now rewrite handleSearch_started.
  - intros query Hl Hq. rewrite session_app. cbn [session]. unfold bind.
    pose proof (handle_history service h (Search query)
                  (fst (session service h events initialConfig st))
                  (snd (session service h events initialConfig st))) as He.
    destruct (handle service h (Search query) _ _) as [c1 st1]. cbn [fst ret] in *.
    rewrite He, Hl, Hq. reflexivity.
Qed.

(** ** The rows of the table *)

Lemma sortedOpportunities_page (h : Host) (localeCompare : string -> string -> R)
    (page : PageState) :
  OptionsTable.sortedOpportunities h localeCompare (tableProps page) =
  Array_sort (OptionsTable.compareRows h localeCompare (sortBy page))
    (getFilteredOpportunities page).
Proof. reflexivity. Qed.

Lemma StrategyType_eqb_eq (a b : StrategyType) : StrategyType_eqb a b = true <-> a = b.
Proof. destruct a, b; cbn; split; congruence. Qed.

Lemma OptionType_eqb_eq (a b : OptionType) : OptionType_eqb a b = true <-> a = b.
Proof. destruct a, b; cbn; split; congruence. Qed.

Lemma getFilteredOpportunities_In (page : PageState) (o : OptionData.t) :
  In o (getFilteredOpportunities page) <->
  In o (SearchResults.opportunities (searchResults page)) /\
  selected (minEdge page) (optionTypeFilter page) (strategyFilter page) o.
Proof.
  unfold getFilteredOpportunities, selected.
  destruct (optionTypeFilter page), (strategyFilter page);
    rewrite ?filter_In, ?geb_true, ?StrategyType_eqb_eq, ?OptionType_eqb_eq;
    intuition congruence.
Qed.

(** X22. The table shows the opportunities of the page that its three
    selections let through, each as often as it occurs among them, for every
    sort key and whatever [localeCompare] answers: sorting neither drops nor
    adds a row, and the number shown as "Total Opportunities" is the number
    of rows. *)
Theorem table_rows_are_the_selected (h : Host) (localeCompare : string -> string -> R)
    (page : PageState) :
  let rows := OptionsTable.sortedOpportunities h localeCompare (tableProps page) in
  Permutation rows (getFilteredOpportunities page) /\
  List.length rows = List.length (getFilteredOpportunities page) /\
  (forall o, In o rows <->
     In o (SearchResults.opportunities (searchResults page)) /\
     selected (minEdge page) (optionTypeFilter page) (strategyFilter page) o).
Proof.
  cbv zeta. rewrite sortedOpportunities_page.
  pose proof (Array_sort_permutation
                (OptionsTable.compareRows h localeCompare (sortBy page))
                (getFilteredOpportunities page)) as Hp.
  split; [exact Hp | split; [now apply Permutation_length |]].
  intros o. rewrite <- getFilteredOpportunities_In.
  split; intros Hin.
  - eapply Permutation_in; [exact Hp | exact Hin].
  - eapply Permutation_in; [symmetry; exact Hp | exact Hin].
Qed.

(** *** The order of the rows *)

Lemma mayPrecede_trans (h : Host) (sortBy : string) (x y z : OptionData.t) :
  mayPrecede h sortBy x y -> mayPrecede h sortBy y z -> mayPrecede h sortBy x z.
Proof.
  unfold mayPrecede.
  destruct (inFirstGroup sortBy x), (inFirstGroup sortBy y), (inFirstGroup sortBy z);
    intros [[H1 H2] | [H1 H2]] [[H3 H4] | [H3 H4]]; try discriminate;
    (left; split; reflexivity) || (right; split; [reflexivity | lra]).
Qed.

Ltac by_sortBy sortBy :=
  repeat match goal with
  | |- context [String.eqb sortBy ?s] =>
      let E := fresh "E" in
      destruct (String.eqb sortBy s) eqn:E;
      [apply String.eqb_eq in E; subst sortBy;
       cbn [String.eqb Ascii.eqb Bool.eqb andb] |]
  end.

Ltac order_cases x y :=
  unfold declaredStrategy in *;
  destruct (OptionData.optionType x), (OptionData.optionType y),
           (OptionData.strategyType x), (OptionData.strategyType y);
  try congruence;
  cbn [OptionType_eqb StrategyType_eqb negb]; intros Hc;
  first [ exfalso; lra
        | left; split; reflexivity
        | right; split; [reflexivity | lra] ].

Lemma compareRows_behind (h : Host) (localeCompare : string -> string -> R)
    (sortBy : string) (x y : OptionData.t) :
  sortBy <> "ticker" -> declaredStrategy x -> declaredStrategy y ->
  OptionsTable.compareRows h localeCompare sortBy x y > 0 -> mayPrecede h sortBy y x.
Proof.
  intros Ht Hx Hy. unfold OptionsTable.compareRows, mayPrecede, inFirstGroup, rankOf.
  by_sortBy sortBy; try congruence; order_cases x y.
Qed.

Lemma compareRows_ahead (h : Host) (localeCompare : string -> string -> R)
    (sortBy : string) (x y : OptionData.t) :
  sortBy <> "ticker" -> declaredStrategy x -> declaredStrategy y ->
  ~ OptionsTable.compareRows h localeCompare sortBy x y > 0 -> mayPrecede h sortBy x y.
Proof.
  intros Ht Hx Hy. unfold OptionsTable.compareRows, mayPrecede, inFirstGroup, rankOf.
  by_sortBy sortBy; try congruence; order_cases x y.
Qed.

Lemma getFilteredOpportunities_Forall (P : OptionData.t -> Prop) (page : PageState) :
  Forall P (SearchResults.opportunities (searchResults page)) ->
  Forall P (getFilteredOpportunities page).
Proof.
  rewrite !Forall_forall. intros H o Ho.
  apply getFilteredOpportunities_In in Ho. now apply H.
Qed.

(** X23. For every sort key but ["ticker"], and for opportunities whose
    strategy is one of the two declared ones, the rows of the table stand in
    the order the key names: the rows of the group the key puts first (the
    calls, the puts, the covered calls, the cash-secured puts; all rows for
    the other keys) before the others, and inside a group the larger edge,
    volume, premium, annualized return or absolute delta first, the earlier
    expiration first for ["expiration"], the larger edge first for a key
    that is not known. *)
Theorem table_order (h : Host) (localeCompare : string -> string -> R) (page : PageState) :
  sortBy page <> "ticker" ->
  Forall declaredStrategy (SearchResults.opportunities (searchResults page)) ->
  StronglySorted (mayPrecede h (sortBy page))
    (OptionsTable.sortedOpportunities h localeCompare (tableProps page)).
Proof.
  intros Ht Hd. rewrite sortedOpportunities_page.
  apply Array_sort_ordered with (domain := declaredStrategy).
  - intros x y z _ _ _. apply mayPrecede_trans.
  - intros x y. now apply compareRows_behind.
  - intros x y. now apply compareRows_ahead.
  - now apply getFilteredOpportunities_Forall.
Qed.

(** ** The page after a search *)

Lemma filter_all {A : Type} (f : A -> bool) (l : list A) :
  Forall (fun a => f a = true) l -> filter f l = l.
Proof.
  induction 1 as [| a l Ha Hl IH]; cbn; [reflexivity |]. now rewrite Ha, IH.
Qed.

Lemma StronglySorted_filter {A : Type} (before : A -> A -> Prop) (f : A -> bool)
    (l : list A) :
  StronglySorted before l -> StronglySorted before (filter f l).
Proof.
  induction 1 as [| a l Hl IH Ha]; cbn; [constructor |].
  destruct (f a); [| exact IH].
  constructor; [exact IH |].
  rewrite Forall_forall in *. intros x Hx. apply filter_In in Hx. now apply Ha.
Qed.

(** A symbol of one to five capital letters is no inherited name. *)
Lemma ticker_not_inherited (symbol : string) :
  matchesTicker symbol = true -> inheritedName symbol = false.
Proof.
  intros Hm. pose proof (lookup_cases symbol) as Hc.
  unfold inheritedName.
  destruct (MockService.lookup MockService.MOCK_OPTIONS_DATA symbol) eqn:Hl;
    try reflexivity.
  exfalso. unfold MockService.lookup in Hl.
  destruct (MockService.ownEntry MockService.MOCK_OPTIONS_DATA symbol); [discriminate |].
  destruct (existsb (String.eqb symbol) Object_prototype) eqn:He; [| discriminate].
  apply existsb_exists in He. destruct He as (name & Hin & Heq).
  apply String.eqb_eq in Heq. subst name.
  cbn in Hin.
  repeat (destruct Hin as [<- | Hin]; [discriminate Hm |]). contradiction.
Qed.

Lemma tickers_not_inherited (symbols : list string) :
  Forall (fun s => matchesTicker s = true) symbols -> throwsOn symbols = false.
Proof.
  induction 1 as [| s l Hs Hl IH]; [reflexivity |].
  cbn [throwsOn existsb]. now rewrite (ticker_not_inherited s Hs).
Qed.

Lemma fetchService_run (h : Host) (symbols : list string) (options : SearchOptions.t)
    (st : State) :
  fetchService h symbols options st =
  (Returned (fst (FetchService.searchOptionsData h symbols options st)),
   snd (FetchService.searchOptionsData h symbols options st)).
Proof.
  unfold fetchService, bind, ret.
  now destruct (FetchService.searchOptionsData h symbols options st).
Qed.

Section AnyService.
Variable service : Service.
Hypothesis service_ranks : forall h symbols options st,
  Forall (fun s => matchesTicker s = true) symbols ->
  exists analyzed,
    fst (service h symbols options st) =
    Returned (Array_sort (fun a b => OptionData.edge b - OptionData.edge a)
                (filter (passes options) analyzed)).

(** What the page waits for after a search has started. *)
Lemma handleSearch_settles (h : Host) (query : string) (page : PageState) (st : State) :
  isEmpty (trim query) = false ->
  exists started waits results,
    fst (handleSearch service h query page st) = (started, Some waits) /\
    SearchResults.isLoading (searchResults started) = true /\
    SearchResults.opportunities (searchResults started) = [] /\
    SearchResults.error (searchResults started) = None /\
    connectionStatus started = connectionStatus page /\
    sortBy started = sortBy page /\ minEdge started = minEdge page /\
    optionTypeFilter started = optionTypeFilter page /\
    strategyFilter started = strategyFilter page /\
    settles waits = Returned results /\
    StronglySorted (fun a b => OptionData.edge a >= OptionData.edge b) results /\
    Forall (fun o => OptionData.edge o >= minEdge page /\
                     OptionData.volume o >= 1 /\ OptionData.lastPrice o >= 0.10) results.
Proof.
  intros Hq. rewrite (handleSearch_started service h query page st Hq). cbv zeta.
  destruct (service_ranks h (parseSymbols query)
              (SearchOptions.mk true (minEdge page) 1 0.10) st
              (proj2 (parseSymbols_tickers query))) as [analyzed Hr].
  do 3 eexists. split; [reflexivity |]. cbn. repeat split. 
  - exact Hr.
  - apply Array_sort_sorted.
  - eapply Forall_impl; [| apply sorted_filtered_passes].
    cbn. intros o Ho. apply passes_true in Ho. exact Ho.
Qed.

Lemma default_view (h h' : Host) (localeCompare : string -> string -> R)
    (query : string) (page atSettle : PageState) (st : State) :
  isEmpty (trim query) = false ->
  sortBy atSettle = "edge" ->
  optionTypeFilter atSettle = all_types ->
  strategyFilter atSettle = all_strategies ->
  exists started waits results,
    fst (handleSearch service h query page st) = (started, Some waits) /\
    settles waits = Returned results /\
    let rows := OptionsTable.sortedOpportunities h' localeCompare
                  (tableProps (settle (settles waits) atSettle)) in
    rows = filter (fun o => geb (OptionData.edge o) (minEdge atSettle)) results /\
    (minEdge atSettle <= minEdge page -> rows = results).
Proof.
  intros Hq Hs Ho Hf.
  destruct (handleSearch_settles h query page st Hq)
    as (started & waits & results & Hstart & _ & _ & _ & _ & _ & _ & _ & _ & Hset & Hsorted
        & Hall).
  exists started, waits, results. split; [exact Hstart | split; [exact Hset |]].
  cbv zeta. rewrite Hset.
  assert (Hview : OptionsTable.sortedOpportunities h' localeCompare
                    (tableProps (settle (Returned results) atSettle)) =
                  Array_sort (fun a b => OptionData.edge b - OptionData.edge a)
                    (filter (fun opt => geb (OptionData.edge opt) (minEdge atSettle))
                       results)).
  { rewrite sortedOpportunities_page. unfold getFilteredOpportunities, settle.
    cbn. rewrite Hs, Ho, Hf. reflexivity. }
  rewrite Hview.
  assert (Hrows :
    Array_sort (fun a b => OptionData.edge b - OptionData.edge a)
      (filter (fun opt => geb (OptionData.edge opt) (minEdge atSettle)) results) =
    filter (fun opt => geb (OptionData.edge opt) (minEdge atSettle)) results).
  { apply Array_sort_fixed
      with (before := fun a b => OptionData.edge a >= OptionData.edge b).
    - intros x y Hxy. lra.
    - now apply StronglySorted_filter. }
  split; [exact Hrows |].
  intros Hle. rewrite Hrows. apply filter_all.
  eapply Forall_impl; [| exact Hall]. cbn. intros o (He & _). apply geb_true. lra.
Qed.

Lemma handle_ok (h : Host) (e : Event) (c : Config) (st : State) :
  pageOk c -> pageOk (fst (handle service h e c st)).
Proof.
  intros Hok. pose proof Hok as (Hl & Hempty & Herr & Hconn & Hall & Hwait).
  destruct e; try exact Hok.
  - cbn [handle].
    destruct (SearchResults.isLoading (searchResults (shownPage c))) eqn:Hload;
      [exact Hok |].
    unfold bind. destruct (isEmpty (trim query)) eqn:Hq.
    + rewrite handleSearch_blank by exact Hq. cbn. now destruct c.
    + destruct (handleSearch_settles h query (shownPage c) st Hq)
        as (started & waits & results & Hstart & H1 & H2 & H3 & H4 & _ & _ & _ & _ & Hset
            & _ & Hres).
      destruct (handleSearch service h query (shownPage c) st) as [[started' waits'] st'].
      cbn [fst snd] in *. injection Hstart as -> ->. cbn [fst snd ret].
      unfold pageOk. cbn [shownPage pending]. rewrite H1, H2, H3, H4, Hconn.
      repeat split; try discriminate; try constructor.
      intros w [= <-]. exists results. split; [exact Hset |].
      eapply Forall_impl; [| exact Hres]. cbn. tauto.
  - cbn [handle]. destruct (pending c) as [[[| next rest] completion] |] eqn:Hp;
      [| | exact Hok].
    + destruct (Hwait _ eq_refl) as (found & Hs & Hf). cbn [settles] in Hs. subst completion.
      unfold pageOk. cbn. repeat split; try discriminate; try congruence; try exact Hf.
    + assert (Hload : SearchResults.isLoading (searchResults (shownPage c)) = true)
        by (apply Hl; congruence).
      unfold pageOk. cbn. rewrite Hload. 
      repeat split; try discriminate; auto.
      intros w [= <-]. apply (Hwait _ eq_refl).
Qed.

Lemma session_ok (h : Host) (events : list Event) (c : Config) (st : State) :
  pageOk c -> pageOk (fst (session service h events c st)).
Proof.
  revert c st. induction events as [| e events IH]; intros c st Hok; [exact Hok |].
  cbn [session]. unfold bind.
  pose proof (handle_ok h e c st Hok) as H1.
  destruct (handle service h e c st) as [c1 st1]. now apply IH.
Qed.

End AnyService.

Lemma mock_ranks (h : Host) (symbols : list string) (options : SearchOptions.t) (st : State) :
  Forall (fun s => matchesTicker s = true) symbols ->
  exists analyzed,
    fst (mockService h symbols options st) =
    Returned (Array_sort (fun a b => OptionData.edge b - OptionData.edge a)
                (filter (passes options) analyzed)).
Proof.
  intros Hv. eexists. unfold mockService.
  rewrite mock_search_result, (tickers_not_inherited symbols Hv). reflexivity.
Qed.

Lemma fetch_ranks (h : Host) (symbols : list string) (options : SearchOptions.t) (st : State) :
  Forall (fun s => matchesTicker s = true) symbols ->
  exists analyzed,
    fst (fetchService h symbols options st) =
    Returned (Array_sort (fun a b => OptionData.edge b - OptionData.edge a)
                (filter (passes options) analyzed)).
Proof.
  intros _. eexists. rewrite fetchService_run. cbn [fst].
  now rewrite fetch_search_result.
Qed.

(** X24. A search for a query that is not blank is started on a page and
    settles later, on the page as it is then; selections may have changed
    meanwhile.  If at that moment the sort key is ["edge"] and both filters
    are on "all", the table shows the records the service returned whose edge
    is at least the minimal edge selected at that moment, in the order the
    service returned them; and if that minimal edge is not above the one
    the search was started with, the table shows the list the service
    returned as it is.  This holds for both services, which both return for
    the symbols the page parses. *)
Theorem table_shows_search_result (h h' : Host) (localeCompare : string -> string -> R)
    (query : string) (page atSettle : PageState) (st : State) :
  isEmpty (trim query) = false ->
  sortBy atSettle = "edge" ->
  optionTypeFilter atSettle = all_types ->
  strategyFilter atSettle = all_strategies ->
  let shows (service : Service) :=
    exists started waits results,
      fst (handleSearch service h query page st) = (started, Some waits) /\
      settles waits = Returned results /\
      let rows := OptionsTable.sortedOpportunities h' localeCompare
                    (tableProps (settle (settles waits) atSettle)) in
      rows = filter (fun o => geb (OptionData.edge o) (minEdge atSettle)) results /\
      (minEdge atSettle <= minEdge page -> rows = results) in
  shows mockService /\ shows fetchService.
Proof.
  intros Hq Hs Ho Hf. cbv zeta. split.
  - now apply (default_view _ mock_ranks).
  - now apply (default_view _ fetch_ranks).
Qed.

Lemma table_shows_search_result_witness :
  exists started waits results,
    fst (handleSearch mockService closingHost "aapl, msft" initialPage initialState)
      = (started, Some waits) /\
    settles waits = Returned results /\
    OptionsTable.sortedOpportunities dayAfterHost (fun _ _ => 0)
      (tableProps (settle (settles waits) (setMinEdge 3 initialPage)))
    = results.
Proof.
  destruct (proj1 (table_shows_search_result closingHost dayAfterHost (fun _ _ => 0)
                     "aapl, msft" initialPage (setMinEdge 3 initialPage) initialState
                     eq_refl eq_refl eq_refl eq_refl))
    as (started & waits & results & H1 & H2 & _ & H4).
  exists started, waits, results.
  split; [exact H1 | split; [exact H2 | apply H4; cbn; lra]].
Defined.

(** X25. Whatever happens on the page, starting from its initial state,
    with either service: every row of the table has an edge of at least the
    minimal edge selected now, a volume of at least 1 and a last price of at
    least 0.10; the page is loading exactly while a search has not settled,
    and its table is empty then; and it never shows an error nor a
    connection status other than connected, as neither service throws on
    the symbols the page parses. *)
Theorem page_invariant (h h' : Host) (localeCompare : string -> string -> R)
    (events : list Event) (st : State) :
  let ok c :=
    let results := searchResults (shownPage c) in
    rowsWithin (shownPage c)
      (OptionsTable.sortedOpportunities h' localeCompare (tableProps (shownPage c))) /\
    (SearchResults.isLoading results = true <-> pending c <> None) /\
    (SearchResults.isLoading results = true -> SearchResults.opportunities results = []) /\
    SearchResults.error results = None /\
    connectionStatus (shownPage c) = connected in
  ok (fst (session mockService h events initialConfig st)) /\
  ok (fst (session fetchService h events initialConfig st)).
Proof.
  cbv zeta.
  assert (Hinit : pageOk initialConfig).
  { unfold pageOk. cbn.
    repeat split; try discriminate; try congruence; constructor. }
  assert (Hrows : forall page,
    Forall (fun o => OptionData.volume o >= 1 /\ OptionData.lastPrice o >= 0.10)
      (SearchResults.opportunities (searchResults page)) ->
    rowsWithin page (OptionsTable.sortedOpportunities h' localeCompare (tableProps page))).
  { intros page Hp. unfold rowsWithin. rewrite sortedOpportunities_page.
    eapply Permutation_Forall; [symmetry; apply Array_sort_permutation |].
    rewrite Forall_forall in *. intros o Ho.
    apply getFilteredOpportunities_In in Ho. destruct Ho as [Hin Hsel].
    split; [apply Hsel | now apply Hp]. }
  split.
  - destruct (session_ok _ mock_ranks h events initialConfig st Hinit)
      as (H1 & H2 & H3 & H4 & H5 & _).
    repeat split; auto; apply H1.
  - destruct (session_ok _ fetch_ranks h events initialConfig st Hinit)
      as (H1 & H2 & H3 & H4 & H5 & _).
    repeat split; auto; apply H1.
Qed.

(** ** The best edge *)

Lemma Math_max_bounds (others : list R) (first : R) :
  first <= Math_max first others /\
  Forall (fun x => x <= Math_max first others) others /\
  In (Math_max first others) (first :: others).
Proof.
  unfold Math_max. revert first. induction others as [| x others IH]; intros first; cbn.
  - split; [lra | split; [constructor | now left]].
  - destruct (IH (Rmax first x)) as (H1 & H2 & H3).
    pose proof (Rmax_l first x). pose proof (Rmax_r first x).
    split; [lra | split; [constructor; [lra | exact H2] |]].
    destruct H3 as [H3 | H3]; [| right; now right].
    rewrite <- H3. unfold Rmax. destruct (Rle_dec first x); [right; now left | now left].
Qed.

Lemma bestEdge_bounds (page : PageState) :
  Forall (fun o => OptionData.edge o <= bestEdge page) (getFilteredOpportunities page) /\
  (getFilteredOpportunities page <> [] ->
   exists o, In o (getFilteredOpportunities page) /\ OptionData.edge o = bestEdge page).
Proof.
  unfold bestEdge. destruct (getFilteredOpportunities page) as [| o os]; cbn [map].
  - split; [constructor | congruence].
  - destruct (Math_max_bounds (map OptionData.edge os) (OptionData.edge o)) as (H1 & H2 & H3).
    split.
    + constructor; [exact H1 |]. rewrite Forall_forall in *. intros x Hx.
      apply H2. now apply in_map.
    + intros _. destruct H3 as [H3 | H3]; [exists o; split; [now left | exact H3] |].
      apply in_map_iff in H3. destruct H3 as (x & Hx & Hin).
      exists x. split; [now right | exact Hx].
Qed.

(** X26. The number under "Best Edge" is an upper bound of the edges of the
    rows of the table and, when there are rows, the edge of one of them; it
    is 0 when there is none; with the sort key ["edge"] it is the edge of the
    first row. *)
Theorem bestEdge_of_rows (h : Host) (localeCompare : string -> string -> R)
    (page : PageState) :
  let rows := OptionsTable.sortedOpportunities h localeCompare (tableProps page) in
  Forall (fun o => OptionData.edge o <= bestEdge page) rows /\
  (rows = [] -> bestEdge page = 0) /\
  (rows <> [] -> exists o, In o rows /\ OptionData.edge o = bestEdge page) /\
  (sortBy page = "edge" ->
   forall row rest, rows = row :: rest -> bestEdge page = OptionData.edge row).
Proof.
  cbv zeta. rewrite sortedOpportunities_page.
  pose proof (Array_sort_permutation
                (OptionsTable.compareRows h localeCompare (sortBy page))
                (getFilteredOpportunities page)) as Hp.
  destruct (bestEdge_bounds page) as [Hle Hex].
  assert (Hall : Forall (fun o => OptionData.edge o <= bestEdge page)
                   (Array_sort (OptionsTable.compareRows h localeCompare (sortBy page))
                      (getFilteredOpportunities page))).
  { eapply Permutation_Forall; [symmetry; exact Hp | exact Hle]. }
  assert (Hsome : Array_sort (OptionsTable.compareRows h localeCompare (sortBy page))
                    (getFilteredOpportunities page) <> [] ->
                  exists o, In o (Array_sort (OptionsTable.compareRows h localeCompare
                                                (sortBy page))
                                    (getFilteredOpportunities page)) /\
                            OptionData.edge o = bestEdge page).
  { intros Hne. destruct Hex as (o & Ho & He).
    - intros Hnil. rewrite Hnil in Hne. now apply Hne.
    - exists o. split; [| exact He].
      eapply Permutation_in; [symmetry; exact Hp | exact Ho]. }
  split; [exact Hall | split; [| split; [exact Hsome |]]].
  - intros Hnil. rewrite Hnil in Hp. apply Permutation_nil in Hp.
    unfold bestEdge. now rewrite Hp.
  - intros Hs row rest Hrows.
    destruct Hsome as (o & Ho & He); [rewrite Hrows; discriminate |].
    rewrite Hrows in Hall, Ho. inversion Hall as [| ? ? Hrow _]; subst.
    destruct Ho as [<- | Ho]; [now symmetry |].
    assert (Hsorted : StronglySorted (fun a b => OptionData.edge a >= OptionData.edge b)
                        (row :: rest)).
    { rewrite <- Hrows, Hs. unfold OptionsTable.compareRows.
      cbn [String.eqb Ascii.eqb Bool.eqb andb]. apply Array_sort_sorted. }
    apply StronglySorted_inv in Hsorted. destruct Hsorted as [_ Hfirst].
    rewrite Forall_forall in Hfirst. specialize (Hfirst o Ho). cbn in Hfirst. lra.
Qed.

Lemma kindBased_declared (o : OptionData.t) : kindBased o -> declaredStrategy o.
Proof.
  unfold kindBased, declaredStrategy. intros ->.
  destruct (OptionData.optionType o); discriminate.
Qed.

Lemma mock_results_declared (h : Host) (n : nat) (symbols : list string)
    (options : SearchOptions.t) :
  Forall declaredStrategy
    (Array_sort (fun a b => OptionData.edge b - OptionData.edge a)
       (filter (passes options) (mockAnalyzeFrom h n (resolvedContracts symbols)))).
Proof.
  apply sorted_filtered_Forall, mockAnalyzeFrom_Forall.
  intros n' c Hc. apply kindBased_declared.
  apply resolvedContracts_in_table, mock_table_strategy in Hc.
  unfold kindBased. rewrite mock_record_strategy, mock_record_optionType.
  destruct c as [[rawOption stockPrice] symbol]. exact Hc.
Qed.

Lemma table_order_witness :
  let page :=
    mkPage (SearchResults.mk
              (Array_sort (fun a b => OptionData.edge b - OptionData.edge a)
                 (filter (passes defaultOptions)
                    (mockAnalyzeFrom closingHost 0 (resolvedContracts ["AAPL"; "MSFT"]))))
              false "" 100 None)
      ["AAPL, MSFT"] "puts" 5 all_types all_strategies connected in
  StronglySorted (mayPrecede closingHost "puts")
    (OptionsTable.sortedOpportunities closingHost (fun _ _ => 0) (tableProps page)).
Proof.
  cbv zeta.
  refine (table_order closingHost (fun _ _ => 0) (mkPage _ _ _ _ _ _ _) _ _).
  - cbn [sortBy]. discriminate.
  - cbn [searchResults SearchResults.opportunities]. apply mock_results_declared.
Defined.

(** ** The progress bar *)

Lemma progressShown_steps (final : string) (symbols : list string) :
  symbols <> [] ->
  progressSteps (List.length symbols) (map progressShown (progressCalls final symbols)).
Proof.
  intros Hne. unfold progressSteps.
  destruct (progressCalls_shape final symbols) as (Hlen & Hnth & _ & _).
  set (N := List.length symbols) in *.
  assert (HN : (0 < N)%nat).
  { subst N. destruct symbols; [congruence | cbn; lia]. }
  assert (HNR : 0 < INR N) by now apply lt_0_INR.
  assert (Hk : forall k, (k <= N)%nat ->
            fst (nth k (map progressShown (progressCalls final symbols)) (0, ""))
            = INR k / INR N * 100).
  { intros k Hk.
    assert (Hd : (0, "") = progressShown noCall).
    { unfold progressShown, noCall. cbn. f_equal. unfold Rdiv. ring. }
    rewrite Hd, map_nth. unfold progressShown. cbn [fst].
    destruct (Hnth k Hk) as [-> ->]. reflexivity. }
  split; [now rewrite length_map |].
  split; [exact Hk | split; [| split]].
  - intros k Hle. rewrite (Hk k Hle).
    assert (0 <= INR k) by apply pos_INR.
    assert (INR k <= INR N) by now apply le_INR.
    assert (Hq : 0 <= INR k / INR N <= 1).
    { split.
      - apply Rmult_le_pos; [lra |]. apply Rlt_le, Rinv_0_lt_compat, HNR.
      - apply Rmult_le_reg_r with (INR N); [exact HNR |].
        unfold Rdiv. rewrite Rmult_assoc, Rinv_l by lra. lra. }
    lra.
  - intros k Hlt. rewrite (Hk k) by lia. rewrite (Hk (S k)) by lia.
    rewrite S_INR. apply Rmult_lt_compat_r; [lra |].
    apply Rmult_lt_compat_r; [now apply Rinv_0_lt_compat | lra].
  - rewrite (Hk N) by lia. unfold Rdiv. rewrite Rinv_r by lra. lra.
Qed.

Lemma skipn_own_length {A : Type} (l l' : list A) : skipn (List.length l) (l ++ l') = l'.
Proof. induction l as [| a l IH]; [reflexivity | exact IH]. Qed.

(** X27. A search from the page for a query that names at least one symbol,
    with either service, starts with the progress bar at 0 and sets it once
    per symbol and once at the end: to k/N of 100 at the k-th of the N
    symbols, so it starts at 0, rises strictly from one setting to the next,
    stays between 0 and 100 and reaches 100 at the closing call, which is
    also the value the page holds when the search has settled; each call of
    the callback sets the bar to that value and the label to the symbol. *)
Theorem progress_bar_steps (h : Host) (query : string) (page : PageState) (st : State) :
  isEmpty (trim query) = false ->
  parseSymbols query <> [] ->
  let N := List.length (parseSymbols query) in
  let steps (service : Service) :=
    exists started waits results,
      fst (handleSearch service h query page st) = (started, Some waits) /\
      SearchResults.progress (searchResults started) = 0 /\
      progressSteps N (map progressShown (remaining waits)) /\
      settles waits = Returned results /\
      forall atSettle,
        SearchResults.progress (searchResults (settle (settles waits) atSettle)) = 100 in
  steps mockService /\ steps fetchService /\
  forall (c : ProgressCall) (shown : PageState),
    SearchResults.progress (searchResults (onProgress c shown)) = fst (progressShown c) /\
    SearchResults.currentSymbol (searchResults (onProgress c shown)) = label c.
Proof.
  intros Hq Hne. cbv zeta.
  pose proof (tickers_not_inherited _ (proj2 (parseSymbols_tickers query))) as Ht.
  split; [| split; [| intros c shown; split; reflexivity]].
  - rewrite (handleSearch_started mockService h query page st Hq). cbv zeta.
    unfold mockService. rewrite mock_search_log, mock_search_result, Ht.
    cbn [SearchOptions.onProgress]. rewrite skipn_own_length.
    do 3 eexists. split; [reflexivity |].
    split; [reflexivity |]. split; [now apply progressShown_steps |].
    split; reflexivity.
  - rewrite (handleSearch_started fetchService h query page st Hq). cbv zeta.
    rewrite fetchService_run. cbn [fst snd].
    rewrite fetch_search_log. cbn [SearchOptions.onProgress]. rewrite skipn_own_length.
    do 3 eexists. split; [reflexivity |].
    split; [reflexivity |]. split; [now apply progressShown_steps |].
    split; reflexivity.
Qed.

Lemma progress_bar_steps_witness :
  exists started waits results,
    fst (handleSearch fetchService closingHost "aapl msft" initialPage initialState)
      = (started, Some waits) /\
    SearchResults.progress (searchResults started) = 0 /\
    progressSteps 2 (map progressShown (remaining waits)) /\
    settles waits = Returned results /\
    forall atSettle,
      SearchResults.progress (searchResults (settle (settles waits) atSettle)) = 100.
Proof.
  refine (proj1 (proj2 (progress_bar_steps closingHost "aapl msft" initialPage initialState
                          _ _))).
  - reflexivity.
  - vm_compute. discriminate.
Defined.

(** X28. Submitting the search bar, when the page is not loading and the
    query is not blank, runs the service on exactly the symbols the preview
    under the input field shows, although the bar previews the query as
    typed and the page parses the trimmed one: what the service returns for
    them is what the page holds once the search has settled.  The page is
    loading until then, the trimmed query heads the history, and the bar
    closes its history list and keeps its text. *)
Theorem submit_searches_the_preview (service : Service) (h : Host)
    (bar : SearchBar.BarState) (page : PageState) (st : State) :
  isEmpty (trim (SearchBar.query bar)) = false ->
  let out := SearchBar.handleSubmit (fun query => handleSearch service h query page)
               false bar st in
  let run := service h (SearchBar.parsedSymbols bar)
               (SearchOptions.mk true (minEdge page) 1 0.10) st in
  exists started waits,
    fst out = (SearchBar.mkBar (SearchBar.query bar) false, Some (started, Some waits)) /\
    settles waits = fst run /\
    (forall results atSettle,
       fst run = Returned results ->
       SearchResults.opportunities (searchResults (settle (settles waits) atSettle))
       = results) /\
    snd out = snd run /\
    SearchResults.isLoading (searchResults started) = true /\
    hd_error (searchHistory started) = Some (trim (SearchBar.query bar)).
Proof.
  intros Hq. cbv zeta. unfold SearchBar.handleSubmit, SearchBar.parsedSymbols.
  rewrite Hq. cbn [negb andb]. unfold bind.
  assert (Hq' : isEmpty (trim (trim (SearchBar.query bar))) = false)
    by now rewrite trim_idempotent.
  rewrite (handleSearch_started service h (trim (SearchBar.query bar)) page st Hq').
  cbv zeta. rewrite parseSymbols_trim. cbn [ret fst snd].
  do 2 eexists. split; [reflexivity |]. cbn [settles].
  split; [reflexivity |]. split; [| repeat split; reflexivity].
  intros results atSettle ->. reflexivity.
Qed.

Lemma submit_searches_the_preview_witness :
  let bar := SearchBar.mkBar "  aapl,msft " true in
  let out := SearchBar.handleSubmit
               (fun query => handleSearch mockService closingHost query initialPage)
               false bar initialState in
  exists started waits,
    fst out = (SearchBar.mkBar "  aapl,msft " false, Some (started, Some waits)) /\
    settles waits =
      fst (MockService.searchOptionsData closingHost ["AAPL"; "MSFT"] defaultOptions
             initialState) /\
    hd_error (searchHistory started) = Some "aapl,msft".
Proof.
  cbv zeta.
  destruct (submit_searches_the_preview mockService closingHost
              (SearchBar.mkBar "  aapl,msft " true) initialPage initialState eq_refl)
    as (started & waits & H1 & H2 & _ & _ & _ & H5).
  exists started, waits. split; [exact H1 | split; [exact H2 | exact H5]].
Defined.

(** ** The route *)

Lemma collect_lookups (table : list (string * MarketData.t)) (symbolList : list string)
    (results : list MarketData.t) :
  Route.collect table symbolList results =
  (results ++
   flat_map (fun symbol =>
               match MockService.ownEntry table symbol with
               | Some data => [data]
               | None => []
               end) symbolList)%list.
Proof.
  revert results. induction symbolList as [| s l IH]; intros results; cbn.
  - now rewrite app_nil_r.
  - destruct (MockService.ownEntry table s); rewrite IH; [| reflexivity].
    now rewrite <- app_assoc.
Qed.

Lemma route_lookup (getNextFriday : nat -> string) (key : string) :
  match MockService.ownEntry (Route.MOCK_OPTIONS_DATA getNextFriday) key with
  | Some data => MarketData.symbol data = key /\ In key routeSymbols
  | None => ~ In key routeSymbols
  end.
Proof.
  unfold Route.MOCK_OPTIONS_DATA, routeSymbols. cbn [MockService.ownEntry].
  repeat match goal with
  | |- context [String.eqb ?k key] =>
      let E := fresh "E" in
      destruct (String.eqb k key) eqn:E;
      [apply String.eqb_eq in E; subst key; cbn; tauto | apply String.eqb_neq in E]
  end.
  cbn. intuition congruence.
Qed.

Lemma known_lookup (getNextFriday : nat -> string) (key : string) :
  existsb (String.eqb key) routeSymbols =
  match MockService.ownEntry (Route.MOCK_OPTIONS_DATA getNextFriday) key with
  | Some _ => true
  | None => false
  end.
Proof.
  pose proof (route_lookup getNextFriday key) as H.
  destruct (MockService.ownEntry (Route.MOCK_OPTIONS_DATA getNextFriday) key).
  - apply existsb_exists. exists key. split; [apply H | apply String.eqb_refl].
  - apply not_true_is_false. intros He. apply existsb_exists in He.
    destruct He as (x & Hx & Heq). apply String.eqb_eq in Heq. subst x. contradiction.
Qed.

Lemma collected_symbols (getNextFriday : nat -> string) (symbolList : list string) :
  map MarketData.symbol
    (flat_map (fun symbol =>
                 match MockService.ownEntry (Route.MOCK_OPTIONS_DATA getNextFriday) symbol with
                 | Some data => [data]
                 | None => []
                 end) symbolList) =
  filter (fun symbol => existsb (String.eqb symbol) routeSymbols) symbolList.
Proof.
  induction symbolList as [| s l IH]; [reflexivity |].
  cbn [flat_map filter]. rewrite (known_lookup getNextFriday s).
  pose proof (route_lookup getNextFriday s) as H.
  destruct (MockService.ownEntry (Route.MOCK_OPTIONS_DATA getNextFriday) s) as [d |].
  - cbn [app map]. rewrite IH. f_equal. apply H.
  - exact IH.
Qed.

Lemma comma_toUpperCase (c : ascii) :
  Ascii.eqb (toUpperCaseChar c) "," = Ascii.eqb c ",".
Proof. destruct c as [[] [] [] [] [] [] [] []]; reflexivity. Qed.

Lemma splitOn_toUpperCase (s : string) :
  splitOn "," (toUpperCase s) = map toUpperCase (splitOn "," s).
Proof.
  induction s as [| c s IH]; cbn; [reflexivity |].
  rewrite comma_toUpperCase. destruct (Ascii.eqb c ","); cbn; rewrite IH; [reflexivity |].
  destruct (splitOn "," s); reflexivity.
Qed.

Lemma requested_toUpperCase (s : string) : requested (toUpperCase s) = requested s.
Proof.
  unfold requested. rewrite splitOn_toUpperCase, map_map.
  apply map_ext. intros piece. now rewrite trim_toUpperCase, toUpperCase_idempotent.
Qed.

Lemma GET_toUpperCase (h : Host) (getNextFriday : nat -> string) (symbols : string)
    (st : State) :
  Route.GET h getNextFriday (Some (toUpperCase symbols)) st =
  Route.GET h getNextFriday (Some symbols) st.
Proof.
  unfold Route.GET. rewrite isEmpty_toUpperCase.
  destruct (isEmpty symbols); [reflexivity |].
  fold (requested (toUpperCase symbols)). fold (requested symbols).
  now rewrite requested_toUpperCase.
Qed.

(** X29. The route answers 400, without a pause, when the [symbols] parameter
    is missing or empty.  Otherwise it pauses once and then answers 404 if
    none of the comma-separated pieces, trimmed and in capitals, is one of its
    five symbols, and else 200 with the entries of those pieces that are, in
    the order of the request and as often as they are named; a 200 answer is
    never an empty list.  The answer to a request in small letters is the
    answer to the same request in capitals. *)
Theorem GET_answers (h : Host) (getNextFriday : nat -> string) (symbols : option string)
    (st : State) :
  (symbols = None \/ symbols = Some "" ->
   Route.GET h getNextFriday symbols st = (Route.JsonError "No symbols provided" 400, st)) /\
  (forall s, symbols = Some s -> s <> "" ->
   snd (Route.GET h getNextFriday symbols st) =
     mkState (dateReads st) (S (randomDraws st)) (requests st) (progressLog st) /\
   match fst (Route.GET h getNextFriday symbols st) with
   | Route.Json results =>
       results <> [] /\
       map MarketData.symbol results =
       filter (fun symbol => existsb (String.eqb symbol) routeSymbols) (requested s)
   | Route.JsonError _ status =>
       status = 404%nat /\ Forall (fun symbol => ~ In symbol routeSymbols) (requested s)
   end) /\
  Route.GET h getNextFriday (option_map toUpperCase symbols) st =
  Route.GET h getNextFriday symbols st.
Proof.
  split; [| split].
  - intros [-> | ->]; reflexivity.
  - intros s -> Hs. unfold Route.GET.
    destruct s as [| c s]; [contradiction |]. cbn [isEmpty].
    fold (requested (String c s)). unfold bind, delay, random, ret. cbn [fst snd].
    rewrite collect_lookups. cbn [app].
    pose proof (collected_symbols getNextFriday (requested (String c s))) as Hc.
    destruct (flat_map _ (requested (String c s))) as [| d results] eqn:Hr;
      cbn [List.length Nat.eqb fst snd].
    + split; [reflexivity | split; [reflexivity |]].
      cbn [map] in Hc. symmetry in Hc.
      rewrite Forall_forall. intros x Hx Hin.
      assert (Hf : In x (filter (fun symbol => existsb (String.eqb symbol) routeSymbols)
                           (requested (String c s)))).
      { apply filter_In. split; [exact Hx |].
        apply existsb_exists. exists x. split; [exact Hin | apply String.eqb_refl]. }
      rewrite Hc in Hf. contradiction.
    + split; [reflexivity | split; [discriminate | exact Hc]].
  - destruct symbols as [symbols |]; [apply GET_toUpperCase | reflexivity].
Qed.

(** ** The fetch-backed service in front of the route *)

Lemma splitOn_noSeparator (s : string) : noSeparator s = true -> splitOn "," s = [s].
Proof.
  induction s as [| c s IH]; cbn; [reflexivity |].
  intros H. apply andb_true_iff in H. destruct H as [Hc Hs].
  apply negb_true_iff in Hc. unfold isSeparator in Hc. apply orb_false_iff in Hc.
  destruct Hc as [-> _]. now rewrite (IH Hs).
Qed.

Lemma routeAnswer_ticker (server : Host) (getNextFriday : nat -> string) (k : nat)
    (symbol : string) :
  matchesTicker symbol = true ->
  routeAnswer server getNextFriday k symbol =
  match MockService.ownEntry (Route.MOCK_OPTIONS_DATA getNextFriday) symbol with
  | Some data => FetchResults [data]
  | None => FetchFailed
  end.
Proof.
  intros Hm. unfold matchesTicker in Hm.
  apply andb_true_iff in Hm. destruct Hm as [Hm Hl].
  apply andb_true_iff in Hm. destruct Hm as [Hlen _].
  destruct (allUpperLetters_plain symbol Hl) as [Hn Hu].
  unfold routeAnswer, Route.GET.
  destruct symbol as [| c s]; [discriminate Hlen |]. cbn [isEmpty].
  rewrite (splitOn_noSeparator _ Hn). cbn [map].
  rewrite (trim_noSeparator _ Hn), Hu.
  unfold bind, delay, random, ret. cbn [fst snd Route.collect].
  destruct (MockService.ownEntry (Route.MOCK_OPTIONS_DATA getNextFriday) (String c s));
    reflexivity.
Qed.

Lemma fetchAnalyzeFrom_tickers (h : Host) (symbolData : MarketData.t) :
  forall (cs : list (RawOptionData.t * R * string)) (d u : nat),
  Forall (fun c => snd c = MarketData.symbol symbolData) cs ->
  Forall (fun o => OptionData.ticker o = MarketData.symbol symbolData)
    (fetchAnalyzeFrom h d u cs).
Proof.
  induction cs as [| c cs IH]; intros d u Hc; cbn [fetchAnalyzeFrom]; constructor.
  - inversion Hc as [| ? ? H1 _]; subst.
    destruct c as [[rawOption stockPrice] ticker]. exact H1.
  - apply IH. now inversion Hc.
Qed.

Lemma fetchAnalyzed_tickers (P : string -> Prop) (h : Host) (symbols : list string) :
  (forall q s symbolData rest,
     In s symbols -> fetchOptions h q s = FetchResults (symbolData :: rest) ->
     P (MarketData.symbol symbolData)) ->
  forall d u q, Forall (fun o => P (OptionData.ticker o)) (fetchAnalyzed h d u q symbols).
Proof.
  induction symbols as [| s l IH]; intros H d u q; cbn [fetchAnalyzed]; [constructor |].
  assert (Hl : forall d u q, Forall (fun o => P (OptionData.ticker o))
                               (fetchAnalyzed h d u q l)).
  { apply IH. intros q' s' sd rest Hin. apply H. now right. }
  destruct (fetchOptions h q s) as [| [| symbolData results]] eqn:Hf; auto.
  cbv zeta. apply Forall_app. split; [| apply Hl].
  eapply Forall_impl;
    [| apply (fetchAnalyzeFrom_tickers h symbolData (contractsOf symbolData) d u)].
  - cbn. intros o ->. apply (H q s symbolData results); [now left | exact Hf].
  - unfold contractsOf. rewrite Forall_forall. intros c Hc.
    apply in_map_iff in Hc. now destruct Hc as (o & <- & _).
Qed.

Section OverTheRoute.
Variables (client server : Host) (getNextFriday : nat -> string).

Lemma route_search_tickers (symbols : list string) (options : SearchOptions.t) (st : State) :
  Forall (fun s => matchesTicker s = true) symbols ->
  Forall (fun o => In (OptionData.ticker o) symbols /\ In (OptionData.ticker o) routeSymbols)
    (fst (FetchService.searchOptionsData (routeClient client server getNextFriday)
            symbols options st)).
Proof.
  intros Hv. rewrite fetch_search_result.
  apply sorted_filtered_Forall.
  apply (fetchAnalyzed_tickers (fun t => In t symbols /\ In t routeSymbols)).
  intros q s symbolData rest Hin. cbn [routeClient fetchOptions].
  rewrite Forall_forall in Hv. rewrite (routeAnswer_ticker _ _ _ _ (Hv s Hin)).
  pose proof (route_lookup getNextFriday s) as Hl.
  destruct (MockService.ownEntry (Route.MOCK_OPTIONS_DATA getNextFriday) s) as [data |];
    [| discriminate].
  intros [= <- _]. destruct Hl as [-> Hk]. split; assumption.
Qed.

Lemma route_search_unknown (symbols : list string) (options : SearchOptions.t) (st : State) :
  Forall (fun s => matchesTicker s = true) symbols ->
  Forall (fun s => ~ In s routeSymbols) symbols ->
  fst (FetchService.searchOptionsData (routeClient client server getNextFriday)
         symbols options st) = [].
Proof.
  intros Hv Hu. rewrite fetch_search_result, fetchAnalyzed_none; [reflexivity |].
  intros q s Hin. left. cbn [routeClient fetchOptions].
  rewrite Forall_forall in Hv, Hu. rewrite (routeAnswer_ticker _ _ _ _ (Hv s Hin)).
  pose proof (route_lookup getNextFriday s) as Hl.
  destruct (MockService.ownEntry (Route.MOCK_OPTIONS_DATA getNextFriday) s) as [data |];
    [| reflexivity].
  destruct Hl as [_ Hk]. now apply Hu in Hk.
Qed.

End OverTheRoute.

(** X30. With the route behind the fetch-backed service and symbols of one to
    five capital letters, every record of a search carries as ticker one of
    the symbols asked for that is also one of the five of the route, and a
    search for symbols the route does not know (each request answered 404)
    returns the empty list. *)
Theorem search_over_route (client server : Host) (getNextFriday : nat -> string)
    (symbols : list string) (options : SearchOptions.t) (st : State) :
  Forall (fun s => matchesTicker s = true) symbols ->
  let out := fst (FetchService.searchOptionsData (routeClient client server getNextFriday)
                    symbols options st) in
  Forall (fun o => In (OptionData.ticker o) symbols /\
                   In (OptionData.ticker o) routeSymbols) out /\
  (Forall (fun s => ~ In s routeSymbols) symbols -> out = []).
Proof.
  intros Hv. cbv zeta. split.
  - now apply route_search_tickers.
  - now apply route_search_unknown.
Qed.

Lemma search_over_route_witness :
  Forall (fun o => In (OptionData.ticker o) ["NVDA"; "IBM"] /\
                   In (OptionData.ticker o) routeSymbols)
    (fst (FetchService.searchOptionsData (routeClient closingHost dayAfterHost augustFridays)
            ["NVDA"; "IBM"] defaultOptions initialState)).
Proof.
  refine (proj1 (search_over_route closingHost dayAfterHost augustFridays ["NVDA"; "IBM"]
                   defaultOptions initialState _)).
  repeat constructor.
Defined.
